(** * DeepDelta: deep structural comparison of Python values

    A shallow embedding of the comparison engine of the [deepdelta] package
    ([delta_config.py], [delta_output.py], [comparator.py], [core.py]) and the
    properties its specification states about it.

    Layout: module [Py] holds the fragment of Python the engine runs on
    (values, exceptions, the log, dicts, sets, strings); the modules
    [DeltaConfig], [DeltaOutput], [Comparator] and [Core] follow the source
    files function by function; lemmas and the theorems of the specification
    come last.

    Values are the JSON-shaped values the command line feeds the engine
    (None, bool, int, str, list, dict) together with tuples, sets, compiled
    patterns, class objects and instances of plain classes.  float, Decimal
    and datetime values reach the engine only through host formatting and
    parsing ([float()], [str.format], [strptime]); they are kept outside the
    value universe and only their type tags remain, as keys of the
    type-comparator table. *)

From Stdlib Require Import ZArith List String Ascii Bool Lia.
From Stdlib Require Import DecimalString DecimalPos DecimalZ.
From Stdlib Require Import Permutation Sorted.
Import ListNotations.
Local Open Scope string_scope.
Set Warnings "-register-all".

(* ================================================================== *)
(** * The Python fragment *)
(* ================================================================== *)

Module Py.

(** Exceptions the engine can raise; [UserError] stands for whatever a
    caller-supplied comparator or formatter raises. *)
Inductive exn : Set :=
| IndexError
| KeyError
| TypeError
| ValueError
| AttributeError
| RecursionError
| OverflowError
| UserError (tag : string).

Inductive res (A : Type) : Type :=
| Ok (a : A)
| Raise (e : exn).
Arguments Ok {A} a.
Arguments Raise {A} e.

(** Runtime type tags: what [type(x)] returns. *)
Inductive pytype : Set :=
| TNoneType | TBool | TInt | TFloat | TDecimal | TStr
| TList | TTuple | TSet | TDict
| TDate | TDatetime | TPattern | TType | TNotImplementedType
| TClass (name : string).

Definition type_code (t : pytype) : nat * string :=
  match t with
  | TNoneType => (0, "") | TBool => (1, "") | TInt => (2, "")
  | TFloat => (3, "") | TDecimal => (4, "") | TStr => (5, "")
  | TList => (6, "") | TTuple => (7, "") | TSet => (8, "")
  | TDict => (9, "") | TDate => (10, "") | TDatetime => (11, "")
  | TPattern => (12, "") | TType => (13, "")
  | TNotImplementedType => (14, "")
  | TClass n => (15, n)
  end%nat.

Definition pytype_eqb (a b : pytype) : bool :=
  Nat.eqb (fst (type_code a)) (fst (type_code b))
  && String.eqb (snd (type_code a)) (snd (type_code b)).

(** Values.  A dict is its list of entries in insertion order; a set is the
    list of its elements (iteration order is the host's, see [Host]); an
    instance of a plain class carries its identity, its class name and its
    [__dict__]. *)
Inductive value : Type :=
| VNone
| VBool (b : bool)
| VInt (n : Z)
| VStr (s : string)
| VList (xs : list value)
| VTuple (xs : list value)
| VSet (xs : list value)
| VDict (kvs : list (value * value))
| VObj (oid : nat) (cls : string) (attrs : list (string * value))
| VPattern (src : string) (flags : Z)
| VType (t : pytype)
| VNotImplemented.

Definition bool_int (b : bool) : Z := if b then 1%Z else 0%Z.

(** Element-wise comparison of two lists of the same length. *)
Fixpoint all2 {A B} (f : A -> B -> bool) (xs : list A) (ys : list B)
  {struct xs} : bool :=
  match xs, ys with
  | [], [] => true
  | x :: xs', y :: ys' => f x y && all2 f xs' ys'
  | _, _ => false
  end.

(** [a == b].  bool is a subclass of int and compares numerically; lists and
    tuples compare element by element; two sets are equal when they have as
    many elements and each element of the first is in the second; two dicts
    when they have as many entries and each key of the first is a key of the
    second with an equal value; instances of plain classes are equal to
    themselves only. *)
Fixpoint py_eq (a b : value) {struct a} : bool :=
  match a, b with
  | VNone, VNone => true
  | VBool x, VBool y => Bool.eqb x y
  | VBool x, VInt n => Z.eqb (bool_int x) n
  | VInt n, VBool y => Z.eqb n (bool_int y)
  | VInt n, VInt m => Z.eqb n m
  | VStr s, VStr t => String.eqb s t
  | VList xs, VList ys => all2 (fun x y => py_eq x y) xs ys
  | VTuple xs, VTuple ys => all2 (fun x y => py_eq x y) xs ys
  | VSet xs, VSet ys =>
      Nat.eqb (List.length xs) (List.length ys)
      && forallb (fun x => existsb (fun y => py_eq x y) ys) xs
  | VDict kvs, VDict kws =>
      Nat.eqb (List.length kvs) (List.length kws)
      && forallb (fun kv =>
                    match find (fun kw => py_eq (fst kv) (fst kw)) kws with
                    | Some kw => py_eq (snd kv) (snd kw)
                    | None => false
                    end) kvs
  | VObj i _ _, VObj j _ _ => Nat.eqb i j
  | VPattern s f, VPattern t g => String.eqb s t && Z.eqb f g
  | VType s, VType t => pytype_eqb s t
  | VNotImplemented, VNotImplemented => true
  | _, _ => false
  end.

(** [bool(v)]: the truth value Python gives [v] in [if v], [not v], [a or b]. *)
Definition truthy (v : value) : bool :=
  match v with
  | VNone => false
  | VBool b => b
  | VInt n => negb (Z.eqb n 0)
  | VStr s => negb (String.eqb s "")
  | VList xs | VTuple xs | VSet xs => negb (Nat.eqb (List.length xs) 0)
  | VDict kvs => negb (Nat.eqb (List.length kvs) 0)
  | VObj _ _ _ | VPattern _ _ | VType _ | VNotImplemented => true
  end.

(** [hash(v)] succeeds. *)
Fixpoint hashable (v : value) : bool :=
  match v with
  | VList _ | VSet _ | VDict _ => false
  | VTuple xs => forallb hashable xs
  | _ => true
  end.

Definition type_of (v : value) : pytype :=
  match v with
  | VNone => TNoneType
  | VBool _ => TBool
  | VInt _ => TInt
  | VStr _ => TStr
  | VList _ => TList
  | VTuple _ => TTuple
  | VSet _ => TSet
  | VDict _ => TDict
  | VObj _ cls _ => TClass cls
  | VPattern _ _ => TPattern
  | VType _ => TType
  | VNotImplemented => TNotImplementedType
  end.

(** [isinstance(v, Mapping)], [isinstance(v, Sequence)],
    [issubclass(t, Collection)], [issubclass(t, Mapping)]. *)
Definition is_mapping (v : value) : bool :=
  match v with VDict _ => true | _ => false end.

Definition is_sequence (v : value) : bool :=
  match v with VList _ | VTuple _ | VStr _ => true | _ => false end.

Definition is_str (v : value) : bool :=
  match v with VStr _ => true | _ => false end.

Definition is_bool (v : value) : bool :=
  match v with VBool _ => true | _ => false end.

(** The characters of a value known to be a str. *)
Definition text (v : value) : string :=
  match v with VStr s => s | _ => EmptyString end.

Definition is_tuple (v : value) : bool :=
  match v with VTuple _ => true | _ => false end.

Definition is_collection_type (t : pytype) : bool :=
  match t with
  | TStr | TList | TTuple | TSet | TDict => true
  | _ => false
  end.

Definition is_mapping_type (t : pytype) : bool :=
  match t with TDict => true | _ => false end.

(** Messages of [logger.warning]. *)
Inductive warning : Type :=
| MultipleMatching (key_path : value) (keys : list value)
| PairOrderWarning (l_type r_type : pytype)
| BothSidesWarning (l_type r_type : pytype)
| UserWarning (msg : string).

(** Computations: the warnings logged so far and a result or an exception. *)
Definition M (A : Type) : Type := (list warning * res A)%type.

Definition ret {A} (a : A) : M A := ([], Ok a).
Definition raise {A} (e : exn) : M A := ([], Raise e).
Definition warn (w : warning) : M unit := ([w], Ok tt).
Definition lift {A} (r : res A) : M A := ([], r).

Definition bind {A B} (m : M A) (k : A -> M B) : M B :=
  match m with
  | (l, Ok a) => let (l', r) := k a in (l ++ l', r)%list
  | (l, Raise e) => (l, Raise e)
  end.

Definition logged {A} (m : M A) : list warning := fst m.
Definition result {A} (m : M A) : res A := snd m.

(** ** The host: builtins of the Python runtime the engine calls and this
    development does not define.  Every statement below holds for every
    host. *)
Class Host : Type := {
  (** [s.casefold()] *)
  casefold : string -> string;
  (** [s.strip()] *)
  strip : string -> string;
  (** [re.fullmatch(pattern, s) is not None] *)
  re_fullmatch : string -> Z -> string -> bool;
  (** [str(v)] for a container, an instance, a pattern or a class *)
  repr : value -> string;
  (** ["{:.<digits>f}".format(float(v))] *)
  format_float : value -> nat -> res string;
  (** the order in which a set holding these elements is iterated *)
  set_iter : list value -> list value;
  (** [cls.__dict__] of a class object *)
  type_vars : pytype -> value
}.

(** ** Strings *)

Definition str_of_int (n : Z) : string :=
  NilZero.string_of_int (Z.to_int n).

(** [str(v)], also what an f-string and [str.format] insert for [v]. *)
Definition py_str `{Host} (v : value) : string :=
  match v with
  | VNone => "None"
  | VBool true => "True"
  | VBool false => "False"
  | VInt n => str_of_int n
  | VStr s => s
  | _ => repr v
  end.

(** [c in s] for a one-character string [c]. *)
Fixpoint contains (c : ascii) (s : string) : bool :=
  match s with
  | EmptyString => false
  | String a s' => Ascii.eqb a c || contains c s'
  end.

(** [s.split(c)] for a one-character separator. *)
Fixpoint split (c : ascii) (s : string) : list string :=
  match s with
  | EmptyString => [EmptyString]
  | String a s' =>
      if Ascii.eqb a c then EmptyString :: split c s'
      else match split c s' with
           | [] => [String a EmptyString]
           | seg :: rest => String a seg :: rest
           end
  end.

(** [s.endswith(suffix)] and [s.startswith(prefix)]. *)
Fixpoint endswith (s suffix : string) : bool :=
  String.eqb s suffix
  || match s with
     | EmptyString => false
     | String _ s' => endswith s' suffix
     end.

Definition startswith (s pre : string) : bool := String.prefix pre s.

(** The characters of a string, as iteration yields them. *)
Fixpoint chars (s : string) : list value :=
  match s with
  | EmptyString => []
  | String a s' => VStr (String a EmptyString) :: chars s'
  end.

(** ** Dicts *)

Definition entries : Type := list (value * value).

Fixpoint dict_get (d : entries) (k : value) : option value :=
  match d with
  | [] => None
  | (k', v) :: d' => if py_eq k' k then Some v else dict_get d' k
  end.

(** [d[k] = v] on a dict: an equal key keeps its place and its first
    spelling, a new key goes last. *)
Fixpoint dict_set (d : entries) (k v : value) : entries :=
  match d with
  | [] => [(k, v)]
  | (k', v') :: d' =>
      if py_eq k' k then (k', v) :: d' else (k', v') :: dict_set d' k v
  end.

Definition dict_store (d : entries) (k v : value) : res entries :=
  if hashable k then Ok (dict_set d k v) else Raise TypeError.

(** [{k: v for ...}] given the pairs in the order the comprehension
    produces them. *)
Fixpoint dict_fill (d : entries) (kvs : list (value * value)) : res entries :=
  match kvs with
  | [] => Ok d
  | (k, v) :: kvs' =>
      match dict_store d k v with
      | Ok d' => dict_fill d' kvs'
      | Raise e => Raise e
      end
  end.

Definition dict_keys (d : entries) : list value := map fst d.

(** [c[k]] *)
Definition getitem (c k : value) : res value :=
  match c with
  | VDict d =>
      if hashable k then
        match dict_get d k with
        | Some v => Ok v
        | None => Raise KeyError
        end
      else Raise TypeError
  | VList xs | VTuple xs =>
      match k with
      | VInt _ | VBool _ =>
          let i := match k with
                   | VInt n => n
                   | VBool b => bool_int b
                   | _ => 0%Z
                   end in
          let j := if (i <? 0)%Z then (i + Z.of_nat (List.length xs))%Z else i in
          if (j <? 0)%Z then Raise IndexError
          else match nth_error xs (Z.to_nat j) with
               | Some v => Ok v
               | None => Raise IndexError
               end
      | _ => Raise TypeError
      end
  | VStr s =>
      match k with
      | VInt _ | VBool _ =>
          let i := match k with
                   | VInt n => n
                   | VBool b => bool_int b
                   | _ => 0%Z
                   end in
          let xs := chars s in
          let j := if (i <? 0)%Z then (i + Z.of_nat (List.length xs))%Z else i in
          if (j <? 0)%Z then Raise IndexError
          else match nth_error xs (Z.to_nat j) with
               | Some v => Ok v
               | None => Raise IndexError
               end
      | _ => Raise TypeError
      end
  | _ => Raise TypeError
  end.

(** [hasattr(v, '__dict__')] and [v.__dict__] ([vars(v)]). *)
Definition obj_vars `{Host} (v : value) : option value :=
  match v with
  | VObj _ _ attrs => Some (VDict (map (fun kv => (VStr (fst kv), snd kv)) attrs))
  | VType t => Some (type_vars t)
  | _ => None
  end.

Definition has_dict `{Host} (v : value) : bool :=
  match obj_vars v with Some _ => true | None => false end.

(** ** Sets *)

Definition set_mem (xs : list value) (x : value) : bool :=
  existsb (fun y => py_eq y x) xs.

Definition set_add (xs : list value) (x : value) : list value :=
  if set_mem xs x then xs else (xs ++ [x])%list.

(** [x in s] for a set [s].  The lookup hashes [x], which raises
    [TypeError] for a list, a dict or a tuple that holds one; a set is
    looked up as its frozenset, which can be hashed and is equal to no
    value of this universe. *)
Definition set_contains (xs : list value) (x : value) : res bool :=
  match x with
  | VSet _ => Ok false
  | _ => if hashable x then Ok (set_mem xs x) else Raise TypeError
  end.

(** [set(xs)] and [{x for ...}] given the elements in production order. *)
Fixpoint set_fill (acc : list value) (xs : list value) : res (list value) :=
  match xs with
  | [] => Ok acc
  | x :: xs' =>
      if hashable x then set_fill (set_add acc x) xs' else Raise TypeError
  end.

Definition set_of (xs : list value) : res value :=
  match set_fill [] xs with
  | Ok ys => Ok (VSet ys)
  | Raise e => Raise e
  end.

Definition set_inter (xs ys : list value) : list value :=
  filter (fun x => set_mem ys x) xs.

Definition set_union (xs ys : list value) : list value :=
  fold_left set_add ys xs.

(** [set.intersection] unpacked over a non-empty list of sets. *)
Definition set_inter_all (sets : list (list value)) : res (list value) :=
  match sets with
  | [] => Raise TypeError
  | s :: rest => Ok (fold_left set_inter rest s)
  end.

(** [list(v)]: the elements iteration yields. *)
Definition iterate `{Host} (v : value) : res (list value) :=
  match v with
  | VList xs | VTuple xs => Ok xs
  | VSet xs => Ok (set_iter xs)
  | VDict d => Ok (dict_keys d)
  | VStr s => Ok (chars s)
  | _ => Raise TypeError
  end.

(** ** Ordering, for [list.sort()] *)

(** Lexicographic [<] on two sequences: decided by the first position at
    which they differ, the shorter one being smaller when there is none. *)
Fixpoint lex_lt {A} (eq : A -> A -> bool) (lt : A -> A -> res bool)
  (xs ys : list A) {struct xs} : res bool :=
  match xs, ys with
  | [], [] => Ok false
  | [], _ :: _ => Ok true
  | _ :: _, [] => Ok false
  | x :: xs', y :: ys' => if eq x y then lex_lt eq lt xs' ys' else lt x y
  end.

(** [a < b], or the [TypeError] of two values that are not ordered. *)
Fixpoint py_lt (a b : value) {struct a} : res bool :=
  match a, b with
  | VBool x, VBool y => Ok (bool_int x <? bool_int y)%Z
  | VBool x, VInt n => Ok (bool_int x <? n)%Z
  | VInt n, VBool y => Ok (n <? bool_int y)%Z
  | VInt n, VInt m => Ok (n <? m)%Z
  | VStr s, VStr t => Ok (String.ltb s t)
  | VTuple xs, VTuple ys => lex_lt py_eq (fun x y => py_lt x y) xs ys
  | VList xs, VList ys => lex_lt py_eq (fun x y => py_lt x y) xs ys
  | VSet xs, VSet ys =>
      Ok (Nat.ltb (List.length xs) (List.length ys)
          && forallb (fun x => set_mem ys x) xs)
  | _, _ => Raise TypeError
  end.

Fixpoint sort_insert (x : value) (sorted : list value) : res (list value) :=
  match sorted with
  | [] => Ok [x]
  | y :: rest =>
      match py_lt x y with
      | Ok true => Ok (x :: y :: rest)
      | Ok false =>
          match sort_insert x rest with
          | Ok rest' => Ok (y :: rest')
          | Raise e => Raise e
          end
      | Raise e => Raise e
      end
  end.

(** [xs.sort()]: the stable ascending arrangement, or the [TypeError] of an
    unsupported comparison. *)
Fixpoint sort_from (sorted : list value) (xs : list value) : res (list value) :=
  match xs with
  | [] => Ok sorted
  | x :: xs' =>
      match sort_insert x sorted with
      | Ok sorted' => sort_from sorted' xs'
      | Raise e => Raise e
      end
  end.

Definition py_sort (xs : list value) : res (list value) := sort_from [] xs.

End Py.
Export Py.

Notation "x <- c1 ;; c2" := (bind c1 (fun x => c2))
  (at level 61, c1 at next level, right associativity).
Notation "c1 ;;; c2" := (bind c1 (fun _ => c2))
  (at level 61, right associativity).

(* ================================================================== *)
(** * delta_config.py *)
(* ================================================================== *)

Module DeltaConfig.

(** A [DeltaConfig] is a [Flag]: its value is the integer of its bits. *)
Definition t : Type := Z.

Definition CaseIgnored : t := Z.shiftl 3 0.
Definition KeyCaseIgnored : t := Z.shiftl 1 0.
Definition ValueCaseIgnored : t := Z.shiftl 1 1.

Definition SpaceTrimmed : t := Z.shiftl 3 2.
Definition KeySpaceTrimmed : t := Z.shiftl 1 2.
Definition ValueSpaceTrimmed : t := Z.shiftl 1 3.

Definition IdAsKey : t := Z.shiftl 1 4.
Definition NoneUnequalDefault : t := Z.shiftl 1 5.
Definition MissingAsNone : t := Z.shiftl 1 6.

Definition OutputKeepAllDetails : t := Z.shiftl 1 7.
Definition OutputWithDeltaIndicator : t := Z.shiftl 1 8.
Definition OutputIncludeValueTypes : t := Z.shiftl 1 9.

Definition OutputDeltaFormatMask : t := Z.shiftl 3 10.
Definition OutputDeltaAsTuple : t := Z.shiftl 0 10.
Definition OutputDeltaAsDict : t := Z.shiftl 1 10.
Definition OutputDeltaAsStr : t := Z.shiftl 2 10.
Definition OutputDeltaAsCustom : t := Z.shiftl 3 10.

Definition OutputFormatMask : t := Z.shiftl 31 7.

Definition OutputDefault : t := Z.shiftl 0 7.
Definition OutputWithFlag : t := Z.lor OutputDefault OutputWithDeltaIndicator.
Definition OutputAllDetails : t :=
  Z.lor (Z.lor OutputKeepAllDetails OutputWithFlag) OutputIncludeValueTypes.
Definition OutputNoneOrDict : t := Z.lor OutputDefault OutputDeltaAsDict.
Definition OutputNoneOrDictRaw : t := Z.lor OutputNoneOrDict OutputKeepAllDetails.
Definition OutputNoneOrStr : t := Z.lor OutputDefault OutputDeltaAsStr.
Definition OutputNoneOrStrRaw : t := Z.lor OutputNoneOrStr OutputKeepAllDetails.

(** [mask or flags]: a [Flag] is falsy when it has no bit set, and the
    default mask is [None]. *)
Definition mask_or (mask : option t) (flags : t) : t :=
  match mask with
  | Some m => if Z.eqb m 0 then flags else m
  | None => flags
  end.

(** [self.matches(flags, mask)]: [self & (mask or flags) == flags]. *)
Definition matches (self flags : t) (mask : option t) : bool :=
  Z.eqb (Z.land self (mask_or mask flags)) flags.

End DeltaConfig.

(* ================================================================== *)
(** * delta_output.py *)
(* ================================================================== *)

Module DeltaOutput.

(** An output method: [(is_dif, left, right) -> delta]. *)
Definition formatter : Type := value -> value -> value -> M value.

Definition TYPE_ABBREVIATIONS : list (pytype * string) :=
  [(TList, "[...]"); (TSet, "{,,}"); (TDict, "{...}"); (TTuple, "(...)")].

Definition LEFT_KEY : string := "LEFT".
Definition RIGHT_KEY : string := "RIGHT".

(** [STR_FORMAT.format(a, b)] with [STR_FORMAT = '{0} | {1}']. *)
Definition STR_FORMAT `{Host} (a b : value) : string :=
  py_str a ++ " | " ++ py_str b.

Fixpoint type_abbrev (tbl : list (pytype * string)) (t : pytype) : option string :=
  match tbl with
  | [] => None
  | (t', s) :: tbl' => if pytype_eqb t' t then Some s else type_abbrev tbl' t
  end.

Definition get_value_abbrev (v : value) : value :=
  match v with
  | VNone => VNone
  | _ =>
      match type_abbrev TYPE_ABBREVIATIONS (type_of v) with
      | Some s => VStr s
      | None => v
      end
  end.

Definition no_flag_tuple_abbrev : formatter := fun is_dif left right =>
  ret (if truthy is_dif
       then VTuple [get_value_abbrev left; get_value_abbrev right]
       else VNone).

Definition as_tuple : formatter := fun is_dif left right =>
  ret (VTuple [is_dif; left; right]).

Definition as_none_or_tuple : formatter := fun is_dif left right =>
  ret (if truthy is_dif then VTuple [left; right] else VNone).

Definition type_included : formatter := fun is_dif left right =>
  ret (VTuple [is_dif; left; right; VType (type_of left); VType (type_of right)]).

Definition as_none_or_str_raw `{Host} : formatter := fun is_dif left right =>
  ret (if truthy is_dif then VStr (STR_FORMAT left right) else VNone).

Definition as_none_or_str `{Host} : formatter := fun is_dif left right =>
  ret (if truthy is_dif
       then VStr (STR_FORMAT (get_value_abbrev left) (get_value_abbrev right))
       else VNone).

Definition as_none_or_dict_raw : formatter := fun is_dif left right =>
  ret (if negb (truthy is_dif) then VNone
       else VDict [(VStr LEFT_KEY, left); (VStr RIGHT_KEY, right)]).

Definition as_none_or_dict : formatter := fun is_dif left right =>
  ret (if negb (truthy is_dif) then VNone
       else VDict [(VStr LEFT_KEY, get_value_abbrev left);
                   (VStr RIGHT_KEY, get_value_abbrev right)]).

(** The registry of output methods, keyed by the output bits of a
    configuration.  It is a module-level dict that [set_output] updates, so
    the functions reading it take its current content. *)
Definition buffer : Type := list (DeltaConfig.t * formatter).

Definition Output_Buffer `{Host} : buffer :=
  [ (DeltaConfig.OutputDefault, no_flag_tuple_abbrev);
    (DeltaConfig.OutputWithFlag, as_tuple);
    (DeltaConfig.OutputAllDetails, type_included);
    (DeltaConfig.OutputNoneOrDict, as_none_or_dict);
    (DeltaConfig.OutputNoneOrDictRaw, as_none_or_dict_raw);
    (DeltaConfig.OutputDeltaAsStr, as_none_or_str);
    (DeltaConfig.OutputNoneOrStrRaw, as_none_or_str_raw) ].

Fixpoint buffer_get (buf : buffer) (c : DeltaConfig.t) : option formatter :=
  match buf with
  | [] => None
  | (c', f) :: buf' => if Z.eqb c' c then Some f else buffer_get buf' c
  end.

Fixpoint buffer_set (buf : buffer) (c : DeltaConfig.t) (f : formatter) : buffer :=
  match buf with
  | [] => [(c, f)]
  | (c', f') :: buf' =>
      if Z.eqb c' c then (c', f) :: buf' else (c', f') :: buffer_set buf' c f
  end.

(** [set_output]: the new registry and the method it replaced. *)
Definition set_output (buf : buffer) (config : DeltaConfig.t) (output : formatter)
  : buffer * option formatter :=
  let output_config := Z.land config DeltaConfig.OutputFormatMask in
  (buffer_set buf output_config output, buffer_get buf output_config).

Definition get_output (buf : buffer) (config : DeltaConfig.t) : res formatter :=
  let output_config := Z.land config DeltaConfig.OutputFormatMask in
  match buffer_get buf output_config with
  | None => Raise TypeError
  | Some output =>
      if DeltaConfig.matches config DeltaConfig.OutputKeepAllDetails None
      then Ok output
      else Ok (fun is_dif left right =>
                 output is_dif (get_value_abbrev left) (get_value_abbrev right))
  end.

End DeltaOutput.

(* ================================================================== *)
(** * comparator.py *)
(* ================================================================== *)

Module Comparator.

(** A type comparator.  Python compares functions by identity
    ([comparators[a] != comparators[b]]); [fid] names the function object. *)
Record comparator : Type := {
  fid : string;
  call : value -> value -> M value
}.

Definition same_function (f g : comparator) : bool := String.eqb (fid f) (fid g).

(** Keys of a comparator table: a pair of types or a single type. *)
Inductive key : Type :=
| Pair (l r : pytype)
| Single (t : pytype).

Definition key_eqb (a b : key) : bool :=
  match a, b with
  | Pair l r, Pair l' r' => pytype_eqb l l' && pytype_eqb r r'
  | Single t, Single t' => pytype_eqb t t'
  | _, _ => false
  end.

Definition table : Type := list (key * comparator).

Fixpoint lookup (tbl : table) (k : key) : option comparator :=
  match tbl with
  | [] => None
  | (k', f) :: tbl' => if key_eqb k' k then Some f else lookup tbl' k
  end.

Fixpoint table_set (tbl : table) (k : key) (f : comparator) : table :=
  match tbl with
  | [] => [(k, f)]
  | (k', f') :: tbl' =>
      if key_eqb k' k then (k', f) :: tbl' else (k', f') :: table_set tbl' k f
  end.

Definition table_del (tbl : table) (k : key) : table :=
  filter (fun e => negb (key_eqb (fst e) k)) tbl.

Definition DEFAULT_FLOAT_PRECISION : nat := 2.

Definition as_float_str `{Host} (v : value) (precision : option nat) : M string :=
  match precision with
  | None => lift (format_float v DEFAULT_FLOAT_PRECISION)
  | Some p => lift (format_float v p)
  end.

Definition compare_number_with_precision `{Host}
  (lhs rhs : value) (precision : option nat) : M value :=
  a <- as_float_str lhs precision ;;
  b <- as_float_str rhs precision ;;
  ret (VBool (String.eqb a b)).

(** [with_precision] is cached: one function object per precision. *)
Definition with_precision `{Host} (precision : nat) : comparator :=
  {| fid := "with_precision:" ++ str_of_int (Z.of_nat precision);
     call := fun lhs rhs => compare_number_with_precision lhs rhs (Some precision) |}.

(** The two sets of literals; [1] and [0] are the elements [True] and
    [False] of these sets. *)
Definition TRUE_VALUES : list value :=
  [VBool true; VStr "True"; VStr "Yes"; VStr "Y"; VStr "Positive";
   VStr "TRUE"; VStr "yes"].
Definition FALSE_VALUES : list value :=
  [VBool false; VStr "False"; VStr "No"; VStr "N"; VStr "Negative";
   VStr "FALSE"; VStr "no"].

Definition as_bool (v : value) : M bool :=
  in_true <- lift (set_contains TRUE_VALUES v) ;;
  if in_true then ret true
  else
    in_false <- lift (set_contains FALSE_VALUES v) ;;
    if in_false then ret false
    else raise ValueError.

Definition compare_as_bool_values (lhs rhs : value) : M value :=
  a <- as_bool lhs ;;
  b <- as_bool rhs ;;
  ret (VBool (Bool.eqb a b)).

(** [compare_any_with_none], the default of the single dispatch: [not value]. *)
Definition compare_any_with_none (v : value) : M value :=
  ret (VBool (negb (truthy v))).

Definition compare_number_with_str `{Host} (other str_value : value) : M value :=
  compare_number_with_precision other str_value None.

Definition compare_bool_with_str (other str_value : value) : M value :=
  b <- as_bool str_value ;;
  ret (VBool (py_eq other (VBool b))).

(** [compare_any_with_str]: single dispatch on the type of [other]; bool is
    more specific than int. *)
Definition compare_any_with_str `{Host} (other str_value : value) : M value :=
  match other with
  | VBool _ => compare_bool_with_str other str_value
  | VInt _ => compare_number_with_str other str_value
  | _ => ret (VBool (py_eq (VStr (py_str other)) str_value))
  end.

Definition compare_with_str `{Host} (lhs rhs : value) : M value :=
  if is_str lhs then compare_any_with_str rhs lhs
  else if is_str rhs then compare_any_with_str lhs rhs
  else raise ValueError.

Definition compare_with_none (lhs rhs : value) : M value :=
  if py_eq lhs VNone && py_eq rhs VNone then ret (VBool true)
  else if py_eq lhs VNone then compare_any_with_none rhs
  else if py_eq rhs VNone then compare_any_with_none lhs
  else raise ValueError.

Definition DEFAULT_TYPE_COMPARATOR `{Host} : table :=
  let cnwp := {| fid := "compare_number_with_precision";
                 call := fun l r => compare_number_with_precision l r None |} in
  let cbws := {| fid := "compare_bool_with_str"; call := compare_bool_with_str |} in
  let cws := {| fid := "Comparator.compare_with_str"; call := compare_with_str |} in
  let cwn := {| fid := "Comparator.compare_with_none"; call := compare_with_none |} in
  [ (Pair TInt TFloat, with_precision 0);
    (Pair TInt TDecimal, with_precision 0);
    (Pair TInt TStr, with_precision 0);
    (Pair TDecimal TFloat, cnwp);
    (Pair TDecimal TStr, cnwp);
    (Pair TFloat TStr, cnwp);
    (Pair TBool TStr, cbws);
    (Single TStr, cws);
    (Pair TStr TNoneType, cws);
    (Single TNoneType, cwn) ].

(** [comparators or dict(DEFAULT_TYPE_COMPARATOR)]: [None] and the empty
    dict are both falsy. *)
Definition or_default `{Host} (comparators : option table) : table :=
  match comparators with
  | None | Some [] => DEFAULT_TYPE_COMPARATOR
  | Some tbl => tbl
  end.

Definition is_given (comparators : option table) : bool :=
  match comparators with
  | None | Some [] => false
  | Some _ => true
  end.

(** [are_equal]: the value the selected comparator returns, or
    [NotImplemented]. *)
Definition are_equal `{Host} (lhs rhs : value) (comparators : option table) : M value :=
  let comparators := or_default comparators in
  let l_type := type_of lhs in
  let r_type := type_of rhs in
  match lookup comparators (Pair l_type r_type) with
  | Some f =>
      match lookup comparators (Pair r_type l_type) with
      | Some g =>
          if negb (same_function f g)
          then warn (PairOrderWarning l_type r_type)
          else ret tt
      | None => ret tt
      end ;;;
      call f lhs rhs
  | None =>
  match lookup comparators (Pair r_type l_type) with
  | Some f => call f rhs lhs
  | None =>
  match lookup comparators (Single l_type) with
  | Some f =>
      match lookup comparators (Single r_type) with
      | Some g =>
          if negb (same_function f g)
          then warn (BothSidesWarning l_type r_type)
          else ret tt
      | None => ret tt
      end ;;;
      call f lhs rhs
  | None =>
  match lookup comparators (Single r_type) with
  | Some f => call f rhs lhs
  | None =>
      if negb (pytype_eqb l_type r_type) || is_collection_type l_type
      then ret VNotImplemented
      else ret (VBool (py_eq lhs rhs))
  end end end end.

(** The table [with_comparators] closes over. *)
Definition effective_comparators `{Host}
  (comparators : option table) (none_dif_default : bool) : table :=
  if is_given comparators then or_default comparators
  else
    let comparators := DEFAULT_TYPE_COMPARATOR in
    if none_dif_default then
      table_set (table_del comparators (Single TNoneType)) (Pair TStr TNoneType)
        {| fid := "with_comparators.<lambda>:False";
           call := fun lhs rhs => ret (VBool false) |}
    else
      table_set comparators (Pair TStr TNoneType)
        {| fid := "with_comparators.<lambda>:not lhs and not rhs";
           call := fun lhs rhs =>
                     ret (VBool (negb (truthy lhs) && negb (truthy rhs))) |}.

Definition with_comparators `{Host}
  (comparators : option table) (none_dif_default : bool) : value -> value -> M value :=
  let comparators := effective_comparators comparators none_dif_default in
  fun lhs rhs => are_equal lhs rhs (Some comparators).

End Comparator.

(* ================================================================== *)
(** * core.py *)
(* ================================================================== *)

Module Core.

Import DeltaConfig.

Definition DEFAULT_DELTA_CONFIG : DeltaConfig.t :=
  Z.lor (Z.lor (Z.lor (Z.lor CaseIgnored SpaceTrimmed) IdAsKey) MissingAsNone)
        OutputDefault.

(** Class constants of [DeepDelta]. *)
Definition PATH_SEPARATOR : ascii := ">"%char.
Definition MISSING : string := "MISSING".

(** [f'{path}{DeepDelta.PATH_SEPARATOR}{k}'] *)
Definition join_path `{Host} (path : string) (k : value) : string :=
  path ++ String PATH_SEPARATOR EmptyString ++ py_str k.

(** ** Monadic loops *)

Fixpoint mapM {A B} (f : A -> M B) (xs : list A) : M (list B) :=
  match xs with
  | [] => ret []
  | x :: xs' => y <- f x ;; ys <- mapM f xs' ;; ret (y :: ys)
  end.

(** [[x for x in xs if p(x)]] *)
Fixpoint filterM {A} (p : A -> M bool) (xs : list A) : M (list A) :=
  match xs with
  | [] => ret []
  | x :: xs' =>
      b <- p x ;;
      ys <- filterM p xs' ;;
      ret (if b then x :: ys else ys)
  end.

(** [{x for x in xs if p(x)}], filling the set as the loop goes. *)
Fixpoint set_comp (p : value -> M bool) (acc : list value) (xs : list value)
  : M (list value) :=
  match xs with
  | [] => ret acc
  | x :: xs' =>
      b <- p x ;;
      if b then
        if hashable x then set_comp p (set_add acc x) xs' else raise TypeError
      else set_comp p acc xs'
  end.

(** [{key(x): val(x) for x in xs}], filling the dict as the loop goes. *)
Fixpoint dict_comp (kv : value -> M (value * value)) (acc : entries)
  (xs : list value) : M entries :=
  match xs with
  | [] => ret acc
  | x :: xs' =>
      e <- kv x ;;
      acc' <- lift (dict_store acc (fst e) (snd e)) ;;
      dict_comp kv acc' xs'
  end.

(** ** Normalizing and matching keys *)

Definition normalize_str `{Host} (str_key : string)
  (case_ignored space_trimmed : bool) : string :=
  let cased_key := if case_ignored then casefold str_key else str_key in
  if space_trimmed then strip cased_key else cased_key.

(** [normalize], dispatched on the type of the key: tuples item by item,
    strings directly, anything else through [str(key)]. *)
Fixpoint normalize `{Host} (key : value) (case_ignored space_trimmed : bool)
  {struct key} : value :=
  match key with
  | VTuple tpl =>
      VTuple (map (fun item => normalize item case_ignored space_trimmed) tpl)
  | VStr str_key => VStr (normalize_str str_key case_ignored space_trimmed)
  | _ => VStr (normalize_str (py_str key) case_ignored space_trimmed)
  end.

(** The [str] case of [key_matches].  [key_path] is a value: a path that is
    not a string has no [split], [casefold] or [endswith]. *)
Definition key_matches_str `{Host} (key : string) (key_path : value)
  (case_ignored : bool) : M bool :=
  if negb (contains PATH_SEPARATOR key) then
    match key_path with
    | VStr path =>
        let last_key := last (split PATH_SEPARATOR path) EmptyString in
        ret (if case_ignored
             then String.eqb (casefold key) (casefold last_key)
             else String.eqb key last_key)
    | _ => raise AttributeError
    end
  else
    match key with
    | EmptyString => raise IndexError
    | String c _ =>
        if Ascii.eqb c PATH_SEPARATOR then
          if case_ignored then
            match key_path with
            | VStr path => ret (String.eqb (casefold key) (casefold path))
            | _ => raise AttributeError
            end
          else ret (py_eq (VStr key) key_path)
        else
          match key_path with
          | VStr path =>
              ret (if case_ignored
                   then endswith (casefold path) (casefold key)
                   else endswith path key)
          | _ => raise AttributeError
          end
    end.

Definition key_matches `{Host} (kp key_path : value) (case_ignored : bool) : M bool :=
  match kp with
  | VTuple _ => ret (py_eq (normalize kp case_ignored false) key_path)
  | VPattern src flags =>
      match key_path with
      | VStr path => ret (re_fullmatch src flags path)
      | _ => raise TypeError
      end
  | VStr key => key_matches_str key key_path case_ignored
  | _ => key_matches_str (py_str kp) key_path case_ignored
  end.

Definition matched_keys `{Host} (key_path : value) (all_keys : list value)
  (case_ignored space_trimmed : bool) : M (list value) :=
  let normalized := normalize key_path case_ignored space_trimmed in
  keys <- filterM (fun k => key_matches k normalized case_ignored) all_keys ;;
  (if Nat.ltb 1 (List.length keys)
   then warn (MultipleMatching key_path keys)
   else ret tt) ;;;
  ret keys.

(** A predicate on field names: [(name, case_ignored) -> bool]. *)
Definition key_predicate : Type := value -> bool -> M bool.

Definition key_denoted_by_id `{Host} : key_predicate := fun name case_ignored =>
  match normalize name case_ignored true with
  | VStr name_str => ret (endswith name_str "id" || startswith name_str "id")
  | _ => raise AttributeError
  end.

Definition get_matched_keys `{Host} (candidates : list value)
  (is_key : option key_predicate) (case_ignored : bool) (keys : list value)
  : M value :=
  match keys with
  | _ :: _ =>
      matched <- set_comp
        (fun k => ks <- matched_keys k keys case_ignored true ;;
                  ret (negb (Nat.eqb (List.length ks) 0)))
        [] candidates ;;
      ret (VSet matched)
  | [] =>
      match is_key with
      | Some is_key =>
          matched <- set_comp (fun k => is_key k case_ignored) [] candidates ;;
          ret (VSet matched)
      | None => ret (VSet [])
      end
  end.

(** [item.keys()] of a mapping, [item.__dict__.keys()] of an instance. *)
Definition keys_of (d : value) : res (list value) :=
  match d with
  | VDict kvs => Ok (dict_keys kvs)
  | _ => Raise AttributeError
  end.

Definition vars_keys `{Host} (item : value) : res (list value) :=
  match obj_vars item with
  | Some d => keys_of d
  | None => Raise AttributeError
  end.

Definition key_set (keys : res (list value)) : M (list value) :=
  ks <- lift keys ;; lift (set_fill [] ks).

(** [guess_keys]: a set of field names, or the empty dict the source
    returns for items of mixed types. *)
Definition guess_keys `{Host} (seq : value) (is_key : option key_predicate)
  (case_ignored : bool) (keys : list value) : M value :=
  if negb (truthy seq) then lift (set_of keys)
  else
    items <- lift (iterate seq) ;;
    match items with
    | [] => ret (VDict [])
    | first :: _ =>
        let item_type := type_of first in
        if negb (forallb (fun item => pytype_eqb (type_of item) item_type) items)
        then ret (VDict [])
        else
          shared_keys <-
            (if is_mapping_type item_type then
               key_sets <- mapM (fun item => key_set (keys_of item)) items ;;
               s <- lift (set_inter_all key_sets) ;;
               ret (set_iter s)
             else if has_dict first then
               key_sets <- mapM (fun item => key_set (vars_keys item)) items ;;
               s <- lift (set_inter_all key_sets) ;;
               ret (set_iter s)
             else ret []) ;;
          get_matched_keys shared_keys is_key case_ignored keys
    end.

(** [item.__dict__[k]] and [vars(item)]. *)
Definition attr_item `{Host} (item k : value) : res value :=
  match obj_vars item with
  | Some d => getitem d k
  | None => Raise AttributeError
  end.

Definition vars `{Host} (item : value) : res value :=
  match obj_vars item with
  | Some d => Ok d
  | None => Raise TypeError
  end.

Fixpoint index_pairs (i : nat) (items : list value) : list (value * value) :=
  match items with
  | [] => []
  | item :: items' =>
      (VStr (str_of_int (Z.of_nat i)), item) :: index_pairs (S i) items'
  end.

Definition sequence_to_dict `{Host} (seq : value) (is_key : option key_predicate)
  (case_ignored : bool) (keys : list value) : M value :=
  guessed <- guess_keys seq is_key case_ignored keys ;;
  keys <- lift (iterate guessed) ;;
  items <- lift (iterate seq) ;;
  match items with
  | [] => raise IndexError
  | first :: _ =>
      let item_type := type_of first in
      match keys with
      | [] =>
          d <- lift (dict_fill [] (index_pairs 0 items)) ;;
          ret (VDict d)
      | [key] =>
          d <- (if is_mapping_type item_type then
                  dict_comp (fun item =>
                               k <- lift (getitem item key) ;; ret (k, item))
                            [] items
                else
                  dict_comp (fun item =>
                               k <- lift (attr_item item key) ;;
                               v <- lift (vars item) ;;
                               ret (k, v))
                            [] items) ;;
          ret (VDict d)
      | _ =>
          keys <- lift (py_sort keys) ;;
          d <- (if is_mapping_type item_type then
                  dict_comp (fun item =>
                               ks <- mapM (fun k => lift (getitem item k)) keys ;;
                               ret (VTuple ks, item))
                            [] items
                else
                  dict_comp (fun item =>
                               ks <- mapM (fun k => lift (attr_item item k)) keys ;;
                               v <- lift (vars item) ;;
                               ret (VTuple ks, v))
                            [] items) ;;
          ret (VDict d)
      end
  end.

(** ** The class [DeepDelta] *)

(** A named comparator: [(lhs, rhs, key_path) -> bool or delta]. *)
Definition named_comparator : Type := value -> value -> string -> M value.

Record DeepDelta : Type := {
  _config : DeltaConfig.t;
  output : DeltaOutput.formatter;
  typed_equal : value -> value -> M value;
  named_comparators : list (value * named_comparator);
  keys_excluded : list value
}.

(** [DeepDelta.__init__], reading the registry of output methods [buf].
    [config or DEFAULT_DELTA_CONFIG]: a configuration without any bit is
    falsy. *)
Definition init `{Host} (buf : DeltaOutput.buffer)
  (config : option DeltaConfig.t)
  (type_comparators : option Comparator.table)
  (named_comparators : option (list (value * named_comparator)))
  (excluded_keys : list value) : res DeepDelta :=
  let config :=
    match config with
    | Some c => if Z.eqb c 0 then DEFAULT_DELTA_CONFIG else c
    | None => DEFAULT_DELTA_CONFIG
    end in
  match DeltaOutput.get_output buf config with
  | Raise e => Raise e
  | Ok out =>
      let none_unequal_default := matches config NoneUnequalDefault None in
      Ok {| _config := config;
            output := out;
            typed_equal :=
              Comparator.with_comparators type_comparators none_unequal_default;
            named_comparators :=
              match named_comparators with Some n => n | None => [] end;
            keys_excluded := excluded_keys |}
  end.

Definition as_delta (self : DeepDelta) (as_dif lhs rhs : value) : M value :=
  output self as_dif lhs rhs.

(** The first entry of a dict of comparators whose key matches the path. *)
Fixpoint first_match `{Host} (named : list (value * named_comparator))
  (key_path : string) (case_ignored : bool) : M (option named_comparator) :=
  match named with
  | [] => ret None
  | (k, f) :: named' =>
      b <- key_matches k (VStr key_path) case_ignored ;;
      if b then ret (Some f) else first_match named' key_path case_ignored
  end.

Definition get_named_comparator `{Host} (self : DeepDelta) (key_path : string)
  : M (option named_comparator) :=
  let case_ignored := matches (_config self) KeyCaseIgnored None in
  first_match (named_comparators self) key_path case_ignored.

Fixpoint any_match `{Host} (keys : list value) (key_path : string)
  (case_ignored : bool) : M bool :=
  match keys with
  | [] => ret false
  | k :: keys' =>
      b <- key_matches k (VStr key_path) case_ignored ;;
      if b then ret true else any_match keys' key_path case_ignored
  end.

Definition is_excluded `{Host} (self : DeepDelta) (key_path : string) : M bool :=
  let case_ignored := matches (_config self) KeyCaseIgnored None in
  any_match (keys_excluded self) key_path case_ignored.

(** [delta_to_keep], as the truth value the filter of [compare_dict] takes
    from it. *)
Definition delta_to_keep (self : DeepDelta) (v : value) : M bool :=
  if matches (_config self) OutputKeepAllDetails None then ret true
  else
    match v with
    | VNone => ret false
    | _ =>
        if matches (_config self) OutputWithFlag None && is_tuple v then
          first <- lift (getitem v (VInt 0)) ;;
          ret (truthy first)
        else if is_collection_type (type_of v) then
          ret (truthy v)
        else ret (truthy v)
    end.

(** [or ''] on an optional path. *)
Definition or_empty (path : option string) : string :=
  match path with Some p => p | None => EmptyString end.

(** The value a side contributes for a key: that of the last matched key,
    or [None] / [MISSING] when no key of that side matches. *)
Definition side_value (self : DeepDelta) (side : entries) (ks : list value)
  : M value :=
  match ks with
  | [] =>
      ret (if matches (_config self) MissingAsNone None
           then VNone else VStr MISSING)
  | _ :: _ => lift (getitem (VDict side) (last ks VNone))
  end.

(** One turn of the loop of [compare_dict] for a key that is not excluded:
    the value stored in [delta[key]].  [compare_any] is the recursive
    call. *)
Definition compare_dict_entry `{Host} (compare_any : value -> value -> string -> M value)
  (self : DeepDelta) (lhs rhs : entries) (l_keys r_keys : list value)
  (dict_path : string) (key : value) : M value :=
  let case_ignored := matches (_config self) KeyCaseIgnored None in
  let key_space_trimmed := matches (_config self) KeySpaceTrimmed None in
  let key_path := join_path dict_path key in
  lks <- matched_keys key (set_iter l_keys) case_ignored key_space_trimmed ;;
  rks <- matched_keys key (set_iter r_keys) case_ignored key_space_trimmed ;;
  l_value <- side_value self lhs lks ;;
  r_value <- side_value self rhs rks ;;
  named <- get_named_comparator self key_path ;;
  match named with
  | Some f => f l_value r_value key_path
  | None =>
      if py_eq l_value r_value
      then as_delta self (VBool false) l_value r_value
      else compare_any l_value r_value key_path
  end.

Fixpoint compare_dict_loop `{Host} (compare_any : value -> value -> string -> M value)
  (self : DeepDelta) (lhs rhs : entries) (l_keys r_keys : list value)
  (dict_path : string) (delta : entries) (all_keys : list value) : M entries :=
  match all_keys with
  | [] => ret delta
  | key :: rest =>
      excluded <- is_excluded self (join_path dict_path key) ;;
      if excluded then
        compare_dict_loop compare_any self lhs rhs l_keys r_keys dict_path delta rest
      else
        v <- compare_dict_entry compare_any self lhs rhs l_keys r_keys dict_path key ;;
        delta' <- lift (dict_store delta key v) ;;
        compare_dict_loop compare_any self lhs rhs l_keys r_keys dict_path delta' rest
  end.

Definition not_excluded `{Host} (self : DeepDelta) (dict_path : string)
  (k : value) : M bool :=
  excluded <- is_excluded self (join_path dict_path k) ;;
  ret (negb excluded).

Definition compare_dict_with `{Host} (compare_any : value -> value -> string -> M value)
  (self : DeepDelta) (lhs rhs : value) (dict_path : string) : M value :=
  let case_ignored := matches (_config self) KeyCaseIgnored None in
  l_all <- lift (keys_of lhs) ;;
  l_keys <- set_comp (not_excluded self dict_path) [] l_all ;;
  r_all <- lift (keys_of rhs) ;;
  r_keys <- set_comp (not_excluded self dict_path) [] r_all ;;
  all_keys <- lift (set_fill []
                      (map (fun k => normalize k case_ignored false)
                           (set_iter (set_union l_keys r_keys)))) ;;
  match lhs, rhs with
  | VDict l, VDict r =>
      delta <- compare_dict_loop compare_any self l r l_keys r_keys dict_path
                 [] (set_iter all_keys) ;;
      kept <- filterM (fun kv => delta_to_keep self (snd kv)) delta ;;
      ret (VDict kept)
  | _, _ => raise AttributeError
  end.

Definition compare_sequence_with `{Host}
  (compare_any : value -> value -> string -> M value)
  (self : DeepDelta) (lhs rhs : value) (seq_path : option string)
  (is_key : option key_predicate) (keys : list value) : M value :=
  let seq_path := or_empty seq_path in
  let case_ignored := matches (_config self) KeyCaseIgnored None in
  let is_key :=
    match is_key with
    | Some p => Some p
    | None =>
        if matches (_config self) IdAsKey None
        then Some key_denoted_by_id else None
    end in
  l_keys <- guess_keys lhs is_key case_ignored keys ;;
  r_keys <- guess_keys rhs is_key case_ignored keys ;;
  keys <- match l_keys with
          | VSet ls => rs <- lift (iterate r_keys) ;; ret (set_inter ls rs)
          | _ => raise AttributeError
          end ;;
  l_dict <- sequence_to_dict lhs is_key case_ignored (set_iter keys) ;;
  r_dict <- sequence_to_dict rhs is_key case_ignored (set_iter keys) ;;
  compare_dict_with compare_any self l_dict r_dict seq_path.

(** The body of [compare_any]; [compare_any] inside is the recursive call
    made through [compare_dict]. *)
Definition compare_any_body `{Host}
  (compare_any : value -> value -> string -> M value)
  (self : DeepDelta) (lhs rhs : value) (key_path : option string) : M value :=
  let key_path := or_empty key_path in
  named <- get_named_comparator self key_path ;;
  match named with
  | Some f =>
      is_dif <- f lhs rhs key_path ;;
      as_delta self is_dif lhs rhs
  | None =>
      if py_eq lhs rhs then as_delta self (VBool false) lhs rhs
      else
        let value_space_trimmed := matches (_config self) ValueSpaceTrimmed None in
        if is_str lhs && is_str rhs then
          let l := text lhs in
          let r := text rhs in
          let is_dif :=
            if matches (_config self) ValueCaseIgnored None then
              if value_space_trimmed
              then negb (String.eqb (casefold (strip l)) (casefold (strip r)))
              else negb (String.eqb (casefold l) (casefold r))
            else
              if value_space_trimmed
              then negb (String.eqb (strip l) (strip r))
              else negb (String.eqb l r) in
          as_delta self (VBool is_dif) lhs rhs
        else if is_mapping lhs && is_mapping rhs then
          compare_dict_with compare_any self lhs rhs key_path
        else if is_sequence lhs && is_sequence rhs then
          compare_sequence_with compare_any self lhs rhs (Some key_path) None []
        else
          typed_result <- typed_equal self lhs rhs ;;
          if is_bool typed_result
          then as_delta self (VBool (negb (truthy typed_result))) lhs rhs
          else as_delta self (VBool true) lhs rhs
  end.

(** The methods recurse through one another; [depth] is the number of
    nested calls of [compare_any] the interpreter still allows, and
    exhausting it is Python's [RecursionError]. *)
Fixpoint compare_any `{Host} (depth : nat) (self : DeepDelta)
  (lhs rhs : value) (key_path : option string) : M value :=
  match depth with
  | O => raise RecursionError
  | S depth' =>
      compare_any_body
        (fun l r p => compare_any depth' self l r (Some p))
        self lhs rhs key_path
  end.

Definition compare_dict `{Host} (depth : nat) (self : DeepDelta)
  (lhs rhs : value) (dict_path : string) : M value :=
  compare_dict_with (fun l r p => compare_any depth self l r (Some p))
    self lhs rhs dict_path.

Definition compare_sequence `{Host} (depth : nat) (self : DeepDelta)
  (lhs rhs : value) (seq_path : option string)
  (is_key : option key_predicate) (keys : list value) : M value :=
  compare_sequence_with (fun l r p => compare_any depth self l r (Some p))
    self lhs rhs seq_path is_key keys.

(** [DeepDelta.convert_to_compare] and [DeepDelta.compare], the static
    entry points. *)
Definition convert_to_compare `{Host} (depth : nat) (buf : DeltaOutput.buffer)
  (lhs rhs : value) (comparator : option DeepDelta)
  (is_key : option key_predicate) (keys : list value) : M value :=
  comparator <- match comparator with
                | Some c => ret c
                | None => lift (init buf None None None [])
                end ;;
  compare_sequence depth comparator lhs rhs (Some EmptyString) is_key keys.

Definition compare `{Host} (depth : nat) (buf : DeltaOutput.buffer)
  (lhs rhs : value) (options : option DeltaConfig.t)
  (type_comparators : option Comparator.table)
  (named_comparators : option (list (value * named_comparator)))
  (excluded_keys : list value) : M value :=
  comparator <- lift (init buf options type_comparators named_comparators
                        excluded_keys) ;;
  compare_any depth comparator lhs rhs None.

End Core.

(* ================================================================== *)
(** * A host for running the engine on ASCII text *)
(* ================================================================== *)

Module AsciiHost.

Definition lower (c : ascii) : ascii :=
  let n := nat_of_ascii c in
  if Nat.leb 65 n && Nat.leb n 90 then ascii_of_nat (n + 32) else c.

Fixpoint lower_str (s : string) : string :=
  match s with
  | EmptyString => EmptyString
  | String c s' => String (lower c) (lower_str s')
  end.

Definition is_space (c : ascii) : bool :=
  let n := nat_of_ascii c in
  (Nat.leb 9 n && Nat.leb n 13) || Nat.eqb n 32.

Fixpoint lstrip (s : string) : string :=
  match s with
  | EmptyString => EmptyString
  | String c s' => if is_space c then lstrip s' else s
  end.

Fixpoint rstrip (s : string) : string :=
  match s with
  | EmptyString => EmptyString
  | String c s' =>
      match rstrip s' with
      | EmptyString => if is_space c then EmptyString else String c EmptyString
      | r => String c r
      end
  end.

(** Literal patterns only: a pattern without metacharacters matches the
    string equal to it. *)
Definition literal_fullmatch (src : string) (flags : Z) (s : string) : bool :=
  String.eqb src s.

(** [float(n)] for an int: the nearest binary64 number, ties to even. *)
Definition to_binary64 (a : Z) : Z :=
  if (a <? 2 ^ 53)%Z then a
  else
    let e := (Z.log2 a - 52)%Z in
    let q := Z.shiftr a e in
    let r := (a - Z.shiftl q e)%Z in
    let half := Z.shiftl 1 (e - 1) in
    let q' := if (r <? half)%Z then q
              else if (half <? r)%Z then (q + 1)%Z
              else if Z.even q then q else (q + 1)%Z in
    Z.shiftl q' e.

Fixpoint zeros (n : nat) : string :=
  match n with
  | O => EmptyString
  | S n' => String "0"%char (zeros n')
  end.

(** ["{:.<digits>f}".format(x)] for the float of magnitude [a] and the given
    sign. *)
Definition fixed (negative : bool) (a : Z) (digits : nat) : res string :=
  let m := to_binary64 a in
  if (2 ^ 1024 <=? m)%Z then Raise OverflowError
  else Ok ((if negative then "-" else "")
           ++ str_of_int m
           ++ match digits with O => EmptyString | _ => "." ++ zeros digits end).

(** The numerals [float()] reads here: decimal integers with an optional
    sign, blanks around them ignored. *)
Definition parse_integer (s : string) : option (bool * Z) :=
  match rstrip (lstrip s) with
  | String "+"%char digits =>
      match NilZero.uint_of_string digits with
      | Some d => Some (false, Z.of_uint d)
      | None => None
      end
  | String "-"%char digits =>
      match NilZero.uint_of_string digits with
      | Some d => Some (true, Z.of_uint d)
      | None => None
      end
  | digits =>
      match NilZero.uint_of_string digits with
      | Some d => Some (false, Z.of_uint d)
      | None => None
      end
  end.

(** [float()] followed by the fixed-point format, on ints, bools and
    integer numerals.  Numerals with a fraction or an exponent are beyond
    this host; it reports them as it reports text that is no number. *)
Definition int_fixed (v : value) (digits : nat) : res string :=
  match v with
  | VInt n => fixed (n <? 0)%Z (Z.abs n) digits
  | VBool b => fixed false (bool_int b) digits
  | VStr s =>
      match parse_integer s with
      | Some (negative, a) => fixed negative a digits
      | None => Raise ValueError
      end
  | _ => Raise TypeError
  end.

Definition join (sep : string) (parts : list string) : string :=
  match parts with
  | [] => EmptyString
  | p :: rest => fold_left (fun acc q => acc ++ sep ++ q) rest p
  end.

Definition type_name (t : pytype) : string :=
  match t with
  | TNoneType => "NoneType" | TBool => "bool" | TInt => "int"
  | TFloat => "float" | TDecimal => "decimal.Decimal" | TStr => "str"
  | TList => "list" | TTuple => "tuple" | TSet => "set" | TDict => "dict"
  | TDate => "datetime.date" | TDatetime => "datetime.datetime"
  | TPattern => "re.Pattern" | TType => "type"
  | TNotImplementedType => "NotImplementedType"
  | TClass n => n
  end.

(** [repr(v)].  Text is quoted as Python quotes text free of quotes,
    backslashes and control characters; an instance prints without its
    address. *)
Fixpoint repr_value (v : value) : string :=
  match v with
  | VNone => "None"
  | VBool true => "True"
  | VBool false => "False"
  | VInt n => str_of_int n
  | VStr s => "'" ++ s ++ "'"
  | VList xs => "[" ++ join ", " (map repr_value xs) ++ "]"
  | VTuple xs =>
      match xs with
      | [x] => "(" ++ repr_value x ++ ",)"
      | _ => "(" ++ join ", " (map repr_value xs) ++ ")"
      end
  | VSet xs =>
      match xs with
      | [] => "set()"
      | _ => "{" ++ join ", " (map repr_value xs) ++ "}"
      end
  | VDict kvs =>
      "{" ++ join ", " (map (fun kv => repr_value (fst kv) ++ ": "
                                        ++ repr_value (snd kv)) kvs) ++ "}"
  | VObj _ cls _ => "<" ++ cls ++ " object>"
  | VPattern src _ => "re.compile('" ++ src ++ "')"
  | VType t => "<class '" ++ type_name t ++ "'>"
  | VNotImplemented => "NotImplemented"
  end.

Definition host : Host :=
  {| casefold := lower_str;
     strip := fun s => rstrip (lstrip s);
     re_fullmatch := literal_fullmatch;
     repr := repr_value;
     format_float := int_fixed;
     set_iter := fun xs => xs;
     type_vars := fun _ => VDict [] |}.

End AsciiHost.

(* ================================================================== *)
(** * Vocabulary of the statements *)
(* ================================================================== *)

Import DeltaConfig Comparator Core.

(** [seg] is the last segment of [path]: it holds no separator, and [path]
    is [seg] alone or ends with a separator followed by [seg]. *)
Definition last_segment_of (c : ascii) (path seg : string) : Prop :=
  contains c seg = false
  /\ (path = seg \/ exists pre, path = pre ++ String c seg).

(** The text a comparison is made on: case-folded when case is ignored. *)
Definition folded `{Host} (case_ignored : bool) (s : string) : string :=
  if case_ignored then casefold s else s.

(** The dict obtained by storing the pairs one after the other. *)
Definition dict_of (pairs : list (value * value)) : entries :=
  fold_left (fun d kv => dict_set d (fst kv) (snd kv)) pairs [].

(** What [sequence_to_dict] reads from an item and what it stores for it:
    [item[k]] and the item itself for mappings, [item.__dict__[k]] and
    [vars(item)] otherwise.  The choice follows the type of the first
    item. *)
Definition field `{Host} (first item k : value) : res value :=
  if is_mapping_type (type_of first) then getitem item k else attr_item item k.

Definition stored `{Host} (first item : value) : res value :=
  if is_mapping_type (type_of first) then Ok item else vars item.

(** [idx] is the index of [item] under the identity keys [ks], given in the
    order they are read: the value of the field for one key, the tuple of
    the values of the fields for several. *)
Definition index_of `{Host} (first : value) (ks : list value) (item idx : value) : Prop :=
  match ks with
  | [] => False
  | [k] => field first item k = Ok idx
  | _ => exists vs, Forall2 (fun k v => field first item k = Ok v) ks vs
                    /\ idx = VTuple vs
  end.

(** [d] indexes [items] by [ks]: every item has a hashable index and a
    stored form, and [d] results from storing them in sequence order. *)
Definition indexes `{Host} (first : value) (ks : list value) (items : list value)
  (d : entries) : Prop :=
  exists idxs vals,
    Forall2 (fun item idx => index_of first ks item idx /\ hashable idx = true)
            items idxs
    /\ Forall2 (fun item v => stored first item = Ok v) items vals
    /\ d = dict_of (combine idxs vals).

(** The string form of the positions [0 .. n-1]. *)
Definition positions (n : nat) : list value :=
  map (fun i => VStr (str_of_int (Z.of_nat i))) (seq 0 n).

(** Lexicographic order on field names. *)
Definition lex_le (a b : value) : Prop :=
  exists s t, a = VStr s /\ b = VStr t /\ String.leb s t = true.

(** A host whose sets are iterated element by element, whatever the
    order. *)
Definition iterates_elements (h : Host) : Prop :=
  forall xs, Permutation (set_iter xs) xs.

(** A canonical spelling of dict keys: two hashable values are equal under
    [==] exactly when their canonical spellings coincide. *)
Fixpoint key_norm (v : value) : value :=
  match v with
  | VBool b => VInt (bool_int b)
  | VTuple xs => VTuple (map key_norm xs)
  | VObj oid _ _ => VObj oid EmptyString []
  | _ => v
  end.

(** The keys of a dict are all hashable. *)
Definition hashable_keys (d : entries) : Prop :=
  Forall (fun kv => hashable (fst kv) = true) d.

(** A value as Python builds it: the keys of a dict and the elements of a
    set are hashable and pairwise different. *)
Fixpoint distinct (ks : list value) : bool :=
  match ks with
  | [] => true
  | k :: rest => negb (existsb (fun k' => py_eq k k') rest) && distinct rest
  end.

Fixpoint well_formed (v : value) : bool :=
  match v with
  | VList xs | VTuple xs => forallb well_formed xs
  | VSet xs => forallb hashable xs && distinct xs
  | VDict kvs =>
      forallb (fun kv => hashable (fst kv)) kvs
      && distinct (map fst kvs)
      && forallb (fun kv => well_formed (snd kv)) kvs
  | _ => true
  end.

(** A key that key matching takes as it is spelled: it holds no path
    separator, and folding its case or trimming it changes nothing. *)
Definition plain `{Host} (s : string) : Prop :=
  contains PATH_SEPARATOR s = false /\ casefold s = s /\ strip s = s.

(** A dict from names to ints, and reading it by name. *)
Definition int_entries (kvs : list (string * Z)) : entries :=
  map (fun kv => (VStr (fst kv), VInt (snd kv))) kvs.

Definition int_dict (kvs : list (string * Z)) : value := VDict (int_entries kvs).

Fixpoint int_field (kvs : list (string * Z)) (s : string) : option Z :=
  match kvs with
  | [] => None
  | (k, n) :: kvs' => if String.eqb k s then Some n else int_field kvs' s
  end.

(** A list of ints as the dict [sequence_to_dict] makes of it without keys:
    each int under the string form of its position. *)
Fixpoint numbered (i : nat) (xs : list Z) : list (string * Z) :=
  match xs with
  | [] => []
  | x :: xs' => (str_of_int (Z.of_nat i), x) :: numbered (S i) xs'
  end.

(** What the default comparison reports for an int, or nothing, on each
    side: the pair when two ints differ; an int against nothing counts as
    different when [NoneUnequalDefault] is set or the int is not [0]. *)
Definition int_delta (none_unequal_default : bool) (a b : option Z) : option value :=
  match a, b with
  | Some x, Some y =>
      if Z.eqb x y then None else Some (VTuple [VInt x; VInt y])
  | Some x, None =>
      if none_unequal_default || negb (Z.eqb x 0)
      then Some (VTuple [VInt x; VNone]) else None
  | None, Some y =>
      if none_unequal_default || negb (Z.eqb y 0)
      then Some (VTuple [VNone; VInt y]) else None
  | None, None => None
  end.

(** Adding a name to a list of names that are pairwise different. *)
Definition add_name (acc : list string) (s : string) : list string :=
  if existsb (fun k => String.eqb k s) acc then acc else (acc ++ [s])%list.

(** The value a side of [compare_dict] contributes for a name: the value
    stored under it, or what stands for a missing key. *)
Definition side_of (self : DeepDelta) (side : entries) (s : string) : value :=
  match dict_get side (VStr s) with
  | Some v => v
  | None => if matches (_config self) MissingAsNone None
            then VNone else VStr MISSING
  end.

(** What [compare_dict] stores for a name when no named comparator matches,
    given the recursive call. *)
Definition entry_of `{Host} (cmp : value -> value -> string -> M value)
  (self : DeepDelta) (lhs rhs : entries) (dict_path s : string) : M value :=
  let l_value := side_of self lhs s in
  let r_value := side_of self rhs s in
  if py_eq l_value r_value
  then as_delta self (VBool false) l_value r_value
  else cmp l_value r_value (join_path dict_path (VStr s)).

Module Samples.

(** Comparators and tables for running [are_equal] by hand. *)
Definition by_equality : comparator :=
  {| fid := "by_equality"; call := fun l r => ret (VBool (py_eq l r)) |}.

Definition never_equal : comparator :=
  {| fid := "never_equal"; call := fun l r => ret (VBool false) |}.

Definition small_table : table :=
  [ (Pair TBool TStr,
     {| fid := "compare_bool_with_str"; call := compare_bool_with_str |});
    (Single TInt, by_equality);
    (Single TNoneType, never_equal) ].

(** [DeepDelta()] on the ASCII host: what [__init__] builds from the default
    arguments and the registry as shipped. *)
Definition default_engine : DeepDelta :=
  {| _config := DEFAULT_DELTA_CONFIG;
     output := fun is_dif left right =>
                 DeltaOutput.no_flag_tuple_abbrev is_dif
                   (DeltaOutput.get_value_abbrev left)
                   (DeltaOutput.get_value_abbrev right);
     typed_equal := with_comparators (H := AsciiHost.host) None false;
     named_comparators := [];
     keys_excluded := [] |}.



(** [DeepDelta(DEFAULT_DELTA_CONFIG ^ DeltaConfig.MissingAsNone)]. *)
Definition strict_engine : DeepDelta :=
  {| _config := Z.lxor DEFAULT_DELTA_CONFIG MissingAsNone;
     output := output default_engine;
     typed_equal := typed_equal default_engine;
     named_comparators := [];
     keys_excluded := [] |}.

(** Two records sharing the value of their only identity field. *)
Definition twin_a : value :=
  VDict [(VStr "id", VInt 1); (VStr "name", VStr "a")].
Definition twin_b : value :=
  VDict [(VStr "id", VInt 1); (VStr "name", VStr "b")].

(** Two rows of [dict_list] in [test_sequence_to_dict.py]. *)
Definition ali : value :=
  VDict [(VStr "departmentId", VInt 1); (VStr "employeeId", VInt 123);
         (VStr "name", VStr "Ali")].
Definition tom : value :=
  VDict [(VStr "departmentId", VInt 2); (VStr "employeeId", VInt 235);
         (VStr "name", VStr "Tom")].

(** The data of [test_deep_delta.py] and [test_sequence_to_dict.py]. *)
Definition row (d : Z) (dep : string) (e : Z) (name gender : string) : value :=
  VDict [(VStr "departmentId", VInt d); (VStr "department", VStr dep);
         (VStr "employeeId", VInt e); (VStr "name", VStr name);
         (VStr "gender", VStr gender)].

Definition employee (oid : nat) (d : Z) (dep : string) (e : Z)
  (name gender : string) : value :=
  VObj oid "Employee"
    [("departmentId", VInt d); ("department", VStr dep);
     ("employeeId", VInt e); ("name", VStr name); ("gender", VStr gender)].

Definition employees : value :=
  VList [employee 1 1 "Sales" 123 "Ali" "male";
         employee 2 2 "IT" 235 "Tom" "male";
         employee 3 1 "Sales" 135 "Linda" "female";
         employee 4 1 "Sales" 178 "Clair" "female";
         employee 5 3 "Support" 326 "Bruce" "male";
         employee 6 3 "Support" 377 "Ben" "male";
         employee 7 1 "Sales" 138 "Frank" "male"].

Definition dict_list : value :=
  VList [row 1 "Sales" 123 "Ali" "male";
         row 2 "IT" 235 "Tom" "male";
         row 1 "Sales" 135 "Blinder" "female";
         row 1 "Sales" 178 "Clair" "female";
         row 3 "Unknown" 326 "Bruce" "male";
         row 3 "Support" 377 "Ben" "male";
         row 1 "Sales" 138 "Frank" "male"].

Definition dict_list2 : value :=
  VList [row 1 "Sales" 178 "Clair" "female";
         row 3 "support" 377 "Ben" "male";
         row 2 "IT" 235 "Tommy" "male";
         row 1 "Sales" 123 "Ali" "male";
         row 1 "Sales" 135 "Blinder" "female";
         row 1 "sales" 138 "Frank" "male";
         row 3 "Manage" 327 "Harry" "male"].

Definition id_candidates : list value :=
  [VStr " id "; VStr "kid"; VStr "id_account "; VStr "accountId ";
   VStr "name"; VStr "address"; VStr " _ID"; VStr " _id_ "].

Definition default_dict : value :=
  VDict [(VStr "int", VInt 0); (VStr "str", VStr ""); (VStr "bool", VBool false);
         (VStr "list", VList []); (VStr "set", VSet []); (VStr "dict", VDict [])].

Definition none_dict : value :=
  VDict [(VStr "int", VNone); (VStr "str", VNone); (VStr "bool", VNone);
         (VStr "list", VNone); (VStr "set", VNone); (VStr "dict", VNone)].

(** [DeepDelta.compare] on the ASCII host with the registry as shipped, and
    the number of entries of the delta it returns. *)
Definition run (lhs rhs : value) (options : option Z) : M value :=
  compare (H := AsciiHost.host) 8
    (DeltaOutput.Output_Buffer (H := AsciiHost.host)) lhs rhs options
    None None [].

Definition size (m : M value) : option nat :=
  match result m with
  | Ok (VDict d) => Some (List.length d)
  | Ok (VSet xs) => Some (List.length xs)
  | _ => None
  end.

(** [key_matches] on two strings, and membership of a key in a returned
    dict. *)
Definition km (k p : string) (ci : bool) : res bool :=
  result (key_matches (H := AsciiHost.host) (VStr k) (VStr p) ci).

Definition has_key (m : M value) (k : value) : bool :=
  match result m with
  | Ok (VDict d) => match dict_get d k with Some _ => true | None => false end
  | _ => false
  end.

End Samples.

(* ================================================================== *)
(** * Properties *)
(* ================================================================== *)

(** ** Configuration flags *)

Lemma mask_or_none (flags : Z) : mask_or None flags = flags.
Proof. reflexivity. Qed.

Lemma mask_or_some (m flags : Z) : m <> 0%Z -> mask_or (Some m) flags = m.
Proof.
  intros Hm. unfold mask_or.
  destruct (Z.eqb_spec m 0); [contradiction | reflexivity].
Qed.

(** When the flag lies within the mask, the mask alone and the union of mask
    and flag select the same bits. *)
Lemma matches_within_mask (self flag m : Z) :
  m <> 0%Z -> Z.lor m flag = m ->
  (matches self flag (Some m) = true <-> Z.land self (Z.lor m flag) = flag).
Proof.
  intros Hm Hsub. unfold matches.
  rewrite (mask_or_some _ _ Hm), Hsub. apply Z.eqb_eq.
Qed.

(** C2, as the source has it: [matches] tests [self & m == flags], where [m]
    is the mask when a mask with at least one bit is given and the flag
    itself otherwise; the mask is never united with the flag. *)
Theorem matches_spec (self flag : Z) (mask : option Z) :
  matches self flag mask = true <->
  Z.land self
    (match mask with
     | Some m => if Z.eqb m 0 then flag else m
     | None => flag
     end) = flag.
Proof.
  unfold matches, mask_or. apply Z.eqb_eq.
Qed.

(** C2 fails as stated: with [self = flag = KeyCaseIgnored | KeySpaceTrimmed]
    and [mask = SpaceTrimmed] the union formula holds and [matches] answers
    [False]. *)
Lemma matches_not_union :
  Z.land (Z.lor KeyCaseIgnored KeySpaceTrimmed)
         (Z.lor SpaceTrimmed (Z.lor KeyCaseIgnored KeySpaceTrimmed))
    = Z.lor KeyCaseIgnored KeySpaceTrimmed
  /\ matches (Z.lor KeyCaseIgnored KeySpaceTrimmed)
             (Z.lor KeyCaseIgnored KeySpaceTrimmed)
             (Some SpaceTrimmed) = false.
Proof. split; reflexivity. Qed.

(** ** Strings *)

Lemma endswith_spec (s suffix : string) :
  endswith s suffix = true <-> exists pre, s = pre ++ suffix.
Proof.
  induction s as [|a s IH]; cbn [endswith].
  - rewrite orb_false_r, String.eqb_eq. split.
    + intros <-. now exists EmptyString.
    + intros [pre Hpre]. destruct pre; simpl in Hpre; [easy | discriminate].
  - rewrite orb_true_iff, String.eqb_eq, IH. split.
    + intros [<- | [pre ->]].
      * now exists EmptyString.
      * now exists (String a pre).
    + intros [pre Hpre]. destruct pre as [|b pre]; simpl in Hpre.
      * now left.
      * right. injection Hpre as _ ->. now exists pre.
Qed.

Lemma contains_append (c : ascii) (s t : string) :
  contains c (s ++ t) = contains c s || contains c t.
Proof.
  induction s as [|a s IH]; simpl; [reflexivity|].
  now rewrite IH, orb_assoc.
Qed.

Lemma split_without (c : ascii) (s : string) :
  contains c s = false -> split c s = [s].
Proof.
  induction s as [|a s IH]; simpl; [reflexivity|].
  intros H. apply orb_false_iff in H as [Ha Hs].
  now rewrite Ha, (IH Hs).
Qed.

Lemma split_with (c : ascii) (s : string) :
  contains c s = true -> exists x y rest, split c s = x :: y :: rest.
Proof.
  induction s as [|a s IH]; simpl; [discriminate|].
  intros H. destruct (Ascii.eqb a c) eqn:Ha.
  - destruct (contains c s) eqn:Hs.
    + destruct (IH eq_refl) as (x & y & rest & ->). now exists EmptyString, x, (y :: rest).
    + rewrite (split_without _ _ Hs). now exists EmptyString, s, [].
  - simpl in H. destruct (IH H) as (x & y & rest & ->).
    now exists (String a x), y, rest.
Qed.

Lemma last_split_step (c a : ascii) (s : string) :
  last (split c (String a s)) EmptyString =
  if contains c s || Ascii.eqb a c then last (split c s) EmptyString
  else String a s.
Proof.
  cbn [split]. destruct (contains c s) eqn:Hs.
  - destruct (split_with _ _ Hs) as (x & y & rest & ->).
    destruct (Ascii.eqb a c); reflexivity.
  - rewrite (split_without _ _ Hs). now destruct (Ascii.eqb a c).
Qed.

Lemma last_split_is_last_segment (c : ascii) (path : string) :
  last_segment_of c path (last (split c path) EmptyString).
Proof.
  unfold last_segment_of.
  induction path as [|a s IH].
  - simpl. auto.
  - rewrite last_split_step.
    destruct (contains c s) eqn:Hs; simpl orb.
    + destruct IH as [Hseg [Heq | [pre Hpre]]].
      * rewrite <- Heq in Hseg. congruence.
      * split; [exact Hseg|]. right. exists (String a pre). simpl. now f_equal.
    + destruct (Ascii.eqb_spec a c) as [->|Hne].
      * destruct IH as [Hseg _]. split; [exact Hseg|]. right.
        exists EmptyString. simpl. f_equal.
        now rewrite (split_without _ _ Hs).
      * split; [|now left]. simpl.
        rewrite Hs. now destruct (Ascii.eqb_spec a c).
Qed.

Lemma last_segment_unique (c : ascii) (path seg : string) :
  last_segment_of c path seg -> last (split c path) EmptyString = seg.
Proof.
  intros [Hseg [-> | [pre ->]]].
  - now rewrite (split_without _ _ Hseg).
  - induction pre as [|a pre IH].
    + simpl append. rewrite last_split_step, Ascii.eqb_refl, orb_true_r.
      now rewrite (split_without _ _ Hseg).
    + simpl append. rewrite last_split_step, contains_append. simpl contains.
      rewrite Ascii.eqb_refl. simpl. rewrite orb_true_r. exact IH.
Qed.

(** ** Key specifiers (C7) *)

(** C7.  A string specifier against a path: without a separator it matches
    exactly when it equals the last segment of the path; with a leading
    separator exactly when it equals the whole path; with a separator that
    is not leading exactly when the path ends with it.  Each comparison is
    made on case-folded text when case is ignored; nothing is logged and
    nothing is raised. *)
Theorem key_matches_str_shapes (h : Host) (key path : string) (case_ignored : bool) :
  exists b : bool,
    key_matches (VStr key) (VStr path) case_ignored = ([], Ok b)
    /\ (contains PATH_SEPARATOR key = false ->
        (b = true <->
         exists seg, last_segment_of PATH_SEPARATOR path seg
                     /\ folded case_ignored key = folded case_ignored seg))
    /\ (forall rest, key = String PATH_SEPARATOR rest ->
        (b = true <-> folded case_ignored key = folded case_ignored path))
    /\ (contains PATH_SEPARATOR key = true ->
        (forall rest, key <> String PATH_SEPARATOR rest) ->
        (b = true <->
         exists pre, folded case_ignored path = pre ++ folded case_ignored key)).
Proof.
  unfold key_matches, key_matches_str, folded.
  destruct (contains PATH_SEPARATOR key) eqn:Hsep; simpl negb; cbv iota.
  - destruct key as [|c rest]; [discriminate|].
    destruct (Ascii.eqb_spec c PATH_SEPARATOR) as [->|Hc].
    + destruct case_ignored.
      * eexists. split; [reflexivity|]. split; [discriminate|]. split.
        -- intros _ _. apply String.eqb_eq.
        -- intros _ Hno. now destruct (Hno rest).
      * eexists. split; [reflexivity|]. split; [discriminate|]. split.
        -- intros _ _. cbn [py_eq]. apply String.eqb_eq.
        -- intros _ Hno. now destruct (Hno rest).
    + eexists. split; [reflexivity|]. split; [discriminate|]. split.
      * intros rest' Heq. injection Heq as -> _. contradiction.
      * intros _ _. destruct case_ignored; apply endswith_spec.
  - eexists. split; [reflexivity|]. split; [|split].
    + intros _. destruct case_ignored; rewrite String.eqb_eq; split.
      * intros Heq. eexists. split; [apply last_split_is_last_segment | exact Heq].
      * intros [seg [Hseg Heq]]. now rewrite (last_segment_unique _ _ _ Hseg).
      * intros Heq. eexists. split; [apply last_split_is_last_segment | exact Heq].
      * intros [seg [Hseg Heq]]. now rewrite (last_segment_unique _ _ _ Hseg).
    + intros rest ->. cbn [contains] in Hsep.
      rewrite Ascii.eqb_refl in Hsep. discriminate.
    + discriminate.
Qed.

(** The three shapes of C7 on the paths of [test_key_matches.py]. *)
Lemma key_matches_str_shapes_witness :
  key_matches (H := AsciiHost.host) (VStr "key1") (VStr ">abc>>Key1") true = ([], Ok true)
  /\ key_matches (H := AsciiHost.host) (VStr ">key1") (VStr ">root>key1") true = ([], Ok false)
  /\ key_matches (H := AsciiHost.host) (VStr "F>more") (VStr ">f>Leaf>more") true = ([], Ok true).
Proof.
  split; [|split].
  - destruct (key_matches_str_shapes AsciiHost.host "key1" ">abc>>Key1" true)
      as (b & -> & Hbare & _ & _).
    do 2 f_equal. apply (Hbare eq_refl).
    exists "Key1". split; [|reflexivity].
    split; [reflexivity|]. right. now exists ">abc>".
  - destruct (key_matches_str_shapes AsciiHost.host ">key1" ">root>key1" true)
      as (b & -> & _ & Hfull & _).
    do 2 f_equal. destruct b; [|reflexivity].
    exfalso. pose proof (proj1 (Hfull "key1" eq_refl) eq_refl) as Habs.
    vm_compute in Habs. discriminate.
  - destruct (key_matches_str_shapes AsciiHost.host "F>more" ">f>Leaf>more" true)
      as (b & -> & _ & _ & Hsuffix).
    do 2 f_equal. apply (Hsuffix eq_refl).
    + intros rest Heq. discriminate.
    + now exists ">f>lea".
Defined.

(** ** Computations *)

Lemma bind_ret {A B} (a : A) (k : A -> M B) : bind (ret a) k = k a.
Proof. unfold bind, ret. now destruct (k a). Qed.

Lemma bind_raise {A B} (e : exn) (k : A -> M B) : bind (raise e) k = raise e.
Proof. reflexivity. Qed.

Lemma bind_lift_ok {A B} (a : A) (k : A -> M B) : bind (lift (Ok a)) k = k a.
Proof. apply bind_ret. Qed.

Lemma bind_lift_raise {A B} (e : exn) (k : A -> M B) :
  bind (lift (Raise e)) k = raise e.
Proof. reflexivity. Qed.

Lemma bind_warn {B} (w : warning) (m : M B) :
  (warn w ;;; m) = (w :: logged m, result m).
Proof. unfold bind, warn, logged, result. now destruct m. Qed.

Lemma bind_value {A B} (l : list warning) (a : A) (k : A -> M B) :
  bind (l, Ok a) k = ((l ++ logged (k a))%list, result (k a)).
Proof. unfold bind, logged, result. now destruct (k a). Qed.

Lemma result_bind {A B} (m : M A) (k : A -> M B) :
  result (bind m k) =
  match result m with
  | Ok a => result (k a)
  | Raise e => Raise e
  end.
Proof.
  destruct m as [l [a|e]]; simpl; [|reflexivity].
  now destruct (k a).
Qed.

Lemma M_eta {A} (m : M A) : m = (logged m, result m).
Proof. now destruct m. Qed.

(** ** Resolution of type comparators (C4, C5) *)

Lemma or_default_given `{Host} (tbl : table) :
  tbl <> [] -> or_default (Some tbl) = tbl.
Proof. destruct tbl; [contradiction | reflexivity]. Qed.

(** C4.  [are_equal] resolves in this order: the entry of the ordered pair
    (left type, right type); else the entry of the reversed pair, called with
    the arguments swapped; else the entry of the left type alone, with a
    warning first when the right type has an entry of its own holding another
    function; else the entry of the right type alone, called with the
    arguments swapped. *)
Theorem are_equal_resolution_order (h : Host) (lhs rhs : value)
  (comparators : option table) :
  let tbl := or_default comparators in
  let l_type := type_of lhs in
  let r_type := type_of rhs in
  (forall f, lookup tbl (Pair l_type r_type) = Some f ->
     result (are_equal lhs rhs comparators) = result (call f lhs rhs))
  /\ (forall f, lookup tbl (Pair l_type r_type) = None ->
        lookup tbl (Pair r_type l_type) = Some f ->
        are_equal lhs rhs comparators = call f rhs lhs)
  /\ (forall f, lookup tbl (Pair l_type r_type) = None ->
        lookup tbl (Pair r_type l_type) = None ->
        lookup tbl (Single l_type) = Some f ->
        result (are_equal lhs rhs comparators) = result (call f lhs rhs)
        /\ (forall g, lookup tbl (Single r_type) = Some g ->
              same_function f g = false ->
              logged (are_equal lhs rhs comparators) =
              BothSidesWarning l_type r_type :: logged (call f lhs rhs)))
  /\ (forall f, lookup tbl (Pair l_type r_type) = None ->
        lookup tbl (Pair r_type l_type) = None ->
        lookup tbl (Single l_type) = None ->
        lookup tbl (Single r_type) = Some f ->
        are_equal lhs rhs comparators = call f rhs lhs).
Proof.
  intros tbl l_type r_type. unfold are_equal.
  fold tbl l_type r_type.
  split; [|split; [|split]].
  - intros f ->. rewrite result_bind.
    destruct (lookup tbl (Pair r_type l_type)) as [g|]; [|reflexivity].
    now destruct (negb (same_function f g)).
  - intros f -> ->. reflexivity.
  - intros f -> -> ->. split.
    + rewrite result_bind.
      destruct (lookup tbl (Single r_type)) as [g|]; [|reflexivity].
      now destruct (negb (same_function f g)).
    + intros g -> ->. simpl negb. cbv iota. now rewrite bind_warn.
  - intros f -> -> -> ->. reflexivity.
Qed.

(** The last step of the resolver.  With no entry for either pair or either
    type, types that differ or a left type that is a collection give
    [NotImplemented]: a value that is not a bool, returned without raising
    or logging. *)
Lemma are_equal_unresolved `{Host} (lhs rhs : value) (comparators : option table) :
  let tbl := or_default comparators in
  let l_type := type_of lhs in
  let r_type := type_of rhs in
  lookup tbl (Pair l_type r_type) = None ->
  lookup tbl (Pair r_type l_type) = None ->
  lookup tbl (Single l_type) = None ->
  lookup tbl (Single r_type) = None ->
  pytype_eqb l_type r_type = false \/ is_collection_type l_type = true ->
  are_equal lhs rhs comparators = ret VNotImplemented.
Proof.
  intros tbl l_type r_type H1 H2 H3 H4 Hshape. unfold are_equal.
  fold tbl l_type r_type. rewrite H1, H2, H3, H4.
  destruct Hshape as [-> | ->]; [reflexivity | now rewrite orb_true_r].
Qed.

(** The four steps of C4 on a table with one pair entry and two single-type
    entries: bool against str, str against bool (swapped), int against None
    (left entry, with the warning), list against None (right entry,
    swapped). *)
Lemma are_equal_resolution_order_witness :
  result (are_equal (H := AsciiHost.host) (VBool true) (VStr "Yes")
            (Some Samples.small_table)) = Ok (VBool true)
  /\ are_equal (H := AsciiHost.host) (VStr "Yes") (VBool true)
       (Some Samples.small_table) = ([], Ok (VBool true))
  /\ are_equal (H := AsciiHost.host) (VInt 1) VNone (Some Samples.small_table)
     = ([BothSidesWarning TInt TNoneType], Ok (VBool false))
  /\ are_equal (H := AsciiHost.host) (VList []) VNone (Some Samples.small_table)
     = ([], Ok (VBool false)).
Proof.
  split; [|split; [|split]].
  - destruct (are_equal_resolution_order AsciiHost.host (VBool true) (VStr "Yes")
                (Some Samples.small_table)) as (Hpair & _).
    rewrite (Hpair _ eq_refl). reflexivity.
  - destruct (are_equal_resolution_order AsciiHost.host (VStr "Yes") (VBool true)
                (Some Samples.small_table)) as (_ & Hrev & _).
    rewrite (Hrev _ eq_refl eq_refl). reflexivity.
  - destruct (are_equal_resolution_order AsciiHost.host (VInt 1) VNone
                (Some Samples.small_table)) as (_ & _ & Hleft & _).
    destruct (Hleft _ eq_refl eq_refl eq_refl) as [Hres Hlog].
    rewrite (M_eta (are_equal _ _ _)), Hres, (Hlog _ eq_refl eq_refl).
    reflexivity.
  - destruct (are_equal_resolution_order AsciiHost.host (VList []) VNone
                (Some Samples.small_table)) as (_ & _ & _ & Hright).
    rewrite (Hright _ eq_refl eq_refl eq_refl eq_refl). reflexivity.
Defined.

(** ** The engine: named comparators never log on their own lookup *)

Lemma logged_bind {A B} (m : M A) (k : A -> M B) :
  logged (bind m k) =
  (logged m ++ match result m with
               | Ok a => logged (k a)
               | Raise _ => []
               end)%list.
Proof.
  destruct m as [l [a|e]]; simpl.
  - now destruct (k a).
  - now rewrite app_nil_r.
Qed.

Lemma key_matches_str_silent `{Host} (key : string) (key_path : value) (ci : bool) :
  logged (key_matches_str key key_path ci) = [].
Proof.
  unfold key_matches_str.
  destruct (negb (contains PATH_SEPARATOR key)).
  - now destruct key_path.
  - destruct key as [|c rest]; [reflexivity|].
    destruct (Ascii.eqb c PATH_SEPARATOR).
    + destruct ci; [now destruct key_path | reflexivity].
    + now destruct key_path.
Qed.

Lemma key_matches_silent `{Host} (kp key_path : value) (ci : bool) :
  logged (key_matches kp key_path ci) = [].
Proof.
  destruct kp; simpl; try apply key_matches_str_silent; try reflexivity.
  now destruct key_path.
Qed.

Lemma first_match_silent `{Host} (named : list (value * named_comparator))
  (key_path : string) (ci : bool) :
  logged (first_match named key_path ci) = [].
Proof.
  induction named as [|[k f] named IH]; [reflexivity|].
  cbn [first_match]. rewrite logged_bind, key_matches_silent.
  destruct (result (key_matches k (VStr key_path) ci)) as [[|]|]; simpl; auto.
Qed.

Lemma get_named_comparator_silent `{Host} (self : DeepDelta) (key_path : string)
  (r : option named_comparator) :
  result (get_named_comparator self key_path) = Ok r ->
  get_named_comparator self key_path = ([], Ok r).
Proof.
  intros Hr. rewrite (M_eta (get_named_comparator self key_path)), Hr.
  unfold get_named_comparator. now rewrite first_match_silent.
Qed.

Lemma any_match_silent `{Host} (keys : list value) (key_path : string) (ci : bool) :
  logged (any_match keys key_path ci) = [].
Proof.
  induction keys as [|k keys IH]; [reflexivity|].
  cbn [any_match]. rewrite logged_bind, key_matches_silent.
  destruct (result (key_matches k (VStr key_path) ci)) as [[|]|]; simpl; auto.
Qed.

(** What [__init__] stores. *)
Lemma init_ok `{Host} (buf : DeltaOutput.buffer) (options : option Z)
  (tc : option table) (named : option (list (value * named_comparator)))
  (excluded : list value) (self : DeepDelta) :
  init buf options tc named excluded = Ok self ->
  DeltaOutput.get_output buf (_config self) = Ok (output self)
  /\ typed_equal self =
     with_comparators tc (matches (_config self) NoneUnequalDefault None)
  /\ named_comparators self = match named with Some n => n | None => [] end
  /\ keys_excluded self = excluded
  /\ _config self = match options with
                    | Some c => if Z.eqb c 0 then DEFAULT_DELTA_CONFIG else c
                    | None => DEFAULT_DELTA_CONFIG
                    end.
Proof.
  unfold init. intros Hinit.
  destruct (DeltaOutput.get_output buf _) as [out|e] eqn:Hout; [|discriminate].
  injection Hinit as <-. simpl. auto.
Qed.

Lemma effective_comparators_used `{Host} (tc : option table) (nud : bool) :
  or_default (Some (effective_comparators tc nud)) = effective_comparators tc nud.
Proof.
  unfold effective_comparators.
  destruct tc as [[|e tbl]|]; simpl; destruct nud; reflexivity.
Qed.

(** ** The engine: one call of [compare_any] *)

Lemma bind_nil_ok {A B} (a : A) (k : A -> M B) : bind ([], Ok a) k = k a.
Proof. apply bind_ret. Qed.


Lemma compare_any_equal `{Host} (depth : nat) (self : DeepDelta)
  (lhs rhs : value) (key_path : option string) :
  result (get_named_comparator self (or_empty key_path)) = Ok None ->
  py_eq lhs rhs = true ->
  compare_any (S depth) self lhs rhs key_path = as_delta self (VBool false) lhs rhs.
Proof.
  intros Hnamed Heq. cbn [compare_any]. unfold compare_any_body.
  now rewrite (get_named_comparator_silent _ _ _ Hnamed), bind_nil_ok, Heq.
Qed.

Lemma compare_any_typed `{Host} (depth : nat) (self : DeepDelta)
  (lhs rhs : value) (key_path : option string) :
  result (get_named_comparator self (or_empty key_path)) = Ok None ->
  py_eq lhs rhs = false ->
  is_str lhs && is_str rhs = false ->
  is_mapping lhs && is_mapping rhs = false ->
  is_sequence lhs && is_sequence rhs = false ->
  compare_any (S depth) self lhs rhs key_path =
  (typed_result <- typed_equal self lhs rhs ;;
   if is_bool typed_result
   then as_delta self (VBool (negb (truthy typed_result))) lhs rhs
   else as_delta self (VBool true) lhs rhs).
Proof.
  intros Hnamed Heq Hstr Hmap Hseq. cbn [compare_any]. unfold compare_any_body.
  now rewrite (get_named_comparator_silent _ _ _ Hnamed), bind_nil_ok,
    Heq, Hstr, Hmap, Hseq.
Qed.

(** C5.  With no entry for either ordered pair or either single type, and
    types that differ or a left type that is a collection, the resolver
    returns [NotImplemented] (a value that is not a bool; nothing is raised);
    [compare_any], once it reaches the typed comparison, then reports the
    pair through the formatter with the indicator [True]. *)
Theorem unresolved_reported_different (h : Host) (depth : nat)
  (buf : DeltaOutput.buffer) (options : option Z) (tc : option table)
  (named : option (list (value * named_comparator))) (excluded : list value)
  (self : DeepDelta) (lhs rhs : value) (key_path : option string) :
  init buf options tc named excluded = Ok self ->
  let tbl := effective_comparators tc (matches (_config self) NoneUnequalDefault None) in
  lookup tbl (Pair (type_of lhs) (type_of rhs)) = None ->
  lookup tbl (Pair (type_of rhs) (type_of lhs)) = None ->
  lookup tbl (Single (type_of lhs)) = None ->
  lookup tbl (Single (type_of rhs)) = None ->
  pytype_eqb (type_of lhs) (type_of rhs) = false
  \/ is_collection_type (type_of lhs) = true ->
  typed_equal self lhs rhs = ret VNotImplemented
  /\ (result (get_named_comparator self (or_empty key_path)) = Ok None ->
      py_eq lhs rhs = false ->
      is_str lhs && is_str rhs = false ->
      is_mapping lhs && is_mapping rhs = false ->
      is_sequence lhs && is_sequence rhs = false ->
      compare_any (S depth) self lhs rhs key_path
      = as_delta self (VBool true) lhs rhs).
Proof.
  intros Hinit tbl H1 H2 H3 H4 Hshape.
  destruct (init_ok _ _ _ _ _ _ Hinit) as (_ & Htyped & _).
  assert (Hres : typed_equal self lhs rhs = ret VNotImplemented).
  { rewrite Htyped. unfold with_comparators.
    apply are_equal_unresolved; rewrite ?effective_comparators_used; assumption. }
  split; [exact Hres|].
  intros Hnamed Heq Hstr Hmap Hseq.
  rewrite (compare_any_typed _ _ _ _ _ Hnamed Heq Hstr Hmap Hseq), Hres.
  now rewrite bind_ret.
Qed.

(** C5 on [1] against [[1]] with everything left to its default. *)
Lemma unresolved_reported_different_witness :
  typed_equal Samples.default_engine (VInt 1) (VList [VInt 1]) = ret VNotImplemented
  /\ compare_any (H := AsciiHost.host) 1 Samples.default_engine
       (VInt 1) (VList [VInt 1]) None
     = ([], Ok (VTuple [VInt 1; VStr "[...]"])).
Proof.
  assert (Hinit : init (H := AsciiHost.host)
                    (DeltaOutput.Output_Buffer (H := AsciiHost.host))
                    None None None [] = Ok Samples.default_engine)
    by reflexivity.
  destruct (unresolved_reported_different AsciiHost.host 0 _ _ _ _ _ _
              (VInt 1) (VList [VInt 1]) None Hinit
              eq_refl eq_refl eq_refl eq_refl (or_introl eq_refl))
    as [Hres Hcmp].
  split; [exact Hres|].
  rewrite (Hcmp eq_refl eq_refl eq_refl eq_refl eq_refl). reflexivity.
Defined.

(** ** Reflexivity (C1) *)

(** C1, as the source has it.  For a configuration whose output bits have a
    registered method (so that [__init__] succeeds), no named comparator
    matching the root path, and a value equal to itself under [==],
    [compare(x, x)] is the output method applied to the indicator [False];
    with the output bits of [OutputDefault] and the registry as shipped it
    is [None]. *)
Theorem compare_same_value (h : Host) (depth : nat) (buf : DeltaOutput.buffer)
  (x : value) (options : option Z) (tc : option table)
  (named : option (list (value * named_comparator))) (excluded : list value)
  (self : DeepDelta) :
  init buf options tc named excluded = Ok self ->
  result (get_named_comparator self EmptyString) = Ok None ->
  py_eq x x = true ->
  compare (S depth) buf x x options tc named excluded
  = output self (VBool false) x x
  /\ (buf = DeltaOutput.Output_Buffer ->
      Z.land (_config self) OutputFormatMask = 0%Z ->
      compare (S depth) buf x x options tc named excluded = ret VNone).
Proof.
  intros Hinit Hnamed Heq.
  assert (Hcmp : compare (S depth) buf x x options tc named excluded
                 = output self (VBool false) x x).
  { unfold compare. rewrite Hinit, bind_lift_ok.
    now rewrite (compare_any_equal depth self x x None Hnamed Heq). }
  split; [exact Hcmp|].
  intros -> Hbits. rewrite Hcmp.
  destruct (init_ok _ _ _ _ _ _ Hinit) as (Hout & _).
  unfold DeltaOutput.get_output in Hout. rewrite Hbits in Hout.
  cbn [DeltaOutput.buffer_get DeltaOutput.Output_Buffer] in Hout.
  change (Z.eqb OutputDefault 0) with true in Hout. cbv iota in Hout.
  destruct (matches (_config self) OutputKeepAllDetails None);
    injection Hout as <-; reflexivity.
Qed.

(** C1 on a dict, with everything left to its default. *)
Lemma compare_same_value_witness :
  compare (H := AsciiHost.host) 1 (DeltaOutput.Output_Buffer (H := AsciiHost.host))
    (VDict [(VStr "a", VList [VInt 1; VNone])])
    (VDict [(VStr "a", VList [VInt 1; VNone])]) None None None []
  = ret VNone.
Proof.
  assert (Hinit : init (H := AsciiHost.host)
                    (DeltaOutput.Output_Buffer (H := AsciiHost.host))
                    None None None [] = Ok Samples.default_engine)
    by reflexivity.
  exact (proj2 (compare_same_value AsciiHost.host 0 _
                  (VDict [(VStr "a", VList [VInt 1; VNone])]) _ _ _ _ _
                  Hinit eq_refl eq_refl) eq_refl eq_refl).
Defined.

(** C1 fails for "every configuration": [OutputKeepAllDetails] alone has no
    registered output method, and [compare(1, 1, OutputKeepAllDetails)]
    raises [TypeError] while the engine is built. *)
Lemma compare_same_value_unregistered_output :
  result (compare (H := AsciiHost.host) 1
            (DeltaOutput.Output_Buffer (H := AsciiHost.host))
            (VInt 1) (VInt 1) (Some OutputKeepAllDetails) None None [])
  = Raise TypeError.
Proof. reflexivity. Qed.

(** The same holds on every host and at every depth. *)
Lemma compare_unregistered_output_any_host `{Host} (depth : nat) (lhs rhs : value) :
  compare depth DeltaOutput.Output_Buffer lhs rhs (Some OutputKeepAllDetails)
    None None [] = raise TypeError.
Proof. reflexivity. Qed.

(** ** Named comparators (C3) *)




(** ** The value that stands for a missing key *)

Lemma missing_not_none : py_eq (VStr MISSING) VNone = false
                         /\ py_eq VNone (VStr MISSING) = false.
Proof. split; reflexivity. Qed.



(** Scenario E end to end: the whole comparison of [{'k': None}] with [{}]. *)
Example scenario_missing_as_none :
  compare (H := AsciiHost.host) 2 (DeltaOutput.Output_Buffer (H := AsciiHost.host))
    (VDict [(VStr "k", VNone)]) (VDict []) None None None []
  = ([], Ok (VDict [])).
Proof. reflexivity. Qed.

Example scenario_missing_sentinel :
  compare (H := AsciiHost.host) 2 (DeltaOutput.Output_Buffer (H := AsciiHost.host))
    (VDict [(VStr "k", VNone)]) (VDict [])
    (Some (Z.lxor DEFAULT_DELTA_CONFIG MissingAsNone)) None None []
  = ([], Ok (VDict [(VStr "k", VTuple [VNone; VStr "MISSING"])])).
Proof. reflexivity. Qed.

(** Presence is decided by key matching, not by membership.  The loop
    normalizes a key without trimming and looks it up trimmed, and
    [key_matches] compares the keys of the dict as they are spelled: under
    [KeySpaceTrimmed] a key written with blanks around it is resolved on
    neither side, and both sides contribute the same missing value. *)
Example blank_padded_key_is_resolved_nowhere :
  matched_keys (H := AsciiHost.host) (VStr " a ") [VStr " a "] false true
  = ([], Ok [])
  /\ compare (H := AsciiHost.host) 2
       (DeltaOutput.Output_Buffer (H := AsciiHost.host))
       (VDict [(VStr " a ", VInt 1)]) (VDict []) (Some KeySpaceTrimmed)
       None None []
     = ([], Ok (VDict [])).
Proof. split; reflexivity. Qed.

(** ** Dicts and comprehensions *)

Lemma str_of_int_inj (a b : Z) : str_of_int a = str_of_int b -> a = b.
Proof.
  unfold str_of_int. intros Heq.
  assert (Hnil : forall z, Z.to_int z <> Decimal.Pos Decimal.Nil
                           /\ Z.to_int z <> Decimal.Neg Decimal.Nil).
  { intros [|p|p]; simpl; split; try discriminate;
      intros Habs; injection Habs as Habs;
      exact (DecimalPos.Unsigned.to_uint_nonnil _ Habs). }
  apply DecimalZ.to_int_inj.
  assert (Hsome : Some (Z.to_int a) = Some (Z.to_int b)).
  { rewrite <- (NilZero.isi (Z.to_int a)) by apply Hnil.
    rewrite <- (NilZero.isi (Z.to_int b)) by apply Hnil.
    now rewrite Heq. }
  now injection Hsome.
Qed.

Lemma dict_set_absent (d : entries) (k v : value) :
  Forall (fun kv => py_eq (fst kv) k = false) d ->
  dict_set d k v = (d ++ [(k, v)])%list.
Proof.
  induction 1 as [|[k' v'] d Hk _ IH]; [reflexivity|].
  simpl in *. now rewrite Hk, IH.
Qed.

Lemma index_pairs_combine (i : nat) (items : list value) :
  index_pairs i items =
  combine (map (fun j => VStr (str_of_int (Z.of_nat j))) (seq i (List.length items)))
          items.
Proof.
  revert i. induction items as [|x items IH]; intros i; [reflexivity|].
  simpl. now rewrite IH.
Qed.

Lemma dict_fill_index_pairs (d : entries) (i : nat) (items : list value) :
  Forall (fun kv => exists j, (j < i)%nat
                              /\ fst kv = VStr (str_of_int (Z.of_nat j))) d ->
  dict_fill d (index_pairs i items) = Ok (d ++ index_pairs i items)%list.
Proof.
  revert d i. induction items as [|x items IH]; intros d i Hd.
  - simpl. now rewrite app_nil_r.
  - cbn [index_pairs dict_fill]. unfold dict_store. cbn [hashable].
    rewrite dict_set_absent.
    + rewrite IH.
      * now rewrite <- app_assoc.
      * apply Forall_app. split.
        -- eapply Forall_impl; [|exact Hd]. intros kv (j & Hj & Hkv).
           exists j. split; [lia | exact Hkv].
        -- constructor; [|constructor]. exists i. split; [lia | reflexivity].
    + eapply Forall_impl; [|exact Hd]. intros kv (j & Hj & ->).
      cbn [py_eq]. apply String.eqb_neq. intros Heq.
      apply str_of_int_inj in Heq. lia.
Qed.

Lemma mapM_ok {A B} (f : A -> M B) (xs : list A) (ys : list B) :
  Forall2 (fun x y => f x = ret y) xs ys -> mapM f xs = ret ys.
Proof.
  induction 1 as [|x y xs ys Hxy _ IH]; [reflexivity|].
  cbn [mapM]. now rewrite Hxy, bind_ret, IH, bind_ret.
Qed.

Lemma dict_comp_ok (kv : value -> M (value * value)) (acc : entries)
  (items : list value) (pairs : list (value * value)) :
  Forall2 (fun item p => kv item = ret p /\ hashable (fst p) = true) items pairs ->
  dict_comp kv acc items =
  ret (fold_left (fun d p => dict_set d (fst p) (snd p)) pairs acc).
Proof.
  intros Hall. revert acc.
  induction Hall as [|item p items pairs [Hkv Hhash] _ IH]; intros acc;
    [reflexivity|].
  cbn [dict_comp fold_left]. rewrite Hkv, bind_ret.
  unfold dict_store. rewrite Hhash, bind_lift_ok. apply IH.
Qed.

(** ** Sorting field names *)

Lemma ltb_false_leb (s t : string) : String.ltb s t = false -> String.leb t s = true.
Proof.
  unfold String.ltb, String.leb. rewrite (String.compare_antisym s t).
  now destruct (String.compare t s).
Qed.

Lemma ltb_true_leb (s t : string) : String.ltb s t = true -> String.leb s t = true.
Proof.
  unfold String.ltb, String.leb. now destruct (String.compare s t).
Qed.

Lemma sort_insert_strings (s : string) (sorted : list value) :
  Forall (fun k => is_str k = true) sorted ->
  Sorted lex_le sorted ->
  exists r,
    sort_insert (VStr s) sorted = Ok r
    /\ Permutation r (VStr s :: sorted)
    /\ Forall (fun k => is_str k = true) r
    /\ Sorted lex_le r
    /\ (forall a, lex_le a (VStr s) -> HdRel lex_le a sorted -> HdRel lex_le a r).
Proof.
  induction sorted as [|y rest IH]; intros Hstr Hsorted.
  - exists [VStr s]. repeat split; auto.
  - inversion Hstr as [|? ? Hy Hrest]; subst.
    destruct y as [| | |t| | | | | | | |]; try discriminate.
    apply Sorted_inv in Hsorted as [Hsorted Hhd].
    cbn [sort_insert py_lt]. destruct (String.ltb s t) eqn:Hlt.
    + exists (VStr s :: VStr t :: rest). repeat split; auto.
      constructor; [constructor; assumption|].
      constructor. exists s, t. repeat split. now apply ltb_true_leb.
    + destruct (IH Hrest Hsorted) as (r & -> & Hperm & Hr & Hrs & Hkeep).
      exists (VStr t :: r). repeat split.
      * rewrite Hperm. apply perm_swap.
      * now constructor.
      * constructor; [exact Hrs|]. apply Hkeep; [|exact Hhd].
        exists t, s. repeat split. now apply ltb_false_leb.
      * intros a Ha Hhda. constructor. now inversion Hhda.
Qed.

Lemma sort_from_strings (xs sorted : list value) :
  Forall (fun k => is_str k = true) xs ->
  Forall (fun k => is_str k = true) sorted ->
  Sorted lex_le sorted ->
  exists r, sort_from sorted xs = Ok r
            /\ Permutation r (sorted ++ xs)
            /\ Sorted lex_le r.
Proof.
  revert sorted. induction xs as [|x xs IH]; intros sorted Hxs Hstr Hsorted.
  - exists sorted. rewrite app_nil_r. auto.
  - inversion Hxs as [|? ? Hx Hxs']; subst.
    destruct x as [| | |s| | | | | | | |]; try discriminate.
    destruct (sort_insert_strings s sorted Hstr Hsorted)
      as (r & Hins & Hperm & Hr & Hrs & _).
    cbn [sort_from]. rewrite Hins.
    destruct (IH r Hxs' Hr Hrs) as (r' & -> & Hperm' & Hrs').
    exists r'. repeat split; auto.
    rewrite Hperm', Hperm. now rewrite <- Permutation_middle.
Qed.

(** [list.sort()] on field names: the lexicographically ascending
    arrangement of the list. *)
Lemma py_sort_strings (xs : list value) :
  Forall (fun k => is_str k = true) xs ->
  exists r, py_sort xs = Ok r /\ Permutation r xs /\ Sorted lex_le r.
Proof.
  intros Hxs. now apply (sort_from_strings xs []).
Qed.

(** ** The index built by [sequence_to_dict] (C8) *)

Lemma comprehension_pairs `{Host} (first : value) (ks : list value)
  (kv : value -> M (value * value)) (items idxs vals : list value) :
  (forall item idx v,
     index_of first ks item idx -> stored first item = Ok v ->
     kv item = ret (idx, v)) ->
  Forall2 (fun item idx => index_of first ks item idx /\ hashable idx = true)
          items idxs ->
  Forall2 (fun item v => stored first item = Ok v) items vals ->
  Forall2 (fun item p => kv item = ret p /\ hashable (fst p) = true)
          items (combine idxs vals).
Proof.
  intros Hkv Hidx. revert vals.
  induction Hidx as [|item idx items idxs [Hi Hh] _ IH]; intros vals Hvals;
    inversion Hvals; subst; simpl; constructor; auto.
Qed.

Lemma sequence_to_dict_indexes `{Host} (first : value) (ks : list value)
  (kv : value -> M (value * value)) (items : list value) (d : entries) :
  (forall item idx v,
     index_of first ks item idx -> stored first item = Ok v ->
     kv item = ret (idx, v)) ->
  indexes first ks items d ->
  dict_comp kv [] items = ret d.
Proof.
  intros Hkv (idxs & vals & Hidx & Hvals & ->).
  now rewrite (dict_comp_ok kv [] items (combine idxs vals)
                 (comprehension_pairs first ks kv items idxs vals Hkv Hidx Hvals)).
Qed.

Lemma index_single_mapping `{Host} (first k item idx v : value) :
  is_mapping_type (type_of first) = true ->
  index_of first [k] item idx -> stored first item = Ok v ->
  (k' <- lift (getitem item k) ;; ret (k', item)) = ret (idx, v).
Proof.
  unfold index_of, field, stored. intros -> Hidx Hv.
  injection Hv as <-. now rewrite Hidx, bind_lift_ok.
Qed.

Lemma index_single_object `{Host} (first k item idx v : value) :
  is_mapping_type (type_of first) = false ->
  index_of first [k] item idx -> stored first item = Ok v ->
  (k' <- lift (attr_item item k) ;; v' <- lift (vars item) ;; ret (k', v'))
  = ret (idx, v).
Proof.
  unfold index_of, field, stored. intros -> Hidx Hv.
  now rewrite Hidx, bind_lift_ok, Hv, bind_lift_ok.
Qed.

Lemma index_tuple_mapping `{Host} (first k1 k2 : value) (more : list value)
  (item idx v : value) :
  is_mapping_type (type_of first) = true ->
  index_of first (k1 :: k2 :: more) item idx -> stored first item = Ok v ->
  (ks <- mapM (fun k => lift (getitem item k)) (k1 :: k2 :: more) ;;
   ret (VTuple ks, item)) = ret (idx, v).
Proof.
  unfold index_of, field, stored. intros -> (vs & Hvs & ->) Hv.
  injection Hv as <-.
  rewrite (mapM_ok _ _ vs); [now rewrite bind_ret|].
  eapply Forall2_impl; [|exact Hvs]. now intros k v ->.
Qed.

Lemma index_tuple_object `{Host} (first k1 k2 : value) (more : list value)
  (item idx v : value) :
  is_mapping_type (type_of first) = false ->
  index_of first (k1 :: k2 :: more) item idx -> stored first item = Ok v ->
  (ks <- mapM (fun k => lift (attr_item item k)) (k1 :: k2 :: more) ;;
   v' <- lift (vars item) ;;
   ret (VTuple ks, v')) = ret (idx, v).
Proof.
  unfold index_of, field, stored. intros -> (vs & Hvs & ->) Hv.
  rewrite (mapM_ok _ _ vs).
  - now rewrite bind_ret, Hv, bind_lift_ok.
  - eapply Forall2_impl; [|exact Hvs]. now intros k v' ->.
Qed.

(** The two steps shared by every statement about the dict
    [sequence_to_dict] builds: what remains of the function once the keys
    are guessed ... *)
Lemma sequence_to_dict_built `{Host} (seq : value)
  (is_key : option key_predicate) (case_ignored : bool) (keys : list value)
  (guessed : value) (ks : list value) (first : value) (rest : list value) :
  result (guess_keys seq is_key case_ignored keys) = Ok guessed ->
  iterate guessed = Ok ks ->
  iterate seq = Ok (first :: rest) ->
  let items := first :: rest in
  result (sequence_to_dict seq is_key case_ignored keys) =
    result (match ks with
            | [] =>
                d <- lift (dict_fill [] (index_pairs 0 items)) ;;
                ret (VDict d)
            | [key] =>
                d <- (if is_mapping_type (type_of first) then
                        dict_comp (fun item =>
                                     k <- lift (getitem item key) ;; ret (k, item))
                                  [] items
                      else
                        dict_comp (fun item =>
                                     k <- lift (attr_item item key) ;;
                                     v <- lift (vars item) ;;
                                     ret (k, v))
                                  [] items) ;;
                ret (VDict d)
            | _ =>
                keys <- lift (py_sort ks) ;;
                d <- (if is_mapping_type (type_of first) then
                        dict_comp (fun item =>
                                     ks <- mapM (fun k => lift (getitem item k)) keys ;;
                                     ret (VTuple ks, item))
                                  [] items
                      else
                        dict_comp (fun item =>
                                     ks <- mapM (fun k => lift (attr_item item k)) keys ;;
                                     v <- lift (vars item) ;;
                                     ret (VTuple ks, v))
                                  [] items) ;;
                ret (VDict d)
            end).
Proof.
  intros Hguess Hks Hitems items. unfold sequence_to_dict.
  now rewrite result_bind, Hguess, Hks, bind_lift_ok, Hitems, bind_lift_ok.
Qed.

(** ... and, when there are keys, the order [order] in which the fields are
    read: the key itself when there is one, the lexicographically ascending
    arrangement of the names when there are several. *)
Lemma sequence_to_dict_keyed `{Host} (seq : value)
  (is_key : option key_predicate) (case_ignored : bool) (keys : list value)
  (guessed : value) (ks : list value) (first : value) (rest : list value) :
  result (guess_keys seq is_key case_ignored keys) = Ok guessed ->
  iterate guessed = Ok ks ->
  iterate seq = Ok (first :: rest) ->
  ks <> [] ->
  (forall k1 k2 more, ks = k1 :: k2 :: more -> Forall (fun k => is_str k = true) ks) ->
  exists order,
    Permutation order ks
    /\ (forall k, ks = [k] -> order = [k])
    /\ (forall k1 k2 more, ks = k1 :: k2 :: more -> Sorted lex_le order)
    /\ forall d, indexes first order (first :: rest) d ->
                 result (sequence_to_dict seq is_key case_ignored keys)
                 = Ok (VDict d).
Proof.
  intros Hguess Hks Hitems Hsome Hstr.
  rewrite (sequence_to_dict_built _ _ _ _ _ _ _ _ Hguess Hks Hitems).
  destruct ks as [|k1 [|k2 more]]; [contradiction | |].
  - exists [k1]. split; [reflexivity|]. split; [now intros k [= ->]|].
    split; [discriminate|]. intros d Hd.
    destruct (is_mapping_type (type_of first)) eqn:Hmap.
    + rewrite (sequence_to_dict_indexes first [k1] _ (first :: rest) d);
        [now rewrite bind_ret | | exact Hd].
      intros item idx v. now apply index_single_mapping.
    + rewrite (sequence_to_dict_indexes first [k1] _ (first :: rest) d);
        [now rewrite bind_ret | | exact Hd].
      intros item idx v. now apply index_single_object.
  - destruct (py_sort_strings _ (Hstr _ _ _ eq_refl))
      as (sorted & Hsort & Hperm & Hsorted).
    exists sorted. split; [exact Hperm|]. split; [discriminate|].
    split; [intros; exact Hsorted|].
    intros d Hd. rewrite Hsort, bind_lift_ok.
    destruct sorted as [|s1 [|s2 smore]];
      try (apply Permutation_length in Hperm; discriminate).
    destruct (is_mapping_type (type_of first)) eqn:Hmap.
    + rewrite (sequence_to_dict_indexes first (s1 :: s2 :: smore) _ (first :: rest) d);
        [now rewrite bind_ret | | exact Hd].
      intros item idx v. now apply index_tuple_mapping.
    + rewrite (sequence_to_dict_indexes first (s1 :: s2 :: smore) _ (first :: rest) d);
        [now rewrite bind_ret | | exact Hd].
      intros item idx v. now apply index_tuple_object.
Qed.

(** C8.  For a non-empty sequence whose identity keys were guessed as [ks]:
    without keys the dict pairs the string form of each position with the
    element at that position; with one key it indexes the elements by the
    value of that field; with two or more keys (field names being strings)
    it indexes them by the tuple of the values of those fields, read in the
    lexicographically ascending order of the names. *)
Theorem sequence_to_dict_index (h : Host) (seq : value)
  (is_key : option key_predicate) (case_ignored : bool) (keys : list value)
  (guessed : value) (ks : list value) (first : value) (rest : list value) :
  result (guess_keys seq is_key case_ignored keys) = Ok guessed ->
  iterate guessed = Ok ks ->
  iterate seq = Ok (first :: rest) ->
  let items := first :: rest in
  let built := result (sequence_to_dict seq is_key case_ignored keys) in
  (ks = [] ->
   built = Ok (VDict (combine (positions (List.length items)) items)))
  /\ (forall k, ks = [k] ->
      forall d, indexes first [k] items d -> built = Ok (VDict d))
  /\ (forall k1 k2 more, ks = k1 :: k2 :: more ->
      Forall (fun k => is_str k = true) ks ->
      exists sorted,
        Permutation sorted ks /\ Sorted lex_le sorted
        /\ forall d, indexes first sorted items d -> built = Ok (VDict d)).
Proof.
  intros Hguess Hks Hitems items built. subst items built.
  split; [|split].
  - intros ->.
    rewrite (sequence_to_dict_built _ _ _ _ _ _ _ _ Hguess Hks Hitems).
    rewrite (dict_fill_index_pairs [] 0 (first :: rest)) by constructor.
    rewrite bind_lift_ok. cbn [app result ret snd].
    now rewrite index_pairs_combine.
  - intros k -> d Hd.
    destruct (sequence_to_dict_keyed _ _ _ _ _ _ _ _ Hguess Hks Hitems)
      as (order & _ & Hone & _ & Hbuilt); [discriminate | discriminate |].
    rewrite (Hone k eq_refl) in Hbuilt. now apply Hbuilt.
  - intros k1 k2 more -> Hstr.
    destruct (sequence_to_dict_keyed _ _ _ _ _ _ _ _ Hguess Hks Hitems)
      as (order & Hperm & _ & Hsorted & Hbuilt); [discriminate | now intros |].
    exists order. split; [exact Hperm|]. split; [now apply (Hsorted k1 k2 more)|].
    exact Hbuilt.
Qed.

Lemma sorted_pair (a b : string) (sorted : list value) :
  Permutation sorted [VStr a; VStr b] ->
  Sorted lex_le sorted ->
  String.leb b a = false ->
  sorted = [VStr a; VStr b].
Proof.
  intros Hperm Hsorted Hlt.
  apply Permutation_sym, Permutation_length_2_inv in Hperm as [-> | ->];
    [reflexivity|].
  apply Sorted_inv in Hsorted as [_ Hhd]. inversion Hhd as [|? ? Hle]; subst.
  destruct Hle as (s & t & Hs & Ht & Hle).
  injection Hs as <-. injection Ht as <-. congruence.
Qed.

(** C8 on a list of two ints (no key), on two rows indexed by ['name'], and
    on the same rows under the default predicate, which finds
    ['departmentId'] and ['employeeId']. *)
Lemma sequence_to_dict_index_witness :
  result (sequence_to_dict (H := AsciiHost.host) (VList [VInt 7; VInt 8])
            None true [])
  = Ok (VDict [(VStr "0", VInt 7); (VStr "1", VInt 8)])
  /\ result (sequence_to_dict (H := AsciiHost.host)
               (VList [Samples.ali; Samples.tom]) None true [VStr "name"])
     = Ok (VDict [(VStr "Ali", Samples.ali); (VStr "Tom", Samples.tom)])
  /\ result (sequence_to_dict (H := AsciiHost.host)
               (VList [Samples.ali; Samples.tom])
               (Some (key_denoted_by_id (H := AsciiHost.host))) true [])
     = Ok (VDict [(VTuple [VInt 1; VInt 123], Samples.ali);
                  (VTuple [VInt 2; VInt 235], Samples.tom)]).
Proof.
  split; [|split].
  - destruct (sequence_to_dict_index AsciiHost.host (VList [VInt 7; VInt 8])
                None true [] (VSet []) [] (VInt 7) [VInt 8]
                eq_refl eq_refl eq_refl) as (Hnone & _).
    exact (Hnone eq_refl).
  - destruct (sequence_to_dict_index AsciiHost.host
                (VList [Samples.ali; Samples.tom]) None true [VStr "name"]
                (VSet [VStr "name"]) [VStr "name"] Samples.ali [Samples.tom]
                eq_refl eq_refl eq_refl) as (_ & Hone & _).
    apply (Hone (VStr "name") eq_refl).
    exists [VStr "Ali"; VStr "Tom"], [Samples.ali; Samples.tom].
    repeat split; repeat constructor.
  - destruct (sequence_to_dict_index AsciiHost.host
                (VList [Samples.ali; Samples.tom])
                (Some (key_denoted_by_id (H := AsciiHost.host))) true []
                (VSet [VStr "departmentId"; VStr "employeeId"])
                [VStr "departmentId"; VStr "employeeId"]
                Samples.ali [Samples.tom]
                eq_refl eq_refl eq_refl) as (_ & _ & Hmany).
    destruct (Hmany _ _ _ eq_refl) as (sorted & Hperm & Hsorted & Hbuilt).
    { repeat constructor. }
    rewrite (sorted_pair _ _ _ Hperm Hsorted eq_refl) in Hbuilt.
    apply Hbuilt.
    exists [VTuple [VInt 1; VInt 123]; VTuple [VInt 2; VInt 235]],
           [Samples.ali; Samples.tom].
    split; [|split; [repeat constructor | reflexivity]].
    repeat constructor.
    + exists [VInt 1; VInt 123]. split; [repeat constructor | reflexivity].
    + exists [VInt 2; VInt 235]. split; [repeat constructor | reflexivity].
Defined.

(** ** Equality of dict keys *)

Lemma pytype_eqb_eq (s t : pytype) : pytype_eqb s t = true <-> s = t.
Proof.
  unfold pytype_eqb.
  destruct s, t; cbn; try (split; [discriminate | congruence]);
    try (split; reflexivity).
  rewrite String.eqb_eq. split; congruence.
Qed.

Lemma bool_int_inj (x y : bool) : bool_int x = bool_int y -> x = y.
Proof. now destruct x, y. Qed.

Lemma py_eq_key_norm :
  forall a b : value,
    hashable a = true -> hashable b = true ->
    (py_eq a b = true <-> key_norm a = key_norm b).
Proof.
  fix IH 1. intros a b Ha Hb.
  destruct a as [|x|n|s|xs|xs|xs|kvs|i c attrs|src fl|t|];
  destruct b as [|y|m|s'|ys|ys|ys|kws|j c' attrs'|src' fl'|t'|];
    try discriminate Ha; try discriminate Hb;
    cbn [py_eq key_norm];
    try (split; [discriminate | intros Heq; discriminate Heq]);
    try (split; reflexivity).
  - rewrite Bool.eqb_true_iff. split; [now intros -> |].
    intros [= Heq]. now apply bool_int_inj.
  - rewrite Z.eqb_eq. split; congruence.
  - rewrite Z.eqb_eq. split; congruence.
  - rewrite Z.eqb_eq. split; congruence.
  - rewrite String.eqb_eq. split; congruence.
  - cbn [hashable] in Ha, Hb. revert ys Ha Hb.
    induction xs as [|x xs IHxs]; intros [|y ys] Ha Hb; cbn [map all2];
      try (split; [discriminate | intros Heq; discriminate Heq]);
      [split; reflexivity|].
    cbn [forallb] in Ha, Hb.
    apply andb_true_iff in Ha as [Hx Hxs], Hb as [Hy Hys].
    rewrite andb_true_iff, (IH x y Hx Hy), (IHxs ys Hxs Hys).
    split; [intros [-> [= ->]]; reflexivity | intros [= -> ->]; auto].
  - rewrite Nat.eqb_eq. split; congruence.
  - rewrite andb_true_iff, String.eqb_eq, Z.eqb_eq. split; [intros [-> ->] | intros [= -> ->]]; auto.
  - rewrite pytype_eqb_eq. split; congruence.
Qed.

Lemma py_eq_keys_sym (a b : value) :
  hashable a = true -> hashable b = true -> py_eq a b = py_eq b a.
Proof.
  intros Ha Hb. apply Bool.eq_true_iff_eq.
  rewrite (py_eq_key_norm a b Ha Hb), (py_eq_key_norm b a Hb Ha).
  split; congruence.
Qed.

Lemma py_eq_keys_same (a b c : value) :
  hashable a = true -> hashable b = true -> hashable c = true ->
  py_eq a b = true -> py_eq a c = py_eq b c.
Proof.
  intros Ha Hb Hc Hab. apply Bool.eq_true_iff_eq.
  apply (py_eq_key_norm a b Ha Hb) in Hab.
  rewrite (py_eq_key_norm a c Ha Hc), (py_eq_key_norm b c Hb Hc), Hab.
  reflexivity.
Qed.

(** ** Reading a dict after writing it *)

Lemma dict_set_hashable (d : entries) (k v : value) :
  hashable_keys d -> hashable k = true -> hashable_keys (dict_set d k v).
Proof.
  intros Hd Hk. induction Hd as [|[k0 v0] d Hk0 Hd IH]; cbn [dict_set].
  - now constructor.
  - destruct (py_eq k0 k); constructor; auto.
Qed.

Lemma dict_get_set (d : entries) (k v k' : value) :
  hashable_keys d -> hashable k = true -> hashable k' = true ->
  dict_get (dict_set d k v) k' = if py_eq k k' then Some v else dict_get d k'.
Proof.
  intros Hd Hk Hk'. induction Hd as [|[k0 v0] d Hk0 _ IH]; cbn [dict_set dict_get].
  - reflexivity.
  - cbn [fst] in Hk0. destruct (py_eq k0 k) eqn:H0; cbn [dict_get].
    + rewrite (py_eq_keys_same k0 k k' Hk0 Hk Hk' H0).
      now destruct (py_eq k k').
    + rewrite IH. destruct (py_eq k0 k') eqn:H0', (py_eq k k') eqn:H'; try reflexivity.
      assert (Hkk0 : py_eq k k0 = true).
      { rewrite (py_eq_keys_same k k' k0 Hk Hk' Hk0 H').
        now rewrite (py_eq_keys_sym k' k0 Hk' Hk0). }
      rewrite (py_eq_keys_sym k k0 Hk Hk0) in Hkk0. congruence.
Qed.

Lemma find_app {A} (p : A -> bool) (xs ys : list A) :
  find p (xs ++ ys) = match find p xs with Some x => Some x | None => find p ys end.
Proof.
  induction xs as [|x xs IH]; [reflexivity|].
  simpl. now destruct (p x).
Qed.

(** Reading the key [k] in the dict filled from [pairs] gives the value of
    the last pair whose key equals [k]. *)
Lemma dict_get_filled (pairs : list (value * value)) (acc : entries) (k : value) :
  hashable_keys acc -> hashable_keys pairs -> hashable k = true ->
  dict_get (fold_left (fun d kv => dict_set d (fst kv) (snd kv)) pairs acc) k =
  match find (fun kv => py_eq (fst kv) k) (rev pairs) with
  | Some kv => Some (snd kv)
  | None => dict_get acc k
  end.
Proof.
  intros Hacc Hpairs Hk. revert acc Hacc.
  induction Hpairs as [|[k0 v0] pairs Hk0 _ IH]; intros acc Hacc; [reflexivity|].
  cbn [fold_left rev fst snd] in *.
  rewrite (IH (dict_set acc k0 v0) (dict_set_hashable acc k0 v0 Hacc Hk0)).
  rewrite find_app. destruct (find _ (rev pairs)); [reflexivity|].
  cbn [find fst snd]. rewrite (dict_get_set acc k0 v0 k Hacc Hk0 Hk).
  now destruct (py_eq k0 k).
Qed.

(** ** What [sequence_to_dict] logs *)

Lemma lift_silent {A} (r : res A) : logged (lift r) = [].
Proof. reflexivity. Qed.

Lemma bind_silent {A B} (m : M A) (k : A -> M B) :
  logged m = [] -> (forall a, logged (k a) = []) -> logged (bind m k) = [].
Proof.
  intros Hm Hk. rewrite logged_bind, Hm.
  destruct (result m); [apply Hk | reflexivity].
Qed.

Lemma mapM_silent {A B} (f : A -> M B) (xs : list A) :
  (forall x, logged (f x) = []) -> logged (mapM f xs) = [].
Proof.
  intros Hf. induction xs as [|x xs IH]; [reflexivity|].
  cbn [mapM]. apply bind_silent; [apply Hf|].
  intros y. apply bind_silent; [exact IH | reflexivity].
Qed.

Lemma dict_comp_silent (kv : value -> M (value * value)) (acc : entries)
  (xs : list value) :
  (forall x, logged (kv x) = []) -> logged (dict_comp kv acc xs) = [].
Proof.
  intros Hkv. revert acc. induction xs as [|x xs IH]; intros acc; [reflexivity|].
  cbn [dict_comp]. apply bind_silent; [apply Hkv|].
  intros e. apply bind_silent; [apply lift_silent | intros; apply IH].
Qed.

(** The conversion adds nothing to the log of [guess_keys]. *)
Lemma sequence_to_dict_logged `{Host} (seq : value)
  (is_key : option key_predicate) (case_ignored : bool) (keys : list value) :
  logged (sequence_to_dict seq is_key case_ignored keys)
  = logged (guess_keys seq is_key case_ignored keys).
Proof.
  unfold sequence_to_dict. rewrite logged_bind.
  destruct (result (guess_keys seq is_key case_ignored keys)) as [guessed|e];
    [|apply app_nil_r].
  rewrite <- (app_nil_r (logged (guess_keys seq is_key case_ignored keys))) at 2.
  f_equal.
  apply bind_silent; [apply lift_silent|]. intros ks.
  apply bind_silent; [apply lift_silent|]. intros [|first rest]; [reflexivity|].
  destruct ks as [|k1 [|k2 more]].
  - apply bind_silent; [apply lift_silent | reflexivity].
  - apply bind_silent; [|reflexivity].
    destruct (is_mapping_type (type_of first)); apply dict_comp_silent; intros item.
    + apply bind_silent; [apply lift_silent | reflexivity].
    + apply bind_silent; [apply lift_silent|]. intros k.
      apply bind_silent; [apply lift_silent | reflexivity].
  - apply bind_silent; [apply lift_silent|]. intros sorted.
    apply bind_silent; [|reflexivity].
    destruct (is_mapping_type (type_of first)); apply dict_comp_silent; intros item.
    + apply bind_silent; [|reflexivity].
      apply mapM_silent. intros k. apply lift_silent.
    + apply bind_silent; [apply mapM_silent; intros k; apply lift_silent|].
      intros vs. apply bind_silent; [apply lift_silent | reflexivity].
Qed.

(** ** Elements sharing an index (C9) *)

Lemma forall2_functional {A B} (R : A -> B -> Prop) (xs : list A) (ys ys' : list B) :
  (forall x y y', R x y -> R x y' -> y = y') ->
  Forall2 R xs ys -> Forall2 R xs ys' -> ys = ys'.
Proof.
  intros Hfun Hys. revert ys'.
  induction Hys as [|x y xs ys Hxy _ IH]; intros ys' Hys';
    inversion Hys'; subst; [reflexivity|].
  f_equal; [eapply Hfun; eassumption | now apply IH].
Qed.

Lemma index_of_functional `{Host} (first : value) (ks : list value)
  (item idx idx' : value) :
  index_of first ks item idx -> index_of first ks item idx' -> idx = idx'.
Proof.
  unfold index_of. destruct ks as [|k1 [|k2 more]]; [contradiction | congruence |].
  intros (vs & Hvs & ->) (vs' & Hvs' & ->). f_equal.
  eapply forall2_functional; [|exact Hvs | exact Hvs'].
  intros k v v'. congruence.
Qed.

Lemma forall2_in_r {A B} (R : A -> B -> Prop) (xs : list A) (ys : list B) (y : B) :
  Forall2 R xs ys -> In y ys -> exists x, In x xs /\ R x y.
Proof.
  induction 1 as [|x0 y0 xs ys Hxy _ IH]; intros Hin; [contradiction|].
  destruct Hin as [<- | Hin].
  - exists x0. split; [now left | exact Hxy].
  - destruct (IH Hin) as (x & Hx & Hr). exists x. split; [now right | exact Hr].
Qed.

Lemma find_all_false {A} (p : A -> bool) (xs : list A) :
  (forall x, In x xs -> p x = false) -> find p xs = None.
Proof.
  induction xs as [|x xs IH]; intros Hall; [reflexivity|].
  simpl. rewrite (Hall x (or_introl eq_refl)). apply IH.
  intros y Hy. apply Hall. now right.
Qed.

Lemma combine_app {A B} (xs xs' : list A) (ys ys' : list B) :
  List.length xs = List.length ys ->
  combine (xs ++ xs') (ys ++ ys') = (combine xs ys ++ combine xs' ys')%list.
Proof.
  revert ys. induction xs as [|x xs IH]; intros [|y ys] Hlen;
    try discriminate; [reflexivity|].
  simpl. f_equal. apply IH. now injection Hlen.
Qed.

Lemma index_in_hashable `{Host} (first : value) (ks items idxs : list value)
  (a idx_a : value) :
  Forall2 (fun item idx => index_of first ks item idx /\ hashable idx = true)
          items idxs ->
  In a items -> index_of first ks a idx_a -> hashable idx_a = true.
Proof.
  induction 1 as [|x i xs ixs [Hxi Hh] _ IH]; intros Hin Ha; [contradiction|].
  destruct Hin as [<- | Hin].
  - now rewrite (index_of_functional _ _ _ _ _ Ha Hxi).
  - now apply IH.
Qed.

(** In the dict that indexes [items], the index of an element reads the
    stored form of the last element sharing that index. *)
Lemma indexes_last_wins `{Host} (first : value) (ks : list value)
  (items : list value) (d : entries)
  (front : list value) (a b : value) (post : list value)
  (idx_a idx_b v_b : value) :
  indexes first ks items d ->
  items = (front ++ b :: post)%list ->
  In a items ->
  index_of first ks a idx_a ->
  index_of first ks b idx_b ->
  py_eq idx_a idx_b = true ->
  stored first b = Ok v_b ->
  (forall c idx_c, In c post -> index_of first ks c idx_c ->
                   py_eq idx_c idx_b = false) ->
  dict_get d idx_a = Some v_b.
Proof.
  intros (idxs & vals & Hidx & Hvals & ->) -> Hina Ha Hb Hab Hvb Hpost.
  assert (Hha : hashable idx_a = true)
    by exact (index_in_hashable _ _ _ _ _ _ Hidx Hina Ha).
  (* split the indices and the stored forms at [b] *)
  apply Forall2_app_inv_l in Hidx as (ifront & irest & Hifront & Hirest & ->).
  inversion Hirest as [|? ib ? ipost [Hib Hhb] Hipost]; subst.
  apply Forall2_app_inv_l in Hvals as (vfront & vrest & Hvfront & Hvrest & ->).
  inversion Hvrest as [|? vb ? vpost Hvb' Hvpost]; subst.
  rewrite (index_of_functional _ _ _ _ _ Hib Hb) in *.
  assert (vb = v_b) by congruence. subst vb.
  assert (Hlen : List.length ifront = List.length vfront).
  { rewrite <- (Forall2_length Hifront). exact (Forall2_length Hvfront). }
  unfold dict_of. rewrite dict_get_filled; [|constructor| |exact Hha].
  - rewrite (combine_app _ _ _ _ Hlen). cbn [combine].
    rewrite rev_app_distr. cbn [rev]. rewrite <- app_assoc.
    rewrite find_app, find_all_false.
    + cbn [app find fst snd].
      rewrite (py_eq_keys_sym idx_b idx_a Hhb Hha), Hab. reflexivity.
    + intros [ic vc] Hin. cbn [fst]. apply in_rev in Hin.
      apply in_combine_l in Hin.
      destruct (forall2_in_r _ _ _ _ Hipost Hin) as (c & Hc & Hic & Hhc).
      rewrite (py_eq_keys_sym ic idx_a Hhc Hha).
      rewrite (py_eq_keys_same idx_a idx_b ic Hha Hhb Hhc Hab).
      rewrite (py_eq_keys_sym idx_b ic Hhb Hhc).
      exact (Hpost c ic Hc Hic).
  - apply Forall_forall. intros [i v] Hin. cbn [fst].
    apply in_combine_l in Hin.
    assert (Hall : Forall (fun i => hashable i = true)
                     (ifront ++ idx_b :: ipost)%list).
    { apply Forall_app. split.
      - clear -Hifront. induction Hifront as [|? ? ? ? [_ Hh] _ IH];
          constructor; auto.
      - constructor; [exact Hhb|].
        clear -Hipost. induction Hipost as [|? ? ? ? [_ Hh] _ IH];
          constructor; auto. }
    exact (proj1 (Forall_forall _ _) Hall i Hin).
Qed.

(** C9, as the source has it.  When identity keys were guessed for a
    non-empty sequence, [sequence_to_dict] logs nothing beyond what
    [guess_keys] logged, and in the dict it builds the index shared by an
    earlier element [a] and a later element [b] reads the stored form of
    [b], provided no element after [b] has that index again: the last write
    wins and the earlier element is gone. *)
Theorem duplicate_index_last_wins (h : Host) (seq : value)
  (is_key : option key_predicate) (case_ignored : bool) (keys : list value)
  (guessed : value) (ks : list value) (first : value) (rest : list value) :
  result (guess_keys seq is_key case_ignored keys) = Ok guessed ->
  iterate guessed = Ok ks ->
  iterate seq = Ok (first :: rest) ->
  ks <> [] ->
  (forall k1 k2 more, ks = k1 :: k2 :: more -> Forall (fun k => is_str k = true) ks) ->
  logged (sequence_to_dict seq is_key case_ignored keys)
  = logged (guess_keys seq is_key case_ignored keys)
  /\ exists order,
       Permutation order ks
       /\ forall d, indexes first order (first :: rest) d ->
            result (sequence_to_dict seq is_key case_ignored keys) = Ok (VDict d)
            /\ forall front a b post idx_a idx_b v_b,
                 first :: rest = (front ++ b :: post)%list ->
                 In a front ->
                 index_of first order a idx_a ->
                 index_of first order b idx_b ->
                 py_eq idx_a idx_b = true ->
                 stored first b = Ok v_b ->
                 (forall c idx_c, In c post -> index_of first order c idx_c ->
                                  py_eq idx_c idx_b = false) ->
                 dict_get d idx_a = Some v_b.
Proof.
  intros Hguess Hks Hitems Hsome Hstr.
  split; [apply sequence_to_dict_logged|].
  destruct (sequence_to_dict_keyed _ _ _ _ _ _ _ _ Hguess Hks Hitems Hsome Hstr)
    as (order & Hperm & _ & _ & Hbuilt).
  exists order. split; [exact Hperm|].
  intros d Hd. split; [now apply Hbuilt|].
  intros front a b post idx_a idx_b v_b Hsplit Hin Ha Hb Hab Hvb Hpost.
  apply (indexes_last_wins first order (first :: rest) d front a b post
           idx_a idx_b v_b Hd Hsplit); auto.
  rewrite Hsplit. apply in_or_app. now left.
Qed.

(** C9 on two records with the same ['id']: nothing is logged and the
    single entry of the dict holds the second record. *)
Lemma duplicate_index_last_wins_witness :
  logged (sequence_to_dict (H := AsciiHost.host)
            (VList [Samples.twin_a; Samples.twin_b])
            (Some (key_denoted_by_id (H := AsciiHost.host))) true []) = []
  /\ result (sequence_to_dict (H := AsciiHost.host)
               (VList [Samples.twin_a; Samples.twin_b])
               (Some (key_denoted_by_id (H := AsciiHost.host))) true [])
     = Ok (VDict [(VInt 1, Samples.twin_b)])
  /\ dict_get [(VInt 1, Samples.twin_b)] (VInt 1) = Some Samples.twin_b.
Proof.
  assert (Hone : [VStr "id"] <> []) by discriminate.
  destruct (duplicate_index_last_wins AsciiHost.host
              (VList [Samples.twin_a; Samples.twin_b])
              (Some (key_denoted_by_id (H := AsciiHost.host))) true []
              (VSet [VStr "id"]) [VStr "id"] Samples.twin_a [Samples.twin_b]
              eq_refl eq_refl eq_refl Hone)
    as (Hlog & order & Hperm & Hbuilt).
  { intros k1 k2 more Heq. discriminate Heq. }
  apply Permutation_sym, Permutation_length_1_inv in Hperm. subst order.
  assert (Hd : indexes (H := AsciiHost.host) Samples.twin_a [VStr "id"]
                 [Samples.twin_a; Samples.twin_b] [(VInt 1, Samples.twin_b)]).
  { exists [VInt 1; VInt 1], [Samples.twin_a; Samples.twin_b].
    repeat split; repeat constructor. }
  destruct (Hbuilt _ Hd) as [Hres Hlast].
  split; [rewrite Hlog; reflexivity|]. split; [exact Hres|].
  apply (Hlast [Samples.twin_a] Samples.twin_a Samples.twin_b []
           (VInt 1) (VInt 1) Samples.twin_b);
    try reflexivity; [now left | contradiction].
Defined.

(** C9 fails on the warning: converting two records with the same ['id']
    overwrites the first with the second and leaves the log empty. *)
Lemma duplicate_index_not_logged :
  sequence_to_dict (H := AsciiHost.host)
    (VList [Samples.twin_a; Samples.twin_b])
    (Some (key_denoted_by_id (H := AsciiHost.host))) true []
  = ([], Ok (VDict [(VInt 1, Samples.twin_b)])).
Proof. reflexivity. Qed.

(** ** Empty sequences (C10) *)

Lemma set_fill_hashable (acc xs : list value) :
  forallb hashable xs = true -> exists ys, set_fill acc xs = Ok ys.
Proof.
  revert acc. induction xs as [|x xs IH]; intros acc Hxs.
  - now exists acc.
  - cbn [forallb] in Hxs. apply andb_true_iff in Hxs as [Hx Hxs].
    cbn [set_fill]. rewrite Hx. apply IH, Hxs.
Qed.

Lemma empty_sequence_items `{Host} (seq : value) :
  is_sequence seq = true -> truthy seq = false -> iterate seq = Ok [].
Proof.
  destruct seq as [| | |s|xs|xs| | | | | |]; try discriminate; intros _.
  - destruct s; [reflexivity | discriminate].
  - destruct xs; [reflexivity | discriminate].
  - destruct xs; [reflexivity | discriminate].
Qed.

Lemma sequence_to_dict_empty `{Host} (seq : value)
  (is_key : option key_predicate) (case_ignored : bool) (keys : list value) :
  is_sequence seq = true -> truthy seq = false ->
  forallb hashable keys = true ->
  sequence_to_dict seq is_key case_ignored keys = raise IndexError.
Proof.
  intros Hseq Hempty Hkeys.
  unfold sequence_to_dict, guess_keys, set_of. rewrite Hempty. cbn [negb].
  destruct (set_fill_hashable [] keys Hkeys) as [ys ->].
  rewrite bind_lift_ok. cbn [iterate]. rewrite bind_lift_ok.
  now rewrite (empty_sequence_items seq Hseq Hempty), bind_lift_ok.
Qed.

Lemma get_matched_keys_shape `{Host} (candidates : list value)
  (is_key : option key_predicate) (case_ignored : bool) (keys : list value)
  (g : value) :
  result (get_matched_keys candidates is_key case_ignored keys) = Ok g ->
  exists s, g = VSet s.
Proof.
  unfold get_matched_keys. destruct keys as [|k keys].
  - destruct is_key as [p|].
    + rewrite result_bind. destruct (result (set_comp _ _ _)) as [m|]; [|discriminate].
      intros [= <-]. now exists m.
    + intros [= <-]. now exists [].
  - rewrite result_bind. destruct (result (set_comp _ _ _)) as [m|]; [|discriminate].
    intros [= <-]. now exists m.
Qed.

(** [guess_keys] returns a set, or the empty dict. *)
Lemma guess_keys_shape `{Host} (seq : value) (is_key : option key_predicate)
  (case_ignored : bool) (keys : list value) (g : value) :
  result (guess_keys seq is_key case_ignored keys) = Ok g ->
  (exists s, g = VSet s) \/ g = VDict [].
Proof.
  unfold guess_keys. destruct (negb (truthy seq)).
  - unfold set_of. destruct (set_fill [] keys) as [ys|]; [|discriminate].
    intros [= <-]. left. now exists ys.
  - rewrite result_bind. destruct (result (lift (iterate seq))) as [items|];
      [|discriminate].
    destruct items as [|first rest]; [intros [= <-]; now right|].
    destruct (negb (forallb _ _)); [intros [= <-]; now right|].
    rewrite result_bind.
    match goal with |- context [result ?m] => destruct (result m) as [shared|] end;
      [|discriminate].
    intros Hg. left. eapply get_matched_keys_shape. exact Hg.
Qed.

(** C10.  [sequence_to_dict] reads the type of the first item before it
    looks at the keys it guessed, so on an empty sequence it raises
    [IndexError].  Consequently [compare_any] raises [IndexError] when the
    left value is an empty sequence and the right value is a sequence not
    equal to it (the two not being both strings), once no named comparator
    matches the path and the keys of the right side were guessed without an
    exception. *)
Theorem empty_sequence_index_error (h : Host) :
  iterates_elements h ->
  (forall seq is_key case_ignored keys,
     is_sequence seq = true -> truthy seq = false ->
     forallb hashable keys = true ->
     sequence_to_dict seq is_key case_ignored keys = raise IndexError)
  /\ (forall depth self lhs rhs key_path guessed,
        is_sequence lhs = true -> truthy lhs = false ->
        is_sequence rhs = true ->
        py_eq lhs rhs = false ->
        is_str lhs && is_str rhs = false ->
        result (get_named_comparator self (or_empty key_path)) = Ok None ->
        result (guess_keys rhs
                  (if matches (_config self) IdAsKey None
                   then Some key_denoted_by_id else None)
                  (matches (_config self) KeyCaseIgnored None) [])
        = Ok guessed ->
        result (compare_any (S depth) self lhs rhs key_path) = Raise IndexError).
Proof.
  intros Hhost. split.
  - intros seq is_key case_ignored keys. apply sequence_to_dict_empty.
  - intros depth self lhs rhs key_path guessed
      Hl Hempty Hr Hne Hstr Hnamed Hguess.
    cbn [compare_any]. unfold compare_any_body.
    rewrite (get_named_comparator_silent _ _ _ Hnamed), bind_nil_ok, Hne, Hstr.
    assert (Hmap : is_mapping lhs = false) by (destruct lhs; easy).
    rewrite Hmap, Hl, Hr. cbn [andb].
    unfold compare_sequence_with.
    assert (Hlk : forall p c,
              guess_keys lhs p c [] = ret (VSet [])).
    { intros p c. unfold guess_keys. now rewrite Hempty. }
    rewrite Hlk, bind_ret, result_bind, Hguess.
    destruct (guess_keys_shape _ _ _ _ _ Hguess) as [[s ->] | ->];
      cbn [iterate]; rewrite bind_lift_ok, bind_ret; cbn [set_inter filter];
      rewrite (Permutation_nil (Permutation_sym (Hhost [])));
      now rewrite sequence_to_dict_empty.
Qed.

(** C10 on the ASCII host: [sequence_to_dict([])] and [compare([], [1])]. *)
Lemma empty_sequence_index_error_witness :
  sequence_to_dict (H := AsciiHost.host) (VList []) None true [] = raise IndexError
  /\ result (compare_any (H := AsciiHost.host) 1 Samples.default_engine
               (VList []) (VList [VInt 1]) None)
     = Raise IndexError.
Proof.
  assert (Hhost : iterates_elements AsciiHost.host)
    by (intros xs; apply Permutation_refl).
  destruct (empty_sequence_index_error AsciiHost.host Hhost) as [Hconv Hcmp].
  split.
  - apply Hconv; reflexivity.
  - apply (Hcmp 0%nat Samples.default_engine (VList []) (VList [VInt 1]) None
             (VSet [])); reflexivity.
Defined.

(** The whole call [DeepDelta.compare([], [1])], and its mirror image. *)
Example compare_empty_list_left :
  compare (H := AsciiHost.host) 2 (DeltaOutput.Output_Buffer (H := AsciiHost.host))
    (VList []) (VList [VInt 1]) None None None []
  = ([], Raise IndexError).
Proof. reflexivity. Qed.

Example compare_empty_list_right :
  compare (H := AsciiHost.host) 2 (DeltaOutput.Output_Buffer (H := AsciiHost.host))
    (VList [VInt 1]) (VList []) None None None []
  = ([], Raise IndexError).
Proof. reflexivity. Qed.

(** ** Native equality is reflexive on the values Python builds *)

Section ValueInduction.

Variable P : value -> Prop.
Hypothesis Hnone : P VNone.
Hypothesis Hbool : forall b, P (VBool b).
Hypothesis Hint : forall n, P (VInt n).
Hypothesis Hstr : forall s, P (VStr s).
Hypothesis Hlist : forall xs, Forall P xs -> P (VList xs).
Hypothesis Htuple : forall xs, Forall P xs -> P (VTuple xs).
Hypothesis Hset : forall xs, Forall P xs -> P (VSet xs).
Hypothesis Hdict :
  forall kvs, Forall (fun kv => P (fst kv) /\ P (snd kv)) kvs -> P (VDict kvs).
Hypothesis Hobj :
  forall oid cls attrs, Forall (fun a => P (snd a)) attrs -> P (VObj oid cls attrs).
Hypothesis Hpattern : forall src flags, P (VPattern src flags).
Hypothesis Htype : forall t, P (VType t).
Hypothesis Hnotimpl : P VNotImplemented.

(** Induction on values, with the hypothesis for every component. *)
Fixpoint value_nested_ind (v : value) : P v :=
  match v with
  | VNone => Hnone
  | VBool b => Hbool b
  | VInt n => Hint n
  | VStr s => Hstr s
  | VList xs =>
      Hlist xs ((fix go (l : list value) : Forall P l :=
                   match l with
                   | [] => Forall_nil P
                   | x :: l' => Forall_cons x (value_nested_ind x) (go l')
                   end) xs)
  | VTuple xs =>
      Htuple xs ((fix go (l : list value) : Forall P l :=
                    match l with
                    | [] => Forall_nil P
                    | x :: l' => Forall_cons x (value_nested_ind x) (go l')
                    end) xs)
  | VSet xs =>
      Hset xs ((fix go (l : list value) : Forall P l :=
                  match l with
                  | [] => Forall_nil P
                  | x :: l' => Forall_cons x (value_nested_ind x) (go l')
                  end) xs)
  | VDict kvs =>
      Hdict kvs
        ((fix go (l : list (value * value))
            : Forall (fun kv => P (fst kv) /\ P (snd kv)) l :=
            match l with
            | [] => Forall_nil _
            | (k, v) :: l' =>
                Forall_cons (k, v)
                  (conj (value_nested_ind k) (value_nested_ind v)) (go l')
            end) kvs)
  | VObj oid cls attrs =>
      Hobj oid cls attrs
        ((fix go (l : list (string * value)) : Forall (fun a => P (snd a)) l :=
            match l with
            | [] => Forall_nil _
            | (n, v) :: l' => Forall_cons (n, v) (value_nested_ind v) (go l')
            end) attrs)
  | VPattern src flags => Hpattern src flags
  | VType t => Htype t
  | VNotImplemented => Hnotimpl
  end.

End ValueInduction.

Lemma py_eq_key_refl (k : value) : hashable k = true -> py_eq k k = true.
Proof. intros Hk. now apply (py_eq_key_norm k k Hk Hk). Qed.

Lemma all2_refl {A} (f : A -> A -> bool) (xs : list A) :
  Forall (fun x => f x x = true) xs -> all2 f xs xs = true.
Proof.
  induction 1 as [|x xs Hx _ IH]; [reflexivity|].
  cbn [all2]. now rewrite Hx, IH.
Qed.

Lemma existsb_false_in {A} (f : A -> bool) (xs : list A) (x : A) :
  existsb f xs = false -> In x xs -> f x = false.
Proof.
  intros Hnone Hin. destruct (f x) eqn:Hfx; [|reflexivity].
  rewrite <- Hnone. symmetry. apply existsb_exists. now exists x.
Qed.

(** In a dict with distinct hashable keys, looking an entry up by its key
    finds that entry. *)
Lemma find_own_entry (kvs : list (value * value)) (kv : value * value) :
  forallb (fun kv => hashable (fst kv)) kvs = true ->
  distinct (map fst kvs) = true ->
  In kv kvs ->
  find (fun kw => py_eq (fst kv) (fst kw)) kvs = Some kv.
Proof.
  induction kvs as [|kw r IH]; intros Hhash Hdist Hin; [contradiction|].
  cbn [forallb map distinct] in Hhash, Hdist.
  apply andb_true_iff in Hhash as [Hkw Hr], Hdist as [Hfresh Hdist].
  cbn [find]. destruct Hin as [-> | Hin].
  - now rewrite py_eq_key_refl.
  - assert (Hkv : hashable (fst kv) = true)
      by exact (proj1 (forallb_forall _ _) Hr kv Hin).
    rewrite (py_eq_keys_sym (fst kv) (fst kw) Hkv Hkw).
    apply negb_true_iff in Hfresh.
    rewrite (existsb_false_in _ _ (fst kv) Hfresh); [now apply IH|].
    now apply in_map.
Qed.

Lemma py_eq_refl (x : value) : well_formed x = true -> py_eq x x = true.
Proof.
  induction x as [|b|n|s|xs IH|xs IH|xs IH|kvs IH|oid cls attrs IH|src flags|t|]
    using value_nested_ind;
    cbn [py_eq well_formed]; intros Hwf; try reflexivity.
  - apply Bool.eqb_reflx.
  - apply Z.eqb_refl.
  - apply String.eqb_refl.
  - apply all2_refl. apply Forall_forall. intros x Hx.
    apply (proj1 (Forall_forall _ _) IH x Hx).
    exact (proj1 (forallb_forall _ _) Hwf x Hx).
  - apply all2_refl. apply Forall_forall. intros x Hx.
    apply (proj1 (Forall_forall _ _) IH x Hx).
    exact (proj1 (forallb_forall _ _) Hwf x Hx).
  - apply andb_true_iff in Hwf as [Hhash _].
    rewrite Nat.eqb_refl. cbn [andb]. apply forallb_forall. intros x Hx.
    apply existsb_exists. exists x. split; [exact Hx|].
    apply py_eq_key_refl. exact (proj1 (forallb_forall _ _) Hhash x Hx).
  - apply andb_true_iff in Hwf as [Hwf Hvals].
    apply andb_true_iff in Hwf as [Hhash Hdist].
    rewrite Nat.eqb_refl. cbn [andb]. apply forallb_forall. intros kv Hkv.
    rewrite (find_own_entry kvs kv Hhash Hdist Hkv).
    apply (proj1 (Forall_forall _ _) IH kv Hkv).
    exact (proj1 (forallb_forall _ _) Hvals kv Hkv).
  - apply Nat.eqb_refl.
  - now rewrite String.eqb_refl, Z.eqb_refl.
  - now apply pytype_eqb_eq.
Qed.

(** Reflexivity of the engine on every value Python builds. *)
Corollary compare_well_formed_value `{Host} (depth : nat)
  (buf : DeltaOutput.buffer) (x : value) (options : option Z)
  (tc : option table) (named : option (list (value * named_comparator)))
  (excluded : list value) (self : DeepDelta) :
  well_formed x = true ->
  init buf options tc named excluded = Ok self ->
  result (get_named_comparator self EmptyString) = Ok None ->
  compare (S depth) buf x x options tc named excluded
  = output self (VBool false) x x.
Proof.
  intros Hwf Hinit Hnamed. unfold compare. rewrite Hinit, bind_lift_ok.
  now rewrite (compare_any_equal depth self x x None Hnamed (py_eq_refl x Hwf)).
Qed.

(* ================================================================== *)
(** * Further properties of the code *)
(* ================================================================== *)

(** ** Computations, continued *)

Lemma bind_assoc {A B C} (m : M A) (f : A -> M B) (g : B -> M C) :
  bind (bind m f) g = bind m (fun a => bind (f a) g).
Proof.
  destruct m as [l [a|e]]; [|reflexivity]. unfold bind.
  destruct (f a) as [l1 [b|e]]; [|reflexivity].
  destruct (g b) as [l2 r]. now rewrite app_assoc.
Qed.

Lemma result_bind_ok {A B} (m : M A) (k : A -> M B) (b : B) :
  result (bind m k) = Ok b ->
  exists a, result m = Ok a /\ result (k a) = Ok b.
Proof.
  rewrite result_bind. destruct (result m) as [a|e]; [|discriminate].
  intros Hk. now exists a.
Qed.

Lemma mapM_result {A B} (f : A -> M B) (xs : list A) (ys : list B) :
  result (mapM f xs) = Ok ys ->
  Forall2 (fun x y => result (f x) = Ok y) xs ys.
Proof.
  revert ys. induction xs as [|x xs IH]; intros ys Hres.
  - injection Hres as <-. constructor.
  - cbn [mapM] in Hres.
    apply result_bind_ok in Hres as (y & Hy & Hres).
    apply result_bind_ok in Hres as (ys' & Hys & Hres).
    injection Hres as <-. constructor; [exact Hy | now apply IH].
Qed.

Lemma filterM_sound {A} (p : A -> M bool) (xs ys : list A) :
  result (filterM p xs) = Ok ys ->
  Forall (fun y => In y xs /\ result (p y) = Ok true) ys.
Proof.
  revert ys. induction xs as [|x xs IH]; intros ys Hres.
  - injection Hres as <-. constructor.
  - cbn [filterM] in Hres.
    apply result_bind_ok in Hres as (b & Hb & Hres).
    apply result_bind_ok in Hres as (zs & Hzs & Hres).
    injection Hres as <-.
    specialize (IH zs Hzs).
    assert (Htail : Forall (fun y => In y (x :: xs) /\ result (p y) = Ok true) zs).
    { eapply Forall_impl; [|exact IH]. intros y [Hin Hp]. split; [now right | exact Hp]. }
    destruct b; [|exact Htail].
    constructor; [|exact Htail]. split; [now left | exact Hb].
Qed.

Lemma filterM_pure {A} (p : A -> M bool) (q : A -> bool) (xs : list A) :
  (forall x, In x xs -> p x = ret (q x)) ->
  filterM p xs = ret (filter q xs).
Proof.
  induction xs as [|x xs IH]; intros Hp; [reflexivity|].
  cbn [filterM filter]. rewrite (Hp x (or_introl eq_refl)), bind_ret.
  rewrite IH, bind_ret; [reflexivity|].
  intros y Hy. apply Hp. now right.
Qed.

Lemma forall2_in_l {A B} (R : A -> B -> Prop) (xs : list A) (ys : list B) (x : A) :
  Forall2 R xs ys -> In x xs -> exists y, In y ys /\ R x y.
Proof.
  induction 1 as [|x0 y0 xs ys Hxy _ IH]; intros Hin; [destruct Hin|].
  destruct Hin as [<-|Hin].
  - exists y0. split; [now left | exact Hxy].
  - destruct (IH Hin) as (y & Hy & HR). exists y. split; [now right | exact HR].
Qed.

(** ** Configuration flags without a mask *)

(** X1.  Without a mask, [matches] tests containment: it returns [True]
    exactly when every bit of the flag is set in the configuration. A flag
    without any bit, such as [OutputDefault] or [OutputDeltaAsTuple],
    therefore matches every configuration. *)
Theorem matches_without_mask (self flags : Z) :
  (matches self flags None = true <->
   forall i, Z.testbit flags i = true -> Z.testbit self i = true)
  /\ matches self 0%Z None = true.
Proof.
  unfold matches, mask_or. split.
  - rewrite Z.eqb_eq. split.
    + intros Hland i Hi. rewrite <- Hland in Hi.
      rewrite Z.land_spec in Hi. now apply andb_true_iff in Hi.
    + intros Hbits. apply Z.bits_inj. intros i.
      rewrite Z.land_spec.
      destruct (Z.testbit flags i) eqn:Hf.
      * now rewrite (Hbits i Hf).
      * apply andb_false_r.
  - now rewrite Z.land_0_r.
Qed.

(** ** Output methods and their registry *)

Lemma get_value_abbrev_twice (v : value) :
  DeltaOutput.get_value_abbrev (DeltaOutput.get_value_abbrev v)
  = DeltaOutput.get_value_abbrev v.
Proof. now destruct v. Qed.

(** X2.  [get_value_abbrev] replaces a list, a set, a dict and a tuple by
    the text that stands for its type (['[...]'], ['{,,}'], ['{...}'],
    ['(...)']) and returns every other value as it is.  It is therefore
    idempotent, and what it returns is never one of these containers. *)
Theorem get_value_abbrev_idempotent (v : value) :
  DeltaOutput.get_value_abbrev (DeltaOutput.get_value_abbrev v)
  = DeltaOutput.get_value_abbrev v
  /\ DeltaOutput.type_abbrev DeltaOutput.TYPE_ABBREVIATIONS
       (type_of (DeltaOutput.get_value_abbrev v)) = None
  /\ DeltaOutput.get_value_abbrev v
     = match v with
       | VList _ => VStr "[...]"
       | VSet _ => VStr "{,,}"
       | VDict _ => VStr "{...}"
       | VTuple _ => VStr "(...)"
       | _ => v
       end.
Proof.
  split; [apply get_value_abbrev_twice|].
  destruct v; split; reflexivity.
Qed.

Lemma buffer_get_set_same (buf : DeltaOutput.buffer) (c : Z) (f : DeltaOutput.formatter) :
  DeltaOutput.buffer_get (DeltaOutput.buffer_set buf c f) c = Some f.
Proof.
  induction buf as [|[c' f'] buf IH]; simpl.
  - now rewrite Z.eqb_refl.
  - destruct (Z.eqb c' c) eqn:Hc; simpl; rewrite Hc; [reflexivity | exact IH].
Qed.

Lemma buffer_get_set_other (buf : DeltaOutput.buffer) (c c' : Z)
  (f : DeltaOutput.formatter) :
  c' <> c ->
  DeltaOutput.buffer_get (DeltaOutput.buffer_set buf c f) c'
  = DeltaOutput.buffer_get buf c'.
Proof.
  intros Hne. induction buf as [|[c0 f0] buf IH]; simpl.
  - destruct (Z.eqb_spec c c'); [congruence | reflexivity].
  - destruct (Z.eqb_spec c0 c) as [->|Hc0]; simpl.
    + destruct (Z.eqb_spec c c'); [congruence | reflexivity].
    + destruct (Z.eqb c0 c'); [reflexivity | exact IH].
Qed.

(** X3.  After [set_output(config, f)], [get_output] succeeds for every
    configuration with the output bits of [config] and returns [f]: as it is
    when the configuration has [OutputKeepAllDetails], applied to the
    abbreviated values otherwise. For configurations with other output bits
    [get_output] answers as before. *)
Theorem set_output_then_get_output (buf : DeltaOutput.buffer) (config : Z)
  (f : DeltaOutput.formatter) (config' : Z) :
  let buf' := fst (DeltaOutput.set_output buf config f) in
  (Z.land config' OutputFormatMask = Z.land config OutputFormatMask ->
   exists out, DeltaOutput.get_output buf' config' = Ok out
     /\ forall is_dif left right,
          out is_dif left right =
          if matches config' OutputKeepAllDetails None
          then f is_dif left right
          else f is_dif (DeltaOutput.get_value_abbrev left)
                        (DeltaOutput.get_value_abbrev right))
  /\ (Z.land config' OutputFormatMask <> Z.land config OutputFormatMask ->
      DeltaOutput.get_output buf' config' = DeltaOutput.get_output buf config').
Proof.
  cbn zeta. unfold DeltaOutput.set_output, DeltaOutput.get_output. cbn [fst].
  split.
  - intros ->. rewrite buffer_get_set_same.
    destruct (matches config' OutputKeepAllDetails None); eexists; split;
      try reflexivity; intros; reflexivity.
  - intros Hne. now rewrite (buffer_get_set_other _ _ _ _ Hne).
Qed.

(** X3 on the slot of [OutputDeltaAsCustom], which the registry as shipped
    leaves empty: once [as_none_or_tuple] is registered there, the default
    configuration with these output bits reports a difference through it, on
    abbreviated values. *)
Lemma set_output_then_get_output_witness :
  exists out,
    DeltaOutput.get_output
      (fst (DeltaOutput.set_output (DeltaOutput.Output_Buffer (H := AsciiHost.host))
              OutputDeltaAsCustom DeltaOutput.as_none_or_tuple))
      (Z.lor DEFAULT_DELTA_CONFIG OutputDeltaAsCustom) = Ok out
    /\ out (VBool true) (VList [VInt 1]) (VInt 2)
       = ret (VTuple [VStr "[...]"; VInt 2]).
Proof.
  destruct (proj1 (set_output_then_get_output
                     (DeltaOutput.Output_Buffer (H := AsciiHost.host))
                     OutputDeltaAsCustom DeltaOutput.as_none_or_tuple
                     (Z.lor DEFAULT_DELTA_CONFIG OutputDeltaAsCustom)) eq_refl)
    as (out & Hget & Hout).
  exists out. split; [exact Hget|]. rewrite Hout. reflexivity.
Defined.

(** ** Type comparators *)

(** X4.  [as_bool] accepts exactly two ints: [1], which is the element
    [True] of [TRUE_VALUES], and [0], the element [False] of [FALSE_VALUES];
    any other int raises [ValueError].  A list, a dict, or a tuple that
    holds one, cannot be hashed and raises the [TypeError] of the set
    lookup, not [ValueError].  A set is looked up as its frozenset, is found
    in neither set of literals and raises [ValueError]. *)
Theorem as_bool_of_ints (n : Z) (v : value) :
  as_bool (VInt n)
  = (if Z.eqb n 1 then ret true
     else if Z.eqb n 0 then ret false else raise ValueError)
  /\ (hashable v = false -> (forall xs, v <> VSet xs) ->
      as_bool v = raise TypeError)
  /\ (forall xs, as_bool (VSet xs) = raise ValueError).
Proof.
  split; [|split].
  - unfold as_bool, set_contains, set_mem.
    cbn [hashable TRUE_VALUES FALSE_VALUES existsb py_eq bool_int orb].
    rewrite !orb_false_r, (Z.eqb_sym 1 n), (Z.eqb_sym 0 n).
    now destruct (Z.eqb n 1), (Z.eqb n 0).
  - intros Hv Hset. unfold as_bool, set_contains.
    destruct v as [| | | | |items|elements| | | | |];
      try discriminate Hv; try reflexivity.
    + now rewrite Hv.
    + now contradiction (Hset elements).
  - reflexivity.
Qed.

Lemma as_bool_of_ints_witness :
  as_bool (VInt 2) = raise ValueError
  /\ as_bool (VTuple [VInt 1; VList []]) = raise TypeError
  /\ as_bool (VSet []) = raise ValueError.
Proof.
  destruct (as_bool_of_ints 2 (VTuple [VInt 1; VList []]))
    as (Hint & Htuple & Hset).
  split; [exact Hint|].
  split; [apply Htuple; [reflexivity | discriminate] | apply Hset].
Defined.

Lemma as_bool_str (s : string) :
  as_bool (VStr s)
  = (if set_mem TRUE_VALUES (VStr s) then ret true
     else if set_mem FALSE_VALUES (VStr s) then ret false
     else raise ValueError).
Proof.
  unfold as_bool, set_contains. cbn [hashable lift].
  now destruct (set_mem TRUE_VALUES (VStr s)), (set_mem FALSE_VALUES (VStr s)).
Qed.

Lemma pytype_eqb_sym (s t : pytype) : pytype_eqb s t = pytype_eqb t s.
Proof. unfold pytype_eqb. now rewrite Nat.eqb_sym, String.eqb_sym. Qed.

Lemma default_typed_comparison_silent `{Host} (nud : bool) (lhs rhs : value) :
  logged (with_comparators None nud lhs rhs) = [].
Proof.
  destruct nud, lhs, rhs; try reflexivity.
  all: unfold with_comparators, are_equal;
    cbn -[compare_number_with_precision compare_bool_with_str as_bool].
  all: try reflexivity.
  all: rewrite ?bind_ret.
  all: try match goal with
       | |- logged (if ?c then _ else _) = [] => now destruct c
       end.
  all: try (unfold compare_bool_with_str; rewrite as_bool_str;
            now destruct (set_mem TRUE_VALUES (VStr s)),
                         (set_mem FALSE_VALUES (VStr s))).
  all: unfold compare_number_with_precision, as_float_str.
  all: now destruct (format_float (VInt n) _);
         [destruct (format_float (VStr s) _)|].
Qed.

(** X5.  With the default type comparators (either setting of
    [NoneUnequalDefault]), the typed comparison does not depend on the order
    of its operands: swapping them gives the same result or the same
    exception. It never logs: the two warnings of [are_equal] cannot be
    reached with the default table. *)
Theorem default_typed_comparison_symmetric (h : Host) (none_dif_default : bool)
  (lhs rhs : value) :
  with_comparators None none_dif_default lhs rhs
  = with_comparators None none_dif_default rhs lhs
  /\ logged (with_comparators None none_dif_default lhs rhs) = [].
Proof.
  split; [|apply default_typed_comparison_silent].
  destruct none_dif_default, lhs, rhs; try reflexivity.
  all: try (etransitivity; [apply bind_ret|]; symmetry;
            etransitivity; [apply bind_ret|]; symmetry).
  all: try reflexivity.
  all: cbn.
  all: try match goal with
       | |- (let (l', r) := ?m in (l', r)) = ?m => now destruct m
       | |- ?m = (let (l', r) := ?m in (l', r)) => now destruct m
       end.
  all: try (now rewrite Z.eqb_sym).
  all: try (now rewrite String.eqb_sym).
  all: try (now destruct b, b0).
  all: try (now rewrite pytype_eqb_sym).
  all: try (now rewrite (String.eqb_sym src), (Z.eqb_sym flags)).
  all: now rewrite (String.eqb_sym cls), (Nat.eqb_sym oid).
Qed.

(** ** Matching a path against excluded keys and named comparators *)

Lemma key_matches_str_total `{Host} (key path : string) (ci : bool) :
  exists b, key_matches_str key (VStr path) ci = ret b.
Proof.
  unfold key_matches_str.
  destruct (contains PATH_SEPARATOR key) eqn:Hsep; cbn [negb]; cbv iota.
  - destruct key as [|c rest]; [discriminate|].
    destruct (Ascii.eqb c PATH_SEPARATOR); [destruct ci|]; eexists; reflexivity.
  - eexists; reflexivity.
Qed.

(** Against a path that is a string, [key_matches] returns a bool whatever
    the specifier is: it neither raises nor logs. *)
Lemma key_matches_total `{Host} (kp : value) (path : string) (ci : bool) :
  exists b, key_matches kp (VStr path) ci = ret b.
Proof.
  destruct kp; cbn [key_matches]; try apply key_matches_str_total;
    eexists; reflexivity.
Qed.

(** X6.  [is_excluded] neither raises nor logs, and it returns [True]
    exactly when one of the excluded keys matches the path, under the key
    case setting of the configuration. *)
Theorem is_excluded_some_key_matches (h : Host) (self : DeepDelta) (key_path : string) :
  let case_ignored := matches (_config self) KeyCaseIgnored None in
  exists b, is_excluded self key_path = ret b
    /\ (b = true <->
        Exists (fun k => key_matches k (VStr key_path) case_ignored = ret true)
               (keys_excluded self)).
Proof.
  cbn zeta. unfold is_excluded.
  induction (keys_excluded self) as [|k keys IH].
  - exists false. split; [reflexivity|]. split; [discriminate|].
    intros Hex. inversion Hex.
  - cbn [any_match].
    destruct (key_matches_total k key_path
                (matches (_config self) KeyCaseIgnored None)) as [b Hb].
    rewrite Hb, bind_ret. destruct b.
    + exists true. split; [reflexivity|]. split; [|reflexivity].
      intros _. now left.
    + destruct IH as (b & Hrest & Hiff). exists b. split; [exact Hrest|].
      rewrite Hiff. split.
      * intros Hex. now right.
      * intros Hex. inversion Hex as [? ? Hk|? ? Hk]; subst; [|exact Hk].
        rewrite Hb in Hk. discriminate.
Qed.

(** X7.  [get_named_comparator] neither raises nor logs. It returns the
    comparator of the first key, in the order of the dict of named
    comparators, that matches the path; it returns [None] exactly when no
    key matches. *)
Theorem get_named_comparator_first_match (h : Host) (self : DeepDelta)
  (key_path : string) :
  let case_ignored := matches (_config self) KeyCaseIgnored None in
  let unmatched (kf : value * named_comparator) :=
    key_matches (fst kf) (VStr key_path) case_ignored = ret false in
  exists r, get_named_comparator self key_path = ret r
    /\ match r with
       | None => Forall unmatched (named_comparators self)
       | Some f =>
           exists before k after,
             named_comparators self = (before ++ (k, f) :: after)%list
             /\ Forall unmatched before
             /\ key_matches k (VStr key_path) case_ignored = ret true
       end.
Proof.
  cbn zeta. unfold get_named_comparator.
  induction (named_comparators self) as [|[k f] named IH].
  - exists None. split; [reflexivity | constructor].
  - cbn [first_match].
    destruct (key_matches_total k key_path
                (matches (_config self) KeyCaseIgnored None)) as [b Hb].
    rewrite Hb, bind_ret. destruct b.
    + exists (Some f). split; [reflexivity|].
      exists [], k, named. repeat split; [constructor | exact Hb].
    + destruct IH as (r & Hrest & Hr). exists r. split; [exact Hrest|].
      destruct r as [g|].
      * destruct Hr as (before & k' & after & -> & Hbefore & Hk').
        exists ((k, f) :: before), k', after. repeat split; try assumption.
        constructor; assumption.
      * constructor; assumption.
Qed.

(** ** Sets of names *)

Lemma set_mem_strings (ss : list string) (s : string) :
  set_mem (map VStr ss) (VStr s) = existsb (fun k => String.eqb k s) ss.
Proof.
  unfold set_mem. induction ss as [|k ss IH]; [reflexivity|].
  cbn [map existsb py_eq]. now rewrite IH.
Qed.

Lemma existsb_eqb_in (ss : list string) (s : string) :
  existsb (fun k => String.eqb k s) ss = true <-> In s ss.
Proof.
  rewrite existsb_exists. split.
  - intros (k & Hin & Hk). apply String.eqb_eq in Hk. now subst.
  - intros Hin. exists s. split; [exact Hin | apply String.eqb_refl].
Qed.

Lemma existsb_eqb_not_in (ss : list string) (s : string) :
  existsb (fun k => String.eqb k s) ss = false <-> ~ In s ss.
Proof.
  rewrite <- existsb_eqb_in. now destruct (existsb _ ss).
Qed.

(** Filling a set with strings that are new and pairwise different keeps
    them all, in order. *)
Lemma set_fill_strings (acc ss : list string) :
  NoDup (acc ++ ss) ->
  set_fill (map VStr acc) (map VStr ss) = Ok (map VStr (acc ++ ss)).
Proof.
  revert acc. induction ss as [|s ss IH]; intros acc Hnd.
  - now rewrite app_nil_r.
  - cbn [map set_fill hashable]. unfold set_add.
    rewrite set_mem_strings.
    assert (Hnew : ~ In s acc).
    { apply NoDup_remove_2 in Hnd. intros Hin. apply Hnd, in_or_app. now left. }
    apply existsb_eqb_not_in in Hnew. rewrite Hnew.
    change [VStr s] with (map VStr [s]). rewrite <- map_app.
    rewrite IH; rewrite <- app_assoc; [reflexivity | exact Hnd].
Qed.

Lemma set_of_names (ss : list string) :
  NoDup ss -> set_fill [] (map VStr ss) = Ok (map VStr ss).
Proof. intros Hnd. exact (set_fill_strings [] ss Hnd). Qed.

Lemma set_comp_all (p : value -> M bool) (acc xs : list value) :
  (forall x, In x xs -> p x = ret true) ->
  set_comp p acc xs = lift (set_fill acc xs).
Proof.
  revert acc. induction xs as [|x xs IH]; intros acc Hp; [reflexivity|].
  cbn [set_comp set_fill]. rewrite (Hp x (or_introl eq_refl)), bind_ret.
  destruct (hashable x); [|reflexivity].
  apply IH. intros y Hy. apply Hp. now right.
Qed.

Lemma set_comp_names (p : value -> M bool) (ss : list string) :
  (forall x, p x = ret true) -> NoDup ss ->
  set_comp p [] (map VStr ss) = ret (map VStr ss).
Proof.
  intros Hp Hnd. rewrite set_comp_all by (intros; apply Hp).
  now rewrite set_of_names.
Qed.

(** A set comprehension over names with a predicate that returns normally:
    the names the predicate accepts. *)
Lemma set_comp_strings (p : value -> M bool) (q : string -> bool)
  (ss acc : list string) :
  (forall s, In s ss -> p (VStr s) = ret (q s)) ->
  exists m, set_comp p (map VStr acc) (map VStr ss) = ret (map VStr m)
    /\ forall s, In s m <-> In s acc \/ (In s ss /\ q s = true).
Proof.
  revert acc. induction ss as [|s ss IH]; intros acc Hp.
  - exists acc. split; [reflexivity|]. intros s. cbn. tauto.
  - cbn [map set_comp]. rewrite (Hp s (or_introl eq_refl)), bind_ret.
    assert (Hrest : forall s', In s' ss -> p (VStr s') = ret (q s'))
      by (intros s' Hs'; apply Hp; now right).
    destruct (q s) eqn:Hq.
    + cbn [hashable]. unfold set_add. rewrite set_mem_strings.
      destruct (existsb (fun k => String.eqb k s) acc) eqn:Hmem.
      * destruct (IH acc Hrest) as (m & Hm & Hin). exists m. split; [exact Hm|].
        intros s'. rewrite Hin. apply existsb_eqb_in in Hmem. cbn.
        split; [tauto|]. intros [Ha|[[<-|Hs'] Hq']]; tauto.
      * change [VStr s] with (map VStr [s]). rewrite <- map_app.
        destruct (IH (acc ++ [s])%list Hrest) as (m & Hm & Hin).
        exists m. split; [exact Hm|].
        intros s'. rewrite Hin, in_app_iff. cbn.
        split; [intros [[Ha|[<-|[]]]|[Hs' Hq']]; tauto|].
        intros [Ha|[[<-|Hs'] Hq']]; tauto.
    + destruct (IH acc Hrest) as (m & Hm & Hin). exists m. split; [exact Hm|].
      intros s'. rewrite Hin. cbn.
      split; [tauto|]. intros [Ha|[[<-|Hs'] Hq']]; [tauto | congruence | tauto].
Qed.

(** X8.  Without explicit keys, and with [key_denoted_by_id] as the
    predicate, [get_matched_keys] returns the set of the candidate names
    that start or end with ['id'] once their case is folded (when case is
    ignored) and they are trimmed. *)
Theorem id_keys_by_default (h : Host) (names : list string) (case_ignored : bool) :
  exists m,
    get_matched_keys (map VStr names) (Some key_denoted_by_id) case_ignored []
    = ret (VSet (map VStr m))
    /\ forall s, In s m <->
         In s names
         /\ (let name_str := normalize_str s case_ignored true in
             endswith name_str "id" || startswith name_str "id") = true.
Proof.
  unfold get_matched_keys.
  destruct (set_comp_strings
              (fun k => key_denoted_by_id k case_ignored)
              (fun s => let name_str := normalize_str s case_ignored true in
                        endswith name_str "id" || startswith name_str "id")
              names []) as (m & Hm & Hin).
  - intros s _. reflexivity.
  - exists m. change (@nil value) with (map VStr []). rewrite Hm, bind_ret.
    split; [reflexivity|]. intros s. rewrite Hin. cbn. tauto.
Qed.

(** ** Which keys of a side match *)

Lemma normalize_not_tuple `{Host} (key : value) (ci st : bool) :
  is_tuple key = false -> exists n, normalize key ci st = VStr n.
Proof. destruct key; try discriminate; intros _; eexists; reflexivity. Qed.

Lemma filterM_total {A} (p : A -> M bool) (xs : list A) :
  (forall x, exists b, p x = ret b) ->
  exists ys, filterM p xs = ret ys
    /\ forall y, In y ys <-> In y xs /\ p y = ret true.
Proof.
  intros Hp. induction xs as [|x xs (ys & Hys & Hin)].
  - exists []. split; [reflexivity|]. intros y. cbn. tauto.
  - destruct (Hp x) as [b Hb]. cbn [filterM]. rewrite Hb, bind_ret, Hys, bind_ret.
    destruct b.
    + exists (x :: ys). split; [reflexivity|]. intros y. cbn. rewrite Hin.
      split; [intros [<-|[Hy Hpy]]; tauto|]. intros [[<-|Hy] Hpy]; tauto.
    + exists ys. split; [reflexivity|]. intros y. rewrite Hin. cbn.
      split; [tauto|]. intros [[<-|Hy] Hpy]; [|tauto].
      rewrite Hb in Hpy. discriminate.
Qed.

(** X9.  For a key that is not a tuple, [matched_keys] never raises: it
    returns the keys of the scope that match the normalized key, and it logs
    one warning, naming them, exactly when more than one matches. *)
Theorem matched_keys_of_a_path (h : Host) (key_path : value)
  (all_keys : list value) (case_ignored space_trimmed : bool) :
  is_tuple key_path = false ->
  exists keys,
    matched_keys key_path all_keys case_ignored space_trimmed
    = ((if Nat.ltb 1 (List.length keys)
        then [MultipleMatching key_path keys] else []),
       Ok keys)
    /\ forall k, In k keys <->
         In k all_keys
         /\ key_matches k (normalize key_path case_ignored space_trimmed)
              case_ignored = ret true.
Proof.
  intros Hkey. unfold matched_keys.
  destruct (normalize_not_tuple key_path case_ignored space_trimmed Hkey) as [n ->].
  destruct (filterM_total (fun k => key_matches k (VStr n) case_ignored) all_keys)
    as (keys & -> & Hin).
  - intros k. apply key_matches_total.
  - exists keys. split; [|exact Hin].
    rewrite bind_ret. now destruct (Nat.ltb 1 (List.length keys)).
Qed.

(** X9 with case ignored, for ['NAME'] among ['Name'], ['age'] and ['name']:
    two keys match and the warning names them. *)
Lemma matched_keys_of_a_path_witness :
  exists keys,
    matched_keys (H := AsciiHost.host) (VStr "NAME")
      [VStr "Name"; VStr "age"; VStr "name"] true true
    = ([MultipleMatching (VStr "NAME") keys], Ok keys)
    /\ keys = [VStr "Name"; VStr "name"].
Proof.
  destruct (matched_keys_of_a_path AsciiHost.host (VStr "NAME")
              [VStr "Name"; VStr "age"; VStr "name"] true true eq_refl)
    as (keys & Hkeys & _).
  assert (Hrun : matched_keys (H := AsciiHost.host) (VStr "NAME")
                   [VStr "Name"; VStr "age"; VStr "name"] true true
                 = ([MultipleMatching (VStr "NAME") [VStr "Name"; VStr "name"]],
                    Ok [VStr "Name"; VStr "name"]))
    by reflexivity.
  rewrite Hrun in Hkeys. injection Hkeys as _ Hsame.
  exists keys. rewrite <- Hsame. split; [exact Hrun | reflexivity].
Defined.

(** X10.  A tuple among the excluded keys or the keys of the named
    comparators never matches: the paths the engine builds are strings, and
    a normalized tuple is not equal to a string. With only tuples as
    excluded keys nothing is excluded, and with only tuples as keys no named
    comparator is found. *)
Theorem tuple_specifiers_never_match (h : Host) (self : DeepDelta)
  (key_path : string) :
  (Forall (fun k => is_tuple k = true) (keys_excluded self) ->
   is_excluded self key_path = ret false)
  /\ (Forall (fun kf => is_tuple (fst kf) = true) (named_comparators self) ->
      get_named_comparator self key_path = ret None).
Proof.
  unfold is_excluded, get_named_comparator. split.
  - induction 1 as [|k keys Hk _ IH]; [reflexivity|].
    destruct k; try discriminate. cbn [any_match key_matches normalize py_eq].
    now rewrite bind_ret.
  - induction 1 as [|[k f] named Hk _ IH]; [reflexivity|].
    destruct k; try discriminate. cbn [first_match key_matches normalize py_eq].
    now rewrite bind_ret.
Qed.

(** X10 on a dict with the tuple key [(1, 2)], as [sequence_to_dict] builds
    them: excluding that tuple excludes nothing. *)
Lemma tuple_specifiers_never_match_witness :
  exists self,
    init (H := AsciiHost.host) (DeltaOutput.Output_Buffer (H := AsciiHost.host))
      None None None [VTuple [VInt 1; VInt 2]] = Ok self
    /\ is_excluded (H := AsciiHost.host) self ">(1, 2)" = ret false.
Proof.
  eexists. split; [reflexivity|].
  apply (proj1 (tuple_specifiers_never_match AsciiHost.host _ ">(1, 2)")).
  repeat constructor.
Defined.

(** ** Guessing the keys of a sequence of dicts *)

Lemma set_fill_sound (acc xs ys : list value) :
  set_fill acc xs = Ok ys ->
  forall y, In y ys -> In y acc \/ (In y xs /\ hashable y = true).
Proof.
  revert acc. induction xs as [|x xs IH]; intros acc Hfill y Hy.
  - injection Hfill as <-. now left.
  - cbn [set_fill] in Hfill. destruct (hashable x) eqn:Hx; [|discriminate].
    destruct (IH _ Hfill y Hy) as [Hacc|[Hin Hh]].
    + unfold set_add in Hacc. destruct (set_mem acc x); [now left|].
      apply in_app_or in Hacc as [Hacc|[<-|[]]]; [now left|].
      right. split; [now left | exact Hx].
    + right. split; [now right | exact Hh].
Qed.

Lemma set_comp_sound (p : value -> M bool) (acc xs ys : list value) :
  result (set_comp p acc xs) = Ok ys ->
  forall y, In y ys -> In y acc \/ In y xs.
Proof.
  revert acc. induction xs as [|x xs IH]; intros acc Hres y Hy.
  - injection Hres as <-. now left.
  - cbn [set_comp] in Hres. apply result_bind_ok in Hres as (b & _ & Hres).
    destruct b.
    + destruct (hashable x); [|discriminate].
      destruct (IH _ Hres y Hy) as [Hacc|Hin]; [|right; now right].
      unfold set_add in Hacc. destruct (set_mem acc x); [now left|].
      apply in_app_or in Hacc as [Hacc|[<-|[]]]; [now left | right; now left].
    + destruct (IH _ Hres y Hy) as [Hacc|Hin]; [now left | right; now right].
Qed.

Lemma set_inter_all_sound (s : list value) (rest : list (list value)) (k : value) :
  In k (fold_left set_inter rest s) ->
  In k s /\ Forall (fun t => set_mem t k = true) rest.
Proof.
  revert s. induction rest as [|t rest IH]; intros s Hk.
  - split; [exact Hk | constructor].
  - cbn [fold_left] in Hk. destruct (IH _ Hk) as [Hin Hrest].
    unfold set_inter in Hin. apply filter_In in Hin as [Hs Ht].
    split; [exact Hs|]. constructor; assumption.
Qed.

Lemma dict_get_present (d : entries) (k : value) :
  (exists y, In y (dict_keys d) /\ py_eq y k = true) ->
  exists v, dict_get d k = Some v.
Proof.
  induction d as [|[k' v'] d IH]; intros (y & Hy & Heq).
  - destruct Hy.
  - cbn [dict_get]. destruct (py_eq k' k) eqn:Hk; [now exists v'|].
    apply IH. destruct Hy as [<-|Hy]; [cbn [fst] in Heq; congruence|].
    now exists y.
Qed.

(** The keys [guess_keys] returns for dicts are keys of every one of them. *)
Lemma guess_keys_shared `{Host} (seq : value) (is_key : option key_predicate)
  (case_ignored : bool) (keys : list value) (first : value) (rest : list value)
  (guessed : value) :
  iterates_elements H ->
  truthy seq = true ->
  iterate seq = Ok (first :: rest) ->
  is_mapping first = true ->
  result (guess_keys seq is_key case_ignored keys) = Ok guessed ->
  guessed = VDict []
  \/ exists ks, guessed = VSet ks
       /\ forall k item, In k ks -> In item (first :: rest) ->
            exists v, getitem item k = Ok v.
Proof.
  intros Hiter Htruthy Hitems Hmap Hres. unfold guess_keys in Hres.
  rewrite Htruthy, Hitems, bind_lift_ok in Hres. cbn [negb] in Hres.
  destruct (forallb _ (first :: rest)) eqn:Hsame; cbn [negb] in Hres;
    [|injection Hres as <-; now left].
  right.
  assert (Hfirst : is_mapping_type (type_of first) = true)
    by (destruct first; easy).
  rewrite Hfirst in Hres.
  apply result_bind_ok in Hres as (shared & Hshared & Hres).
  destruct (get_matched_keys_shape _ _ _ _ _ Hres) as [ks ->].
  exists ks. split; [reflexivity|].
  apply result_bind_ok in Hshared as (key_sets & Hsets & Hshared).
  apply result_bind_ok in Hshared as (s & Hs & Hshared).
  injection Hshared as <-.
  apply mapM_result in Hsets.
  assert (Hks : forall k, In k ks -> In k s).
  { intros k Hk. unfold get_matched_keys in Hres.
    assert (Hcand : In k (set_iter s)).
    { destruct keys as [|k0 keys].
      - destruct is_key as [p|].
        + apply result_bind_ok in Hres as (m & Hm & Hres). injection Hres as <-.
          destruct (set_comp_sound _ _ _ _ Hm k Hk) as [[]|Hin]. exact Hin.
        + injection Hres as <-. destruct Hk.
      - apply result_bind_ok in Hres as (m & Hm & Hres). injection Hres as <-.
        destruct (set_comp_sound _ _ _ _ Hm k Hk) as [[]|Hin]. exact Hin. }
    eapply Permutation_in; [apply Hiter | exact Hcand]. }
  inversion Hsets as [|x t xs ts Hx Hxs]; subst.
  cbn [set_inter_all lift result snd] in Hs. injection Hs as <-.
  assert (Hset : forall item t, result (key_set (keys_of item)) = Ok t ->
                   exists d, item = VDict d
                     /\ forall y, In y t -> In y (dict_keys d) /\ hashable y = true).
  { intros item t0 Ht0. unfold key_set in Ht0.
    apply result_bind_ok in Ht0 as (ks0 & Hks0 & Ht0).
    destruct item; try discriminate. injection Hks0 as <-.
    exists kvs. split; [reflexivity|].
    intros y Hy. destruct (set_fill_sound _ _ _ Ht0 y Hy) as [[]|Hin]. exact Hin. }
  intros k item Hk Hitem.
  destruct (set_inter_all_sound _ _ _ (Hks k Hk)) as [Hin_t Hrest].
  destruct (Hset _ _ Hx) as (d0 & -> & Hd0).
  destruct (Hd0 k Hin_t) as [Hk0 Hhash].
  assert (Hget : forall d, (exists y, In y (dict_keys d) /\ py_eq y k = true) ->
                           exists v, getitem (VDict d) k = Ok v).
  { intros d Hy. destruct (dict_get_present d k Hy) as [v Hv].
    exists v. cbn [getitem]. now rewrite Hhash, Hv. }
  destruct Hitem as [<-|Hitem].
  - apply Hget. exists k. split; [exact Hk0 | now apply py_eq_key_refl].
  - rewrite Forall_forall in Hrest.
    destruct (forall2_in_l _ _ _ _ Hxs Hitem) as (t' & Ht' & Hres').
    destruct (Hset _ _ Hres') as (d & -> & Hd).
    specialize (Hrest t' Ht'). unfold set_mem in Hrest.
    apply existsb_exists in Hrest as (y & Hy & Heq).
    apply Hget. exists y. split; [apply Hd, Hy | exact Heq].
Qed.

(** X11.  For a non-empty sequence whose first item is a dict, on a host
    whose sets are iterated element by element: what [guess_keys] returns is
    the empty dict (items of several types) or a set of keys, and every key
    of that set can be read from every item of the sequence. *)
Theorem guess_keys_shared_by_all (h : Host) (seq : value)
  (is_key : option key_predicate) (case_ignored : bool) (keys : list value)
  (first : value) (rest : list value) (guessed : value) :
  iterates_elements h ->
  truthy seq = true ->
  iterate seq = Ok (first :: rest) ->
  is_mapping first = true ->
  result (guess_keys seq is_key case_ignored keys) = Ok guessed ->
  guessed = VDict []
  \/ exists ks, guessed = VSet ks
       /\ forall k item, In k ks -> In item (first :: rest) ->
            exists v, getitem item k = Ok v.
Proof. apply guess_keys_shared. Qed.

(** X11 on the two rows [ali] and [tom]: the keys guessed by default are
    ['departmentId'] and ['employeeId'], and both rows have them. *)
Lemma guess_keys_shared_by_all_witness :
  exists ks,
    VSet [VStr "departmentId"; VStr "employeeId"] = VSet ks
    /\ forall k item, In k ks -> In item [Samples.ali; Samples.tom] ->
         exists v, getitem item k = Ok v.
Proof.
  assert (Hhost : iterates_elements AsciiHost.host)
    by (intros xs; apply Permutation_refl).
  destruct (guess_keys_shared_by_all AsciiHost.host
              (VList [Samples.ali; Samples.tom])
              (Some (key_denoted_by_id (H := AsciiHost.host))) true []
              Samples.ali [Samples.tom]
              (VSet [VStr "departmentId"; VStr "employeeId"])
              Hhost eq_refl eq_refl eq_refl eq_refl) as [Hmixed|Hshared].
  - discriminate Hmixed.
  - exact Hshared.
Defined.

(** ** Sorting never raises anything but [TypeError] *)

Lemma lex_lt_raises (xs : list value) :
  Forall (fun a => forall b e, py_lt a b = Raise e -> e = TypeError) xs ->
  forall ys e, lex_lt py_eq (fun x y => py_lt x y) xs ys = Raise e -> e = TypeError.
Proof.
  induction 1 as [|x xs Hx _ IH]; intros ys e.
  - destruct ys; discriminate.
  - destruct ys as [|y ys]; [discriminate|]. cbn [lex_lt].
    destruct (py_eq x y); [apply IH | apply Hx].
Qed.

Lemma py_lt_raises (a b : value) (e : exn) : py_lt a b = Raise e -> e = TypeError.
Proof.
  revert b e.
  induction a as [|x|n|s|xs IH|xs IH|xs IH|kvs IH|oid cls attrs IH|src flags|t|]
    using value_nested_ind; intros b e; destruct b; cbn [py_lt];
    try discriminate; try (now intros [= <-]).
  - now apply lex_lt_raises.
  - now apply lex_lt_raises.
Qed.

Lemma sort_insert_result (x : value) (sorted : list value) :
  (exists ys, sort_insert x sorted = Ok ys /\ Permutation (x :: sorted) ys)
  \/ sort_insert x sorted = Raise TypeError.
Proof.
  induction sorted as [|y rest IH]; [left; now exists [x]|].
  cbn [sort_insert]. destruct (py_lt x y) as [[|]|e] eqn:Hlt.
  - left. now exists (x :: y :: rest).
  - destruct IH as [(ys & -> & Hperm)| ->]; [|now right].
    left. exists (y :: ys). split; [reflexivity|].
    rewrite perm_swap. now constructor.
  - right. now rewrite (py_lt_raises _ _ _ Hlt).
Qed.

Lemma sort_from_result (xs sorted : list value) :
  (exists ys, sort_from sorted xs = Ok ys /\ Permutation (sorted ++ xs) ys)
  \/ sort_from sorted xs = Raise TypeError.
Proof.
  revert sorted. induction xs as [|x xs IH]; intros sorted.
  - left. exists sorted. now rewrite app_nil_r.
  - cbn [sort_from].
    destruct (sort_insert_result x sorted) as [(s1 & -> & Hp1)| ->]; [|now right].
    destruct (IH s1) as [(ys & -> & Hp)| ->]; [|now right].
    left. exists ys. split; [reflexivity|].
    rewrite <- Hp, <- Permutation_middle.
    exact (Permutation_app_tail xs Hp1).
Qed.

Lemma py_sort_result (xs : list value) :
  (exists ys, py_sort xs = Ok ys /\ Permutation xs ys)
  \/ py_sort xs = Raise TypeError.
Proof. exact (sort_from_result xs []). Qed.

Lemma dict_comp_result (kv : value -> M (value * value)) (items : list value) :
  (forall item, In item items -> exists p, kv item = ret p) ->
  forall acc,
    (exists d, dict_comp kv acc items = ret d)
    \/ dict_comp kv acc items = raise TypeError.
Proof.
  induction items as [|item items IH]; intros Hkv acc; [left; now exists acc|].
  cbn [dict_comp]. destruct (Hkv item (or_introl eq_refl)) as [p ->].
  rewrite bind_ret. unfold dict_store.
  destruct (hashable (fst p)); [|now right].
  rewrite bind_lift_ok. apply IH. intros i Hi. apply Hkv. now right.
Qed.

Lemma mapM_getitem (item : value) (ks : list value) :
  (forall k, In k ks -> exists v, getitem item k = Ok v) ->
  exists vs, mapM (fun k => lift (getitem item k)) ks = ret vs.
Proof.
  induction ks as [|k ks IH]; intros Hks; [now exists []|].
  destruct (Hks k (or_introl eq_refl)) as [v Hv].
  destruct IH as [vs Hvs]; [intros k' Hk'; apply Hks; now right|].
  exists (v :: vs). cbn [mapM]. now rewrite Hv, bind_lift_ok, Hvs, !bind_ret.
Qed.

(** X12.  For a non-empty sequence whose first item is a dict and whose keys
    were guessed without an exception, on a host whose sets are iterated
    element by element, [sequence_to_dict] returns a dict or raises
    [TypeError] (an index value that cannot be hashed, field names that
    cannot be sorted). It never raises [KeyError]: the keys it reads are
    keys of every item. *)
Theorem sequence_of_dicts_to_dict (h : Host) (seq : value)
  (is_key : option key_predicate) (case_ignored : bool) (keys : list value)
  (first : value) (rest : list value) (guessed : value) :
  iterates_elements h ->
  truthy seq = true ->
  iterate seq = Ok (first :: rest) ->
  is_mapping first = true ->
  result (guess_keys seq is_key case_ignored keys) = Ok guessed ->
  (exists d, result (sequence_to_dict seq is_key case_ignored keys) = Ok (VDict d))
  \/ result (sequence_to_dict seq is_key case_ignored keys) = Raise TypeError.
Proof.
  intros Hiter Htruthy Hitems Hmap Hguess.
  assert (Hks : exists ks, iterate guessed = Ok ks
                  /\ forall k item, In k ks -> In item (first :: rest) ->
                       exists v, getitem item k = Ok v).
  { destruct (guess_keys_shared _ _ _ _ _ _ _ Hiter Htruthy Hitems Hmap Hguess)
      as [->|(ks & -> & Hshared)].
    - exists []. split; [reflexivity|]. intros k item [].
    - exists (set_iter ks). split; [reflexivity|].
      intros k item Hk. apply Hshared.
      eapply Permutation_in; [apply Hiter | exact Hk]. }
  destruct Hks as (ks & Hks & Hshared).
  rewrite (sequence_to_dict_built _ _ _ _ _ _ _ _ Hguess Hks Hitems).
  assert (Hfirst : is_mapping_type (type_of first) = true)
    by (destruct first; easy).
  rewrite Hfirst.
  destruct ks as [|k1 [|k2 more]].
  - rewrite (dict_fill_index_pairs [] 0) by constructor.
    rewrite bind_lift_ok. left. eexists. reflexivity.
  - destruct (dict_comp_result
                (fun item => k <- lift (getitem item k1) ;; ret (k, item))
                (first :: rest)) with (acc := @nil (value * value))
      as [(d & ->)| ->].
    + intros item Hitem. destruct (Hshared k1 item (or_introl eq_refl) Hitem) as [v ->].
      rewrite bind_lift_ok. now eexists.
    + rewrite bind_ret. left. now exists d.
    + now right.
  - destruct (py_sort_result (k1 :: k2 :: more)) as [(sorted & -> & Hperm)| ->];
      [|now right].
    rewrite bind_lift_ok.
    destruct (dict_comp_result
                (fun item => ks <- mapM (fun k => lift (getitem item k)) sorted ;;
                             ret (VTuple ks, item))
                (first :: rest)) with (acc := @nil (value * value))
      as [(d & ->)| ->].
    + intros item Hitem.
      destruct (mapM_getitem item sorted) as [vs ->].
      * intros k Hk. apply (Hshared k item); [|exact Hitem].
        eapply Permutation_in; [apply Permutation_sym; exact Hperm | exact Hk].
      * rewrite bind_ret. now eexists.
    + rewrite bind_ret. left. now exists d.
    + now right.
Qed.

(** X12 on two records whose ['id'] holds a list: the index cannot be
    hashed, and the conversion raises [TypeError]. *)
Lemma sequence_of_dicts_to_dict_witness :
  result (sequence_to_dict (H := AsciiHost.host)
            (VList [VDict [(VStr "id", VList [VInt 1])];
                    VDict [(VStr "id", VList [VInt 2])]])
            (Some (key_denoted_by_id (H := AsciiHost.host))) true [])
  = Raise TypeError.
Proof.
  assert (Hhost : iterates_elements AsciiHost.host)
    by (intros xs; apply Permutation_refl).
  destruct (sequence_of_dicts_to_dict AsciiHost.host
              (VList [VDict [(VStr "id", VList [VInt 1])];
                      VDict [(VStr "id", VList [VInt 2])]])
              (Some (key_denoted_by_id (H := AsciiHost.host))) true []
              (VDict [(VStr "id", VList [VInt 1])])
              [VDict [(VStr "id", VList [VInt 2])]]
              (VSet [VStr "id"])
              Hhost eq_refl eq_refl eq_refl eq_refl) as [[d Hd]|Hraise].
  - discriminate Hd.
  - exact Hraise.
Defined.

(** ** Building the engine *)

Lemma get_output_registered `{Host} (config : Z) :
  let registered :=
    existsb (fun bits => Z.eqb bits (Z.land config OutputFormatMask))
      [OutputDefault; OutputWithFlag; OutputAllDetails; OutputNoneOrDict;
       OutputNoneOrDictRaw; OutputDeltaAsStr; OutputNoneOrStrRaw] in
  if registered
  then exists out, DeltaOutput.get_output DeltaOutput.Output_Buffer config = Ok out
  else DeltaOutput.get_output DeltaOutput.Output_Buffer config = Raise TypeError.
Proof.
  cbv zeta. unfold DeltaOutput.get_output.
  generalize (matches config OutputKeepAllDetails None) as keep_all.
  generalize (Z.land config OutputFormatMask) as bits.
  intros bits keep_all.
  cbn [existsb DeltaOutput.buffer_get DeltaOutput.Output_Buffer].
  repeat match goal with
  | |- context [Z.eqb ?a bits] =>
      destruct (Z.eqb a bits);
        [ cbn [orb]; destruct keep_all; eexists; reflexivity | ]
  end.
  reflexivity.
Qed.

(** X13.  On the registry as shipped, [DeepDelta(...)] is built exactly when
    the output bits of the configuration (the default one when none, or one
    without any bit, is given) are those of one of the seven registered
    output methods; otherwise the constructor raises [TypeError]. Of the
    flags [OutputKeepAllDetails], [OutputWithDeltaIndicator],
    [OutputIncludeValueTypes] and the two format bits, only these seven
    combinations are usable without [set_output]. *)
Theorem engine_needs_registered_output (h : Host) (options : option Z)
  (tc : option table) (named : option (list (value * named_comparator)))
  (excluded : list value) :
  let config := match options with
                | Some c => if Z.eqb c 0 then DEFAULT_DELTA_CONFIG else c
                | None => DEFAULT_DELTA_CONFIG
                end in
  let registered :=
    existsb (fun bits => Z.eqb bits (Z.land config OutputFormatMask))
      [OutputDefault; OutputWithFlag; OutputAllDetails; OutputNoneOrDict;
       OutputNoneOrDictRaw; OutputDeltaAsStr; OutputNoneOrStrRaw] in
  if registered
  then exists self,
         init DeltaOutput.Output_Buffer options tc named excluded = Ok self
         /\ _config self = config
  else init DeltaOutput.Output_Buffer options tc named excluded = Raise TypeError.
Proof.
  cbv zeta. unfold init. cbv zeta.
  lazymatch goal with
  | |- context [DeltaOutput.get_output _ ?c] =>
      pose proof (get_output_registered c) as Hr
  end.
  cbv zeta in Hr.
  lazymatch goal with
  | |- if _ then ?A else ?B =>
      lazymatch type of Hr with
      | if ?r then _ else _ => change (if r then A else B); destruct r
      end
  end.
  - destruct Hr as [out ->]. eexists. split; reflexivity.
  - now rewrite Hr.
Qed.


(** ** What the filter of [compare_dict] keeps *)

Lemma str_format_not_empty `{Host} (a b : value) :
  String.eqb (DeltaOutput.STR_FORMAT a b) "" = false.
Proof.
  unfold DeltaOutput.STR_FORMAT. destruct (py_str a); reflexivity.
Qed.

(** X14.  For an engine built on the registry as shipped, whatever output
    method its configuration selects: a delta made by [as_delta] is kept by
    [delta_to_keep] exactly when its difference indicator is [True] or the
    configuration has [OutputKeepAllDetails]. *)
Theorem delta_kept_iff_different (h : Host) (options : option Z)
  (tc : option table) (named : option (list (value * named_comparator)))
  (excluded : list value) (self : DeepDelta) (d : bool) (l r : value) :
  init DeltaOutput.Output_Buffer options tc named excluded = Ok self ->
  (v <- as_delta self (VBool d) l r ;; delta_to_keep self v)
  = ret (d || matches (_config self) OutputKeepAllDetails None).
Proof.
  intros Hinit. destruct (init_ok _ _ _ _ _ _ Hinit) as (Hout & _).
  unfold as_delta, delta_to_keep.
  unfold DeltaOutput.get_output in Hout.
  set (c := _config self) in *.
  assert (Hkeep : matches c OutputKeepAllDetails None
                  = Z.eqb (Z.land (Z.land c OutputFormatMask) OutputKeepAllDetails)
                          OutputKeepAllDetails).
  { unfold matches, mask_or. now rewrite <- Z.land_assoc. }
  assert (Hflag : matches c OutputWithFlag None
                  = Z.eqb (Z.land (Z.land c OutputFormatMask) OutputWithFlag)
                          OutputWithFlag).
  { unfold matches, mask_or. now rewrite <- Z.land_assoc. }
  rewrite Hkeep, Hflag in *. clear Hkeep Hflag.
  cbn [DeltaOutput.buffer_get DeltaOutput.Output_Buffer] in Hout.
  repeat match type of Hout with
  | context [Z.eqb ?a ?b] =>
      destruct (Z.eqb_spec a b) as [<-|?];
        [ simpl in Hout; injection Hout as <-; destruct d; try reflexivity;
          cbn; now rewrite ?str_format_not_empty | ]
  end.
  discriminate.
Qed.

(** X14 under the default configuration: the pair of a difference is kept,
    the [None] of no difference is dropped. *)
Lemma delta_kept_iff_different_witness :
  (v <- as_delta Samples.default_engine (VBool true) (VInt 1) (VList []) ;;
   delta_to_keep Samples.default_engine v) = ret true
  /\ (v <- as_delta Samples.default_engine (VBool false) (VInt 1) (VList []) ;;
      delta_to_keep Samples.default_engine v) = ret false.
Proof.
  assert (Hinit : init (H := AsciiHost.host)
                    (DeltaOutput.Output_Buffer (H := AsciiHost.host))
                    None None None [] = Ok Samples.default_engine)
    by reflexivity.
  split.
  - exact (delta_kept_iff_different AsciiHost.host None None None []
             Samples.default_engine true (VInt 1) (VList []) Hinit).
  - exact (delta_kept_iff_different AsciiHost.host None None None []
             Samples.default_engine false (VInt 1) (VList []) Hinit).
Defined.

(** ** One call of [compare_any], by the types of its operands *)

(** X15.  Two strings, when no named comparator matches the path, are
    different exactly when they differ once trimmed (under
    [ValueSpaceTrimmed]) and then case-folded (under [ValueCaseIgnored]);
    the delta is the output method applied to that indicator. Equal strings
    fall under the same formula. *)
Theorem compare_any_two_strings (h : Host) (depth : nat) (self : DeepDelta)
  (l r : string) (key_path : option string) :
  let folded s := if matches (_config self) ValueCaseIgnored None
                  then casefold s else s in
  let trimmed s := if matches (_config self) ValueSpaceTrimmed None
                   then strip s else s in
  result (get_named_comparator self (or_empty key_path)) = Ok None ->
  compare_any (S depth) self (VStr l) (VStr r) key_path
  = as_delta self
      (VBool (negb (String.eqb (folded (trimmed l)) (folded (trimmed r)))))
      (VStr l) (VStr r).
Proof.
  intros folded trimmed Hnamed. subst folded trimmed.
  cbn [compare_any]. unfold compare_any_body.
  rewrite (get_named_comparator_silent _ _ _ Hnamed), bind_nil_ok.
  cbn [py_eq is_str andb text].
  destruct (String.eqb_spec l r) as [->|Hne].
  - now rewrite String.eqb_refl.
  - destruct (matches (_config self) ValueCaseIgnored None),
             (matches (_config self) ValueSpaceTrimmed None); try reflexivity.
    destruct (String.eqb_spec l r); [contradiction | reflexivity].
Qed.

(** X15 under the default configuration: [' Sales'] and ['sales '] are not
    different. *)
Lemma compare_any_two_strings_witness :
  compare_any (H := AsciiHost.host) 1 Samples.default_engine
    (VStr " Sales") (VStr "sales ") None = ret VNone.
Proof.
  rewrite (compare_any_two_strings AsciiHost.host 0 Samples.default_engine
             " Sales" "sales " None eq_refl).
  reflexivity.
Defined.

(** [None] against a value that is not [None], with the default type
    comparators. *)
Lemma compare_any_none_value `{Host} (depth : nat) (self : DeepDelta) (x : value)
  (key_path : option string) :
  typed_equal self
  = with_comparators None (matches (_config self) NoneUnequalDefault None) ->
  result (get_named_comparator self (or_empty key_path)) = Ok None ->
  x <> VNone ->
  let is_dif := matches (_config self) NoneUnequalDefault None || truthy x in
  compare_any (S depth) self VNone x key_path
  = as_delta self (VBool is_dif) VNone x
  /\ compare_any (S depth) self x VNone key_path
     = as_delta self (VBool is_dif) x VNone.
Proof.
  intros Htyped Hnamed Hx is_dif. subst is_dif.
  split.
  - rewrite (compare_any_typed depth self VNone x key_path Hnamed);
      try (destruct x; try reflexivity; contradiction).
    rewrite Htyped.
    destruct (matches (_config self) NoneUnequalDefault None);
      destruct x; try contradiction;
      (etransitivity; [apply bind_ret|]); try reflexivity.
    all: cbn; try now destruct b.
    all: try (now destruct (Z.eqb n 0)); try (now destruct (String.eqb s ""));
      try (now destruct xs); try (now destruct kvs).
  - rewrite (compare_any_typed depth self x VNone key_path Hnamed);
      try (destruct x; try reflexivity; contradiction).
    rewrite Htyped.
    destruct (matches (_config self) NoneUnequalDefault None);
      destruct x; try contradiction;
      (etransitivity; [apply bind_ret|]); try reflexivity.
    all: cbn; try now destruct b.
    all: try (now destruct (Z.eqb n 0)); try (now destruct (String.eqb s ""));
      try (now destruct xs); try (now destruct kvs).
Qed.

(** X16.  With the default type comparators and no named comparator for the
    path, [None] against a value that is not [None], in either order, is
    different exactly when [NoneUnequalDefault] is set or the value is true
    in Python's sense: without the flag [0], [''], [False] and the empty
    containers count as equal to [None]. *)
Theorem none_against_value (h : Host) (depth : nat) (buf : DeltaOutput.buffer)
  (options : option Z) (named : option (list (value * named_comparator)))
  (excluded : list value) (self : DeepDelta) (x : value)
  (key_path : option string) :
  init buf options None named excluded = Ok self ->
  result (get_named_comparator self (or_empty key_path)) = Ok None ->
  x <> VNone ->
  let is_dif := matches (_config self) NoneUnequalDefault None || truthy x in
  compare_any (S depth) self VNone x key_path
  = as_delta self (VBool is_dif) VNone x
  /\ compare_any (S depth) self x VNone key_path
     = as_delta self (VBool is_dif) x VNone.
Proof.
  intros Hinit Hnamed Hx.
  destruct (init_ok _ _ _ _ _ _ Hinit) as (_ & Htyped & _).
  now apply compare_any_none_value.
Qed.

(** X16 under the default configuration: [None] against the empty list is no
    difference, [None] against [[0]] is one. *)
Lemma none_against_value_witness :
  compare_any (H := AsciiHost.host) 1 Samples.default_engine VNone (VList []) None
  = ret VNone
  /\ compare_any (H := AsciiHost.host) 1 Samples.default_engine
       VNone (VList [VInt 0]) None
     = ret (VTuple [VNone; VStr "[...]"]).
Proof.
  assert (Hinit : init (H := AsciiHost.host)
                    (DeltaOutput.Output_Buffer (H := AsciiHost.host))
                    None None None [] = Ok Samples.default_engine)
    by reflexivity.
  split.
  - destruct (none_against_value AsciiHost.host 0 _ _ _ _ _ (VList []) None
                Hinit eq_refl) as [Hl _]; [discriminate|].
    rewrite Hl. reflexivity.
  - destruct (none_against_value AsciiHost.host 0 _ _ _ _ _ (VList [VInt 0]) None
                Hinit eq_refl) as [Hl _]; [discriminate|].
    rewrite Hl. reflexivity.
Defined.

Lemma typed_bool_str `{Host} (nud : bool) (b : bool) (s : string) :
  with_comparators None nud (VBool b) (VStr s)
  = compare_bool_with_str (VBool b) (VStr s)
  /\ with_comparators None nud (VStr s) (VBool b)
     = compare_bool_with_str (VBool b) (VStr s).
Proof.
  split; destruct nud; try reflexivity; (etransitivity; [apply bind_ret|reflexivity]).
Qed.

(** X17.  With the default type comparators and no named comparator for the
    path, a bool against a string, in either order, is compared with
    [as_bool] of the string: the pair is different exactly when the bool is
    not that truth value, and a string outside [TRUE_VALUES] and
    [FALSE_VALUES] makes the comparison raise [ValueError]. *)
Theorem bool_against_str (h : Host) (depth : nat) (buf : DeltaOutput.buffer)
  (options : option Z) (named : option (list (value * named_comparator)))
  (excluded : list value) (self : DeepDelta) (b : bool) (s : string)
  (key_path : option string) :
  init buf options None named excluded = Ok self ->
  result (get_named_comparator self (or_empty key_path)) = Ok None ->
  compare_any (S depth) self (VBool b) (VStr s) key_path
  = (t <- as_bool (VStr s) ;;
     as_delta self (VBool (negb (Bool.eqb b t))) (VBool b) (VStr s))
  /\ compare_any (S depth) self (VStr s) (VBool b) key_path
     = (t <- as_bool (VStr s) ;;
        as_delta self (VBool (negb (Bool.eqb b t))) (VStr s) (VBool b))
  /\ (set_mem TRUE_VALUES (VStr s) = false ->
      set_mem FALSE_VALUES (VStr s) = false ->
      compare_any (S depth) self (VBool b) (VStr s) key_path = raise ValueError).
Proof.
  intros Hinit Hnamed.
  destruct (init_ok _ _ _ _ _ _ Hinit) as (_ & Htyped & _).
  destruct (typed_bool_str (matches (_config self) NoneUnequalDefault None) b s)
    as [Hbs Hsb].
  assert (Hl : compare_any (S depth) self (VBool b) (VStr s) key_path
               = (t <- as_bool (VStr s) ;;
                  as_delta self (VBool (negb (Bool.eqb b t))) (VBool b) (VStr s))).
  { rewrite (compare_any_typed depth self _ _ key_path Hnamed); try reflexivity.
    rewrite Htyped, Hbs. unfold compare_bool_with_str.
    rewrite bind_assoc.
    destruct (as_bool (VStr s)) as [lg [t|e]]; [|reflexivity].
    rewrite !bind_value, bind_ret. reflexivity. }
  split; [exact Hl|]. split.
  - rewrite (compare_any_typed depth self _ _ key_path Hnamed); try reflexivity.
    rewrite Htyped, Hsb. unfold compare_bool_with_str.
    rewrite bind_assoc.
    destruct (as_bool (VStr s)) as [lg [t|e]]; [|reflexivity].
    rewrite !bind_value, bind_ret. reflexivity.
  - intros Ht Hf. rewrite Hl, as_bool_str.
    now rewrite Ht, Hf.
Qed.

(** X17 under the default configuration: [True] against ['yes'] is no
    difference, [True] against ['maybe'] raises [ValueError]. *)
Lemma bool_against_str_witness :
  compare_any (H := AsciiHost.host) 1 Samples.default_engine
    (VBool true) (VStr "yes") None = ret VNone
  /\ compare_any (H := AsciiHost.host) 1 Samples.default_engine
       (VBool true) (VStr "maybe") None = raise ValueError.
Proof.
  assert (Hinit : init (H := AsciiHost.host)
                    (DeltaOutput.Output_Buffer (H := AsciiHost.host))
                    None None None [] = Ok Samples.default_engine)
    by reflexivity.
  split.
  - destruct (bool_against_str AsciiHost.host 0 _ _ _ _ _ true "yes" None
                Hinit eq_refl) as (Hl & _ & _).
    rewrite Hl. reflexivity.
  - destruct (bool_against_str AsciiHost.host 0 _ _ _ _ _ true "maybe" None
                Hinit eq_refl) as (_ & _ & Hraise).
    exact (Hraise eq_refl eq_refl).
Defined.

(** An int against a string, with the default type comparators. *)
Lemma compare_any_int_str `{Host} (depth : nat) (self : DeepDelta) (n : Z)
  (s : string) (key_path : option string) :
  typed_equal self
  = with_comparators None (matches (_config self) NoneUnequalDefault None) ->
  result (get_named_comparator self (or_empty key_path)) = Ok None ->
  compare_any (S depth) self (VInt n) (VStr s) key_path
  = (a <- lift (format_float (VInt n) 0) ;;
     b <- lift (format_float (VStr s) 0) ;;
     as_delta self (VBool (negb (String.eqb a b))) (VInt n) (VStr s))
  /\ compare_any (S depth) self (VStr s) (VInt n) key_path
     = (a <- lift (format_float (VInt n) 0) ;;
        b <- lift (format_float (VStr s) 0) ;;
        as_delta self (VBool (negb (String.eqb a b))) (VStr s) (VInt n)).
Proof.
  intros Htyped Hnamed.
  assert (Hnum : forall k : value -> M value,
            (r <- compare_number_with_precision (VInt n) (VStr s) (Some 0%nat) ;; k r)
            = (a <- lift (format_float (VInt n) 0) ;;
               b <- lift (format_float (VStr s) 0) ;;
               k (VBool (String.eqb a b)))).
  { intros k. unfold compare_number_with_precision, as_float_str.
    destruct (format_float (VInt n) 0) as [a|e]; [|reflexivity].
    rewrite !bind_lift_ok.
    destruct (format_float (VStr s) 0) as [b|e]; [|reflexivity].
    now rewrite !bind_lift_ok, bind_ret. }
  split.
  - rewrite (compare_any_typed depth self _ _ key_path Hnamed); try reflexivity.
    rewrite Htyped.
    destruct (matches (_config self) NoneUnequalDefault None).
    all: change (with_comparators None _ (VInt n) (VStr s))
           with (ret tt ;;; compare_number_with_precision (VInt n) (VStr s)
                              (Some 0%nat)).
    all: now rewrite bind_ret, Hnum.
  - rewrite (compare_any_typed depth self _ _ key_path Hnamed); try reflexivity.
    rewrite Htyped.
    destruct (matches (_config self) NoneUnequalDefault None).
    all: change (with_comparators None _ (VStr s) (VInt n))
           with (compare_number_with_precision (VInt n) (VStr s) (Some 0%nat)).
    all: now rewrite Hnum.
Qed.

(** X18.  With the default type comparators and no named comparator for the
    path, an int against a string, in either order, is compared as numbers
    formatted without decimals: both are converted with [float()] and
    formatted with [0] digits, the int first, and the pair is different
    exactly when the two texts differ. What the conversion raises, the
    comparison raises. *)
Theorem int_against_str (h : Host) (depth : nat) (buf : DeltaOutput.buffer)
  (options : option Z) (named : option (list (value * named_comparator)))
  (excluded : list value) (self : DeepDelta) (n : Z) (s : string)
  (key_path : option string) :
  init buf options None named excluded = Ok self ->
  result (get_named_comparator self (or_empty key_path)) = Ok None ->
  compare_any (S depth) self (VInt n) (VStr s) key_path
  = (a <- lift (format_float (VInt n) 0) ;;
     b <- lift (format_float (VStr s) 0) ;;
     as_delta self (VBool (negb (String.eqb a b))) (VInt n) (VStr s))
  /\ compare_any (S depth) self (VStr s) (VInt n) key_path
     = (a <- lift (format_float (VInt n) 0) ;;
        b <- lift (format_float (VStr s) 0) ;;
        as_delta self (VBool (negb (String.eqb a b))) (VStr s) (VInt n)).
Proof.
  intros Hinit Hnamed.
  destruct (init_ok _ _ _ _ _ _ Hinit) as (_ & Htyped & _).
  now apply compare_any_int_str.
Qed.

(** X18 under the default configuration: [123] against [' 123 '] is no
    difference, [123] against ['abc'] raises [ValueError]. *)
Lemma int_against_str_witness :
  compare_any (H := AsciiHost.host) 1 Samples.default_engine
    (VInt 123) (VStr " 123 ") None = ret VNone
  /\ compare_any (H := AsciiHost.host) 1 Samples.default_engine
       (VInt 123) (VStr "abc") None = raise ValueError.
Proof.
  assert (Hinit : init (H := AsciiHost.host)
                    (DeltaOutput.Output_Buffer (H := AsciiHost.host))
                    None None None [] = Ok Samples.default_engine)
    by reflexivity.
  split.
  - destruct (int_against_str AsciiHost.host 0 _ _ _ _ _ 123 " 123 " None
                Hinit eq_refl) as [Hl _].
    rewrite Hl. reflexivity.
  - destruct (int_against_str AsciiHost.host 0 _ _ _ _ _ 123 "abc" None
                Hinit eq_refl) as [Hl _].
    rewrite Hl. reflexivity.
Defined.

(** ** What [compare_dict] reports *)

Lemma dict_set_keys (d : entries) (k v : value) (kv : value * value) :
  In kv (dict_set d k v) -> In (fst kv) (dict_keys d) \/ fst kv = k.
Proof.
  induction d as [|[k' v'] d IH]; cbn [dict_set].
  - intros [<-|[]]. now right.
  - destruct (py_eq k' k).
    + intros [<-|Hin]; left; [now left | right; now apply in_map].
    + intros [<-|Hin]; [left; now left|].
      destruct (IH Hin) as [Hd|Hk]; [left; now right | now right].
Qed.

Lemma compare_dict_loop_keys `{Host}
  (cmp : value -> value -> string -> M value) (self : DeepDelta)
  (lhs rhs : entries) (l_keys r_keys : list value) (dict_path : string)
  (P : value -> Prop) (all_keys : list value) :
  (forall k, result (is_excluded self (join_path dict_path k)) = Ok false -> P k) ->
  forall delta delta',
    result (compare_dict_loop cmp self lhs rhs l_keys r_keys dict_path delta all_keys)
    = Ok delta' ->
    Forall P (dict_keys delta) -> Forall P (dict_keys delta').
Proof.
  intros HP. induction all_keys as [|key rest IH]; intros delta delta' Hres Hdelta.
  - injection Hres as <-. exact Hdelta.
  - cbn [compare_dict_loop] in Hres.
    apply result_bind_ok in Hres as (excluded & Hex & Hres).
    destruct excluded; [now apply (IH delta)|].
    apply result_bind_ok in Hres as (v & Hv & Hres).
    apply result_bind_ok in Hres as (d1 & Hd1 & Hres).
    apply (IH d1 delta' Hres).
    unfold dict_store in Hd1. cbn [lift result snd] in Hd1.
    destruct (hashable key); [|discriminate]. injection Hd1 as <-.
    apply Forall_forall. intros k Hk.
    apply in_map_iff in Hk as (kv & <- & Hin).
    destruct (dict_set_keys _ _ _ _ Hin) as [Hold | ->].
    + rewrite Forall_forall in Hdelta. now apply Hdelta.
    + now apply HP.
Qed.

(** X19.  Every entry of the dict [compare_dict] returns has a key whose
    path is not excluded and a value that [delta_to_keep] keeps: an excluded
    key is never reported, whatever the two dicts hold. *)
Theorem compare_dict_reports_kept_unexcluded (h : Host) (depth : nat)
  (self : DeepDelta) (lhs rhs : value) (dict_path : string)
  (reported : entries) :
  result (compare_dict depth self lhs rhs dict_path) = Ok (VDict reported) ->
  Forall (fun kv =>
            result (is_excluded self (join_path dict_path (fst kv))) = Ok false
            /\ result (delta_to_keep self (snd kv)) = Ok true)
         reported.
Proof.
  unfold compare_dict, compare_dict_with. intros Hres.
  apply result_bind_ok in Hres as (l_all & _ & Hres).
  apply result_bind_ok in Hres as (l_keys & _ & Hres).
  apply result_bind_ok in Hres as (r_all & _ & Hres).
  apply result_bind_ok in Hres as (r_keys & _ & Hres).
  apply result_bind_ok in Hres as (all_keys & _ & Hres).
  destruct lhs as [| | | | | | |l| | | |]; try discriminate.
  destruct rhs as [| | | | | | |r| | | |]; try discriminate.
  apply result_bind_ok in Hres as (delta & Hdelta & Hres).
  apply result_bind_ok in Hres as (kept & Hkept & Hres).
  injection Hres as <-.
  apply filterM_sound in Hkept.
  pose proof (compare_dict_loop_keys _ self l r l_keys r_keys dict_path
                (fun k => result (is_excluded self (join_path dict_path k)) = Ok false)
                _ (fun k Hk => Hk) [] delta Hdelta (Forall_nil _)) as Hkeys.
  rewrite Forall_forall in Hkeys.
  eapply Forall_impl; [|exact Hkept].
  intros kv [Hin Hkeep]. split; [|exact Hkeep].
  apply Hkeys. now apply in_map.
Qed.

(** X19 with the key ['secret'] excluded: of two keys whose values differ,
    only ['a'] is reported. *)
Lemma compare_dict_reports_kept_unexcluded_witness :
  exists self,
    init (H := AsciiHost.host) (DeltaOutput.Output_Buffer (H := AsciiHost.host))
      None None None [VStr "secret"] = Ok self
    /\ Forall (fun kv =>
                 result (is_excluded (H := AsciiHost.host) self
                           (join_path (H := AsciiHost.host) "" (fst kv)))
                 = Ok false
                 /\ result (delta_to_keep self (snd kv)) = Ok true)
              [(VStr "a", VTuple [VInt 1; VInt 2])].
Proof.
  eexists. split; [reflexivity|].
  apply (compare_dict_reports_kept_unexcluded AsciiHost.host 1 _
           (VDict [(VStr "a", VInt 1); (VStr "secret", VInt 2)])
           (VDict [(VStr "a", VInt 2); (VStr "secret", VInt 3)]) "").
  reflexivity.
Defined.

Lemma set_union_sound (xs ys : list value) (k : value) :
  In k (set_union xs ys) -> In k xs \/ In k ys.
Proof.
  unfold set_union. revert xs. induction ys as [|y ys IH]; intros xs Hk.
  - now left.
  - cbn [fold_left] in Hk. destruct (IH _ Hk) as [Hx|Hy]; [|right; now right].
    unfold set_add in Hx. destruct (set_mem xs y); [now left|].
    apply in_app_or in Hx as [Hx|[<-|[]]]; [now left | right; now left].
Qed.

Lemma compare_dict_loop_stores `{Host}
  (cmp : value -> value -> string -> M value) (self : DeepDelta)
  (lhs rhs : entries) (l_keys r_keys : list value) (dict_path : string)
  (all_keys : list value) :
  forall delta delta',
    result (compare_dict_loop cmp self lhs rhs l_keys r_keys dict_path delta all_keys)
    = Ok delta' ->
    forall k, In k (dict_keys delta') -> In k (dict_keys delta) \/ In k all_keys.
Proof.
  induction all_keys as [|key rest IH]; intros delta delta' Hres k Hk.
  - injection Hres as <-. now left.
  - cbn [compare_dict_loop] in Hres.
    apply result_bind_ok in Hres as (excluded & Hex & Hres).
    destruct excluded.
    + destruct (IH _ _ Hres k Hk) as [Hd|Hr]; [now left | right; now right].
    + apply result_bind_ok in Hres as (v & Hv & Hres).
      apply result_bind_ok in Hres as (d1 & Hd1 & Hres).
      destruct (IH _ _ Hres k Hk) as [Hd|Hr]; [|right; now right].
      unfold dict_store in Hd1. cbn [lift result snd] in Hd1.
      destruct (hashable key); [|discriminate]. injection Hd1 as <-.
      apply in_map_iff in Hd as (kv & <- & Hin).
      destruct (dict_set_keys _ _ _ _ Hin) as [Hold | ->];
        [now left | right; now left].
Qed.

(** X20.  On a host whose sets are iterated element by element, every key of
    the dict [compare_dict] returns is the normalized form of a key of one
    of the two dicts: its [str()], case-folded when [KeyCaseIgnored] is set,
    and not trimmed. A difference under the key [1] or ['Name'] is reported
    under ['1'] or ['name']. *)
Theorem compare_dict_keys_are_normalized (h : Host) (depth : nat)
  (self : DeepDelta) (lhs rhs : entries) (dict_path : string)
  (reported : entries) :
  iterates_elements h ->
  result (compare_dict depth self (VDict lhs) (VDict rhs) dict_path)
  = Ok (VDict reported) ->
  Forall (fun kv =>
            exists k, (In k (dict_keys lhs) \/ In k (dict_keys rhs))
              /\ fst kv = normalize k (matches (_config self) KeyCaseIgnored None)
                            false)
         reported.
Proof.
  intros Hiter. unfold compare_dict, compare_dict_with. intros Hres.
  cbn [keys_of] in Hres. rewrite bind_lift_ok in Hres.
  apply result_bind_ok in Hres as (l_keys & Hl & Hres).
  rewrite bind_lift_ok in Hres.
  apply result_bind_ok in Hres as (r_keys & Hr & Hres).
  apply result_bind_ok in Hres as (all_keys & Hall & Hres).
  apply result_bind_ok in Hres as (delta & Hdelta & Hres).
  apply result_bind_ok in Hres as (kept & Hkept & Hres).
  injection Hres as <-.
  apply filterM_sound in Hkept.
  eapply Forall_impl; [|exact Hkept].
  intros kv [Hin _].
  destruct (compare_dict_loop_stores _ _ _ _ _ _ _ _ _ _ Hdelta (fst kv)
              (in_map fst _ _ Hin)) as [[]|Hkey].
  apply (Permutation_in _ (Hiter all_keys)) in Hkey.
  cbn [lift result snd] in Hall.
  destruct (set_fill_sound _ _ _ Hall _ Hkey) as [[]|[Hnorm _]].
  apply in_map_iff in Hnorm as (k & Hk & Hunion).
  exists k. split; [|now symmetry].
  apply (Permutation_in _ (Hiter _)) in Hunion.
  destruct (set_union_sound _ _ _ Hunion) as [Hkl|Hkr]; [left | right].
  - destruct (set_comp_sound _ _ _ _ Hl k Hkl) as [[]|Hd]. exact Hd.
  - destruct (set_comp_sound _ _ _ _ Hr k Hkr) as [[]|Hd]. exact Hd.
Qed.

(** X20 on [{1: 1, 'Name': 2}] against [{1: 2, 'Name': 3}] under the default
    configuration. *)
Lemma compare_dict_keys_are_normalized_witness :
  Forall (fun kv =>
            exists k, (In k [VInt 1; VStr "Name"] \/ In k [VInt 1; VStr "Name"])
              /\ fst kv = normalize (H := AsciiHost.host) k true false)
         [(VStr "1", VTuple [VInt 1; VInt 2]);
          (VStr "name", VTuple [VInt 2; VInt 3])].
Proof.
  assert (Hhost : iterates_elements AsciiHost.host)
    by (intros xs; apply Permutation_refl).
  exact (compare_dict_keys_are_normalized AsciiHost.host 1 Samples.default_engine
           [(VInt 1, VInt 1); (VStr "Name", VInt 2)]
           [(VInt 1, VInt 2); (VStr "Name", VInt 3)] EmptyString _ Hhost eq_refl).
Defined.

(** ** Dicts with plain keys *)

Lemma set_union_strings (ls rs : list string) :
  set_union (map VStr ls) (map VStr rs) = map VStr (fold_left add_name rs ls).
Proof.
  unfold set_union. revert ls. induction rs as [|r rs IH]; intros ls; [reflexivity|].
  cbn [map fold_left]. unfold set_add at 2. rewrite set_mem_strings.
  unfold add_name at 2.
  destruct (existsb _ ls); [apply IH|].
  change [VStr r] with (map VStr [r]). rewrite <- map_app. apply IH.
Qed.

Lemma add_names_spec (rs ls : list string) :
  NoDup ls ->
  NoDup (fold_left add_name rs ls)
  /\ forall s, In s (fold_left add_name rs ls) <-> In s ls \/ In s rs.
Proof.
  revert ls. induction rs as [|r rs IH]; intros ls Hnd.
  - split; [exact Hnd|]. intros s. cbn. tauto.
  - cbn [fold_left]. unfold add_name at 2 4.
    destruct (existsb (fun k => String.eqb k r) ls) eqn:Hmem.
    + destruct (IH ls Hnd) as [Hnd' Hin]. split; [exact Hnd'|].
      intros s. rewrite Hin. apply existsb_eqb_in in Hmem. cbn.
      split; [tauto|]. intros [Hl|[<-|Hr]]; tauto.
    + apply existsb_eqb_not_in in Hmem.
      assert (Hnd1 : NoDup (ls ++ [r])).
      { apply NoDup_app; [exact Hnd | repeat constructor; intros [] | ].
        intros x Hx [<-|[]]. contradiction. }
      destruct (IH _ Hnd1) as [Hnd' Hin]. split; [exact Hnd'|].
      intros s. rewrite Hin, in_app_iff. cbn. tauto.
Qed.

Lemma permutation_of_strings (xs : list value) (ss : list string) :
  Permutation xs (map VStr ss) ->
  exists ss', xs = map VStr ss' /\ Permutation ss ss'.
Proof. apply Permutation_map_inv. Qed.

Lemma normalize_plain `{Host} (s : string) (ci st : bool) :
  plain s -> normalize (VStr s) ci st = VStr s.
Proof.
  intros (_ & Hfold & Hstrip). cbn [normalize]. unfold normalize_str.
  destruct ci; rewrite ?Hfold; destruct st; now rewrite ?Hstrip.
Qed.

Lemma key_matches_plain `{Host} (k s : string) (ci : bool) :
  plain k -> plain s ->
  key_matches (VStr k) (VStr s) ci = ret (String.eqb k s).
Proof.
  intros (Hk & Hkf & _) (Hs & Hsf & _). cbn [key_matches].
  unfold key_matches_str. rewrite Hk. cbn [negb].
  rewrite (split_without _ _ Hs). cbn [last].
  destruct ci; now rewrite ?Hkf, ?Hsf.
Qed.

Lemma filter_name (ss : list string) (s : string) :
  NoDup ss ->
  filter (fun k => String.eqb k s) ss = if existsb (fun k => String.eqb k s) ss
                                        then [s] else [].
Proof.
  induction 1 as [|k ss Hk Hnd IH]; [reflexivity|].
  cbn [filter existsb]. destruct (String.eqb_spec k s) as [->|Hne].
  - cbn [orb]. apply existsb_eqb_not_in in Hk. rewrite Hk in IH. now rewrite IH.
  - exact IH.
Qed.

Lemma filter_map_names (q : string -> bool) (ss : list string) :
  filter (fun v => match v with VStr k => q k | _ => false end) (map VStr ss)
  = map VStr (filter q ss).
Proof.
  induction ss as [|k ss IH]; [reflexivity|].
  cbn [map filter]. destruct (q k); cbn [map]; now rewrite IH.
Qed.

Lemma existsb_permutation {A} (f : A -> bool) (xs ys : list A) :
  Permutation xs ys -> existsb f xs = existsb f ys.
Proof.
  induction 1 as [|x xs ys _ IH|x y xs|xs ys zs _ IH1 _ IH2]; cbn [existsb].
  - reflexivity.
  - now rewrite IH.
  - now rewrite !orb_assoc, (orb_comm (f y)).
  - congruence.
Qed.

(** [matched_keys] among plain keys: the key itself when the side has it,
    nothing otherwise, and no warning. *)
Lemma matched_keys_plain `{Host} (s : string) (keys : list value)
  (ss : list string) (ci st : bool) :
  Permutation keys (map VStr ss) -> NoDup ss ->
  Forall plain ss -> plain s ->
  matched_keys (VStr s) keys ci st
  = ret (if existsb (fun k => String.eqb k s) ss then [VStr s] else []).
Proof.
  intros Hperm Hnd Hplain Hs.
  destruct (permutation_of_strings _ _ Hperm) as (ss' & -> & Hperm').
  unfold matched_keys. rewrite (normalize_plain s ci st Hs).
  rewrite (filterM_pure _ (fun v => match v with
                                    | VStr k => String.eqb k s
                                    | _ => false
                                    end)).
  - rewrite bind_ret, filter_map_names, filter_name
      by (eapply Permutation_NoDup; eassumption).
    rewrite <- (existsb_permutation _ _ _ Hperm').
    destruct (existsb _ ss); cbn [map List.length Nat.ltb Nat.leb];
      now rewrite bind_ret.
  - intros v Hv. apply in_map_iff in Hv as (k & <- & Hk).
    apply key_matches_plain; [|exact Hs].
    rewrite Forall_forall in Hplain. apply Hplain.
    eapply Permutation_in; [apply Permutation_sym; exact Hperm' | exact Hk].
Qed.

Lemma is_excluded_nothing `{Host} (self : DeepDelta) (key_path : string) :
  keys_excluded self = [] -> is_excluded self key_path = ret false.
Proof. unfold is_excluded. now intros ->. Qed.

Lemma not_excluded_nothing `{Host} (self : DeepDelta) (dict_path : string) (k : value) :
  keys_excluded self = [] -> not_excluded self dict_path k = ret true.
Proof.
  intros Hex. unfold not_excluded.
  now rewrite (is_excluded_nothing self _ Hex), bind_ret.
Qed.

Lemma get_named_comparator_nothing `{Host} (self : DeepDelta) (key_path : string) :
  named_comparators self = [] -> get_named_comparator self key_path = ret None.
Proof. unfold get_named_comparator. now intros ->. Qed.

Lemma dict_get_names (d : entries) (ss : list string) (s : string) :
  dict_keys d = map VStr ss ->
  existsb (fun k => String.eqb k s) ss
  = match dict_get d (VStr s) with Some _ => true | None => false end.
Proof.
  revert ss. induction d as [|[k v] d IH]; intros [|k' ss] Hkeys;
    try discriminate; [reflexivity|].
  cbn [dict_keys map fst] in Hkeys. injection Hkeys as -> Hkeys.
  cbn [existsb dict_get py_eq].
  destruct (String.eqb k' s); [reflexivity|]. now apply IH.
Qed.

Lemma side_value_plain (self : DeepDelta) (side : entries) (ss : list string)
  (s : string) :
  dict_keys side = map VStr ss ->
  side_value self side
    (if existsb (fun k => String.eqb k s) ss then [VStr s] else [])
  = ret (side_of self side s).
Proof.
  intros Hkeys. rewrite (dict_get_names side ss s Hkeys). unfold side_of.
  destruct (dict_get side (VStr s)) as [v|] eqn:Hget; [|reflexivity].
  cbn [side_value last getitem hashable]. now rewrite Hget.
Qed.

Lemma compare_dict_entry_names `{Host}
  (cmp : value -> value -> string -> M value) (self : DeepDelta)
  (lhs rhs : entries) (l_keys r_keys : list value) (ls rs : list string)
  (dict_path s : string) :
  result (get_named_comparator self (join_path dict_path (VStr s))) = Ok None ->
  dict_keys lhs = map VStr ls -> dict_keys rhs = map VStr rs ->
  Permutation (set_iter l_keys) (map VStr ls) ->
  Permutation (set_iter r_keys) (map VStr rs) ->
  NoDup ls -> NoDup rs -> Forall plain ls -> Forall plain rs -> plain s ->
  compare_dict_entry cmp self lhs rhs l_keys r_keys dict_path (VStr s)
  = entry_of cmp self lhs rhs dict_path s.
Proof.
  intros Hnamed Hl Hr Hlk Hrk Hndl Hndr Hpl Hpr Hs.
  unfold compare_dict_entry.
  rewrite (matched_keys_plain s _ ls _ _ Hlk Hndl Hpl Hs), bind_ret.
  rewrite (matched_keys_plain s _ rs _ _ Hrk Hndr Hpr Hs), bind_ret.
  rewrite (side_value_plain self lhs ls s Hl), bind_ret.
  rewrite (side_value_plain self rhs rs s Hr), bind_ret.
  rewrite (get_named_comparator_silent self _ _ Hnamed).
  etransitivity; [apply bind_ret|reflexivity].
Qed.

Lemma compare_dict_entry_plain `{Host}
  (cmp : value -> value -> string -> M value) (self : DeepDelta)
  (lhs rhs : entries) (l_keys r_keys : list value) (ls rs : list string)
  (dict_path s : string) :
  named_comparators self = [] ->
  dict_keys lhs = map VStr ls -> dict_keys rhs = map VStr rs ->
  Permutation (set_iter l_keys) (map VStr ls) ->
  Permutation (set_iter r_keys) (map VStr rs) ->
  NoDup ls -> NoDup rs -> Forall plain ls -> Forall plain rs -> plain s ->
  compare_dict_entry cmp self lhs rhs l_keys r_keys dict_path (VStr s)
  = entry_of cmp self lhs rhs dict_path s.
Proof.
  intros Hnamed. apply compare_dict_entry_names.
  now rewrite (get_named_comparator_nothing self _ Hnamed).
Qed.

(** The dict the loop leaves when every turn returns normally. *)
Lemma compare_dict_loop_pure `{Host}
  (cmp : value -> value -> string -> M value) (self : DeepDelta)
  (lhs rhs : entries) (l_keys r_keys : list value) (dict_path : string)
  (e : string -> value) (order : list string) (done : list string) :
  keys_excluded self = [] ->
  (forall s, In s order ->
     compare_dict_entry cmp self lhs rhs l_keys r_keys dict_path (VStr s)
     = ret (e s)) ->
  NoDup (done ++ order) ->
  compare_dict_loop cmp self lhs rhs l_keys r_keys dict_path
    (map (fun s => (VStr s, e s)) done) (map VStr order)
  = ret (map (fun s => (VStr s, e s)) (done ++ order)).
Proof.
  intros Hex. revert done. induction order as [|s order IH]; intros done He Hnd.
  - now rewrite app_nil_r.
  - cbn [map compare_dict_loop].
    rewrite (is_excluded_nothing self _ Hex), bind_ret.
    rewrite (He s (or_introl eq_refl)), bind_ret.
    unfold dict_store. cbn [hashable]. rewrite bind_lift_ok.
    rewrite dict_set_absent.
    + change [(VStr s, e s)] with (map (fun s => (VStr s, e s)) [s]).
      rewrite <- map_app, IH.
      * now rewrite <- app_assoc.
      * intros s' Hs'. apply He. now right.
      * now rewrite <- app_assoc.
    + apply Forall_forall. intros kv Hkv.
      apply in_map_iff in Hkv as (k & <- & Hk). cbn [fst py_eq].
      apply String.eqb_neq. intros ->.
      apply NoDup_remove_2 in Hnd. apply Hnd, in_or_app. now left.
Qed.

(** When some turn raises, the turns before it returning normally, the
    loop raises. *)
Lemma compare_dict_loop_raises `{Host}
  (cmp : value -> value -> string -> M value) (self : DeepDelta)
  (lhs rhs : entries) (l_keys r_keys : list value) (dict_path : string)
  (x : exn) (order : list string) (delta : entries) :
  keys_excluded self = [] ->
  (forall s, In s order ->
     (exists v, compare_dict_entry cmp self lhs rhs l_keys r_keys dict_path (VStr s)
                = ret v)
     \/ compare_dict_entry cmp self lhs rhs l_keys r_keys dict_path (VStr s)
        = raise x) ->
  (exists s, In s order
             /\ compare_dict_entry cmp self lhs rhs l_keys r_keys dict_path (VStr s)
                = raise x) ->
  compare_dict_loop cmp self lhs rhs l_keys r_keys dict_path delta (map VStr order)
  = raise x.
Proof.
  intros Hex. revert delta. induction order as [|s order IH]; intros delta He Hbad.
  - destruct Hbad as (s & [] & _).
  - cbn [map compare_dict_loop].
    rewrite (is_excluded_nothing self _ Hex), bind_ret.
    destruct (He s (or_introl eq_refl)) as [[v Hv]|Hraise].
    + rewrite Hv, bind_ret. unfold dict_store. cbn [hashable].
      rewrite bind_lift_ok. apply IH.
      * intros s' Hs'. apply He. now right.
      * destruct Hbad as (s' & [<-|Hs'] & Hraise).
        -- rewrite Hv in Hraise. discriminate.
        -- now exists s'.
    + now rewrite Hraise.
Qed.

Lemma filter_map_entries (e : string -> value) (keep : string -> bool)
  (ss : list string) :
  filter (fun kv : value * value =>
            match fst kv with VStr s => keep s | _ => false end)
         (map (fun s => (VStr s, e s)) ss)
  = map (fun s => (VStr s, e s)) (filter keep ss).
Proof.
  induction ss as [|s ss IH]; [reflexivity|].
  cbn [map filter fst]. destruct (keep s); cbn [map]; now rewrite IH.
Qed.

(** [compare_dict] on two dicts with plain keys, without excluded keys or
    named comparators: the loop runs over the names of both sides, each
    once, in the order the host iterates them, and every turn stores the
    entry of its name. *)
Lemma compare_dict_with_names `{Host}
  (cmp : value -> value -> string -> M value) (self : DeepDelta)
  (lhs rhs : entries) (ls rs : list string) (dict_path : string) :
  iterates_elements H ->
  keys_excluded self = [] ->
  dict_keys lhs = map VStr ls -> dict_keys rhs = map VStr rs ->
  NoDup ls -> NoDup rs -> Forall plain ls -> Forall plain rs ->
  exists order,
    NoDup order /\ (forall s, In s order <-> In s ls \/ In s rs)
    /\ compare_dict_with cmp self (VDict lhs) (VDict rhs) dict_path
       = (delta <- compare_dict_loop cmp self lhs rhs (map VStr ls) (map VStr rs)
                     dict_path [] (map VStr order) ;;
          kept <- filterM (fun kv => delta_to_keep self (snd kv)) delta ;;
          ret (VDict kept)).
Proof.
  intros Hiter Hex Hl Hr Hndl Hndr Hpl Hpr.
  unfold compare_dict_with. cbn [keys_of]. rewrite Hl, Hr.
  rewrite bind_lift_ok.
  rewrite (set_comp_names _ ls) by (auto using not_excluded_nothing).
  rewrite bind_ret, bind_lift_ok.
  rewrite (set_comp_names _ rs) by (auto using not_excluded_nothing).
  rewrite bind_ret.
  rewrite set_union_strings.
  destruct (add_names_spec rs ls Hndl) as [Hndu Hinu].
  set (us := fold_left add_name rs ls) in *.
  destruct (permutation_of_strings _ _ (Hiter (map VStr us))) as (us1 & Hus1 & Hp1).
  rewrite Hus1.
  assert (Hplain_u : forall s, In s ls \/ In s rs -> plain s).
  { rewrite Forall_forall in Hpl, Hpr. intros s [Hs|Hs]; auto. }
  assert (Hin1 : forall s, In s us1 <-> In s ls \/ In s rs).
  { intros s. rewrite <- Hinu. split; apply Permutation_in;
      [apply Permutation_sym|]; exact Hp1. }
  assert (Hnorm : map (fun k => normalize k (matches (_config self) KeyCaseIgnored None) false)
                      (map VStr us1) = map VStr us1).
  { rewrite map_map. apply map_ext_in. intros s Hs.
    apply normalize_plain, Hplain_u, Hin1, Hs. }
  rewrite Hnorm.
  assert (Hnd1 : NoDup us1) by (eapply Permutation_NoDup; eassumption).
  rewrite (set_of_names us1 Hnd1), bind_lift_ok.
  destruct (permutation_of_strings _ _ (Hiter (map VStr us1))) as (us2 & Hus2 & Hp2).
  rewrite Hus2.
  assert (Hnd2 : NoDup us2) by (eapply Permutation_NoDup; eassumption).
  assert (Hin2 : forall s, In s us2 <-> In s ls \/ In s rs).
  { intros s. rewrite <- Hin1. split; apply Permutation_in;
      [apply Permutation_sym|]; exact Hp2. }
  exists us2. split; [exact Hnd2|]. split; [exact Hin2|reflexivity].
Qed.

Lemma compare_dict_with_plain_loop `{Host}
  (cmp : value -> value -> string -> M value) (self : DeepDelta)
  (lhs rhs : entries) (ls rs : list string) (dict_path : string) :
  iterates_elements H ->
  keys_excluded self = [] -> named_comparators self = [] ->
  dict_keys lhs = map VStr ls -> dict_keys rhs = map VStr rs ->
  NoDup ls -> NoDup rs -> Forall plain ls -> Forall plain rs ->
  exists order l_keys r_keys,
    NoDup order /\ (forall s, In s order <-> In s ls \/ In s rs)
    /\ (forall s, In s order ->
          compare_dict_entry cmp self lhs rhs l_keys r_keys dict_path (VStr s)
          = entry_of cmp self lhs rhs dict_path s)
    /\ compare_dict_with cmp self (VDict lhs) (VDict rhs) dict_path
       = (delta <- compare_dict_loop cmp self lhs rhs l_keys r_keys dict_path
                     [] (map VStr order) ;;
          kept <- filterM (fun kv => delta_to_keep self (snd kv)) delta ;;
          ret (VDict kept)).
Proof.
  intros Hiter Hex Hnamed Hl Hr Hndl Hndr Hpl Hpr.
  destruct (compare_dict_with_names cmp self lhs rhs ls rs dict_path
              Hiter Hex Hl Hr Hndl Hndr Hpl Hpr)
    as (order & Hnd & Hin & Heq).
  exists order, (map VStr ls), (map VStr rs).
  split; [exact Hnd|]. split; [exact Hin|]. split; [|exact Heq].
  intros s Hs.
  apply (compare_dict_entry_plain cmp self lhs rhs _ _ ls rs); auto.
  rewrite Forall_forall in Hpl, Hpr.
  destruct (proj1 (Hin s) Hs); auto.
Qed.

(** When every entry and every filtering step returns normally: the names
    of both sides, each with its entry, filtered. *)
Lemma compare_dict_with_plain `{Host}
  (cmp : value -> value -> string -> M value) (self : DeepDelta)
  (lhs rhs : entries) (ls rs : list string) (dict_path : string)
  (e : string -> value) (keep : string -> bool) :
  iterates_elements H ->
  keys_excluded self = [] -> named_comparators self = [] ->
  dict_keys lhs = map VStr ls -> dict_keys rhs = map VStr rs ->
  NoDup ls -> NoDup rs -> Forall plain ls -> Forall plain rs ->
  (forall s, In s ls \/ In s rs ->
     entry_of cmp self lhs rhs dict_path s = ret (e s)) ->
  (forall s, In s ls \/ In s rs -> delta_to_keep self (e s) = ret (keep s)) ->
  exists order,
    NoDup order /\ (forall s, In s order <-> In s ls \/ In s rs)
    /\ compare_dict_with cmp self (VDict lhs) (VDict rhs) dict_path
       = ret (VDict (map (fun s => (VStr s, e s)) (filter keep order))).
Proof.
  intros Hiter Hex Hnamed Hl Hr Hndl Hndr Hpl Hpr He Hkeep.
  destruct (compare_dict_with_plain_loop cmp self lhs rhs ls rs dict_path
              Hiter Hex Hnamed Hl Hr Hndl Hndr Hpl Hpr)
    as (order & l_keys & r_keys & Hnd & Hin & Hentry & ->).
  exists order. split; [exact Hnd|]. split; [exact Hin|].
  change (@nil (value * value)) with (map (fun s => (VStr s, e s)) []).
  rewrite (compare_dict_loop_pure cmp self lhs rhs _ _ dict_path e order [] Hex);
    [| | exact Hnd].
  - rewrite bind_ret. cbn [app].
    rewrite (filterM_pure _ (fun kv : value * value =>
                               match fst kv with VStr s => keep s | _ => false end)).
    + now rewrite bind_ret, filter_map_entries.
    + intros kv Hkv. apply in_map_iff in Hkv as (s & <- & Hs).
      cbn [fst snd]. apply Hkeep, Hin, Hs.
  - intros s Hs. rewrite (Hentry s Hs). apply He, Hin, Hs.
Qed.

Lemma dict_get_reported (e : string -> value) (keep : string -> bool)
  (order : list string) (s : string) :
  dict_get (map (fun s => (VStr s, e s)) (filter keep order)) (VStr s)
  = if keep s && existsb (fun k => String.eqb k s) order then Some (e s) else None.
Proof.
  induction order as [|k order IH]; [now rewrite andb_false_r|].
  cbn [filter existsb]. destruct (String.eqb_spec k s) as [->|Hne].
  - cbn [orb]. rewrite andb_true_r. destruct (keep s) eqn:Hk.
    + cbn [map dict_get py_eq]. now rewrite String.eqb_refl.
    + rewrite IH. reflexivity.
  - cbn [orb]. destruct (keep k); [|exact IH].
    cbn [map dict_get py_eq]. apply String.eqb_neq in Hne. now rewrite Hne.
Qed.

(** ** Dicts and lists of ints under the default comparison *)

Lemma compare_any_two_ints `{Host} (depth : nat) (self : DeepDelta) (a b : Z)
  (key_path : option string) :
  typed_equal self
  = with_comparators None (matches (_config self) NoneUnequalDefault None) ->
  result (get_named_comparator self (or_empty key_path)) = Ok None ->
  compare_any (S depth) self (VInt a) (VInt b) key_path
  = as_delta self (VBool (negb (Z.eqb a b))) (VInt a) (VInt b).
Proof.
  intros Htyped Hnamed.
  destruct (Z.eqb a b) eqn:Hab.
  - now apply compare_any_equal.
  - rewrite (compare_any_typed depth self _ _ key_path Hnamed);
      try reflexivity; [|exact Hab].
    rewrite Htyped.
    destruct (matches (_config self) NoneUnequalDefault None);
      (etransitivity; [apply bind_ret|]); cbn; now rewrite Hab.
Qed.

(** The output method of [OutputDefault] as [__init__] installs it, and
    what [delta_to_keep] makes of its results. *)
Lemma as_delta_default `{Host} (options : option Z) (tc : option table)
  (named : option (list (value * named_comparator))) (excluded : list value)
  (self : DeepDelta) (d : bool) (l r : value) :
  init DeltaOutput.Output_Buffer options tc named excluded = Ok self ->
  Z.land (_config self) OutputFormatMask = 0%Z ->
  as_delta self (VBool d) l r
  = ret (if d then VTuple [DeltaOutput.get_value_abbrev l;
                           DeltaOutput.get_value_abbrev r]
         else VNone).
Proof.
  intros Hinit Hbits. destruct (init_ok _ _ _ _ _ _ Hinit) as (Hout & _).
  unfold DeltaOutput.get_output in Hout. rewrite Hbits in Hout.
  cbn [DeltaOutput.buffer_get DeltaOutput.Output_Buffer] in Hout.
  change (Z.eqb OutputDefault 0) with true in Hout. cbv iota in Hout.
  unfold as_delta.
  destruct (matches (_config self) OutputKeepAllDetails None);
    injection Hout as <-; destruct d; try reflexivity.
  all: unfold DeltaOutput.no_flag_tuple_abbrev; cbn [truthy].
  all: now rewrite !get_value_abbrev_twice.
Qed.

Lemma delta_to_keep_default (self : DeepDelta) (v : value) :
  Z.land (_config self) OutputFormatMask = 0%Z ->
  delta_to_keep self v = ret (truthy v).
Proof.
  intros Hbits. unfold delta_to_keep.
  assert (Hkeep : matches (_config self) OutputKeepAllDetails None = false).
  { unfold matches, mask_or.
    change OutputKeepAllDetails with (Z.land OutputFormatMask OutputKeepAllDetails) at 1.
    now rewrite Z.land_assoc, Hbits. }
  assert (Hflag : matches (_config self) OutputWithFlag None = false).
  { unfold matches, mask_or.
    change OutputWithFlag with (Z.land OutputFormatMask OutputWithFlag) at 1.
    now rewrite Z.land_assoc, Hbits. }
  rewrite Hkeep, Hflag. cbn [andb].
  destruct v; try reflexivity; now destruct (is_collection_type _).
Qed.

Lemma int_entries_keys (kvs : list (string * Z)) :
  dict_keys (int_entries kvs) = map VStr (map fst kvs).
Proof. unfold dict_keys, int_entries. now rewrite !map_map. Qed.

Lemma int_entries_get (kvs : list (string * Z)) (s : string) :
  dict_get (int_entries kvs) (VStr s) = option_map VInt (int_field kvs s).
Proof.
  induction kvs as [|[k n] kvs IH]; [reflexivity|].
  cbn [int_entries map dict_get fst snd py_eq int_field].
  destruct (String.eqb k s); [reflexivity | exact IH].
Qed.

Lemma int_field_in (kvs : list (string * Z)) (s : string) (n : Z) :
  int_field kvs s = Some n -> In (s, n) kvs.
Proof.
  induction kvs as [|[k m] kvs IH]; [discriminate|].
  cbn [int_field]. destruct (String.eqb_spec k s) as [->|Hne].
  - intros [= ->]. now left.
  - intros Hs. right. now apply IH.
Qed.

Lemma int_field_name (kvs : list (string * Z)) (s : string) :
  int_field kvs s <> None -> In s (map fst kvs).
Proof.
  destruct (int_field kvs s) as [n|] eqn:Hn; [|contradiction].
  intros _. apply int_field_in in Hn. now apply (in_map fst) in Hn.
Qed.

(** The entry of a name in the comparison of two dicts of ints, when a
    missing key reads as [None]. *)
Lemma int_entry `{Host} (depth : nat) (options : option Z) (self : DeepDelta)
  (l r : list (string * Z)) (dict_path s : string) :
  init DeltaOutput.Output_Buffer options None None [] = Ok self ->
  Z.land (_config self) OutputFormatMask = 0%Z ->
  matches (_config self) MissingAsNone None = true ->
  entry_of (fun lv rv p => compare_any (S depth) self lv rv (Some p))
    self (int_entries l) (int_entries r) dict_path s
  = ret (match int_delta (matches (_config self) NoneUnequalDefault None)
                 (int_field l s) (int_field r s) with
         | Some v => v
         | None => VNone
         end).
Proof.
  intros Hinit Hbits Hmissing.
  destruct (init_ok _ _ _ _ _ _ Hinit) as (_ & Htyped & Hnamed & _).
  assert (Hnone : forall p, result (get_named_comparator self (or_empty (Some p)))
                            = Ok None).
  { intros p. now rewrite (get_named_comparator_nothing self _ Hnamed). }
  unfold entry_of, side_of. rewrite !int_entries_get, Hmissing.
  destruct (int_field l s) as [a|], (int_field r s) as [b|];
    cbn [option_map py_eq int_delta].
  - destruct (Z.eqb a b) eqn:Hab.
    + now rewrite (as_delta_default _ _ _ _ _ _ _ _ Hinit Hbits).
    + rewrite (compare_any_two_ints depth self a b _ Htyped (Hnone _)), Hab.
      now rewrite (as_delta_default _ _ _ _ _ _ _ _ Hinit Hbits).
  - destruct (compare_any_none_value depth self (VInt a)
                (Some (join_path dict_path (VStr s))) Htyped (Hnone _))
      as [_ ->]; [discriminate|].
    rewrite (as_delta_default _ _ _ _ _ _ _ _ Hinit Hbits). cbn [truthy].
    now destruct (_ || _).
  - destruct (compare_any_none_value depth self (VInt b)
                (Some (join_path dict_path (VStr s))) Htyped (Hnone _))
      as [-> _]; [discriminate|].
    rewrite (as_delta_default _ _ _ _ _ _ _ _ Hinit Hbits). cbn [truthy].
    now destruct (_ || _).
  - now rewrite (as_delta_default _ _ _ _ _ _ _ _ Hinit Hbits).
Qed.

(** [compare_dict] on two dicts from plain names to ints, for an engine
    built with the default type comparators, no named comparators, no
    excluded keys, the output of [OutputDefault] and [MissingAsNone]. *)
Lemma compare_int_entries `{Host} (depth : nat) (options : option Z)
  (self : DeepDelta) (l r : list (string * Z)) (dict_path : string) :
  iterates_elements H ->
  init DeltaOutput.Output_Buffer options None None [] = Ok self ->
  Z.land (_config self) OutputFormatMask = 0%Z ->
  matches (_config self) MissingAsNone None = true ->
  NoDup (map fst l) -> NoDup (map fst r) ->
  Forall plain (map fst l) -> Forall plain (map fst r) ->
  exists d,
    compare_dict (S depth) self (int_dict l) (int_dict r) dict_path = ret (VDict d)
    /\ forall s, dict_get d (VStr s)
                 = int_delta (matches (_config self) NoneUnequalDefault None)
                     (int_field l s) (int_field r s).
Proof.
  intros Hiter Hinit Hbits Hmissing Hndl Hndr Hpl Hpr.
  destruct (init_ok _ _ _ _ _ _ Hinit) as (_ & _ & Hnamed & Hex & _).
  set (nud := matches (_config self) NoneUnequalDefault None).
  set (e := fun s => match int_delta nud (int_field l s) (int_field r s) with
                     | Some v => v
                     | None => VNone
                     end).
  destruct (compare_dict_with_plain
              (fun lv rv p => compare_any (S depth) self lv rv (Some p))
              self (int_entries l) (int_entries r) (map fst l) (map fst r)
              dict_path e (fun s => truthy (e s)) Hiter Hex Hnamed
              (int_entries_keys l) (int_entries_keys r) Hndl Hndr Hpl Hpr)
    as (order & Hnd & Hin & Hcmp).
  - intros s _. now apply (int_entry depth options).
  - intros s _. now apply delta_to_keep_default.
  - eexists. split; [exact Hcmp|].
    intros s. rewrite dict_get_reported. subst e. cbn beta.
    destruct (int_delta nud (int_field l s) (int_field r s)) as [v|] eqn:Hd;
      [|reflexivity].
    assert (Hs : existsb (fun k => String.eqb k s) order = true).
    { apply existsb_eqb_in, Hin.
      destruct (int_field l s) as [a|] eqn:Hl;
        [left; apply int_field_name; congruence|].
      destruct (int_field r s) as [b|] eqn:Hr;
        [right; apply int_field_name; congruence|].
      discriminate. }
    rewrite Hs, andb_true_r.
    assert (Hv : truthy v = true).
    { unfold int_delta in Hd.
      destruct (int_field l s), (int_field r s); try discriminate;
        match type of Hd with (if ?c then _ else _) = _ => destruct c end;
        try discriminate; now injection Hd as <-. }
    now rewrite Hv.
Qed.

(** [DeepDelta.compare] on two dicts that are not equal is [compare_dict]
    at the root path, and on two sequences that are not equal and not both
    strings it is [compare_sequence]. *)
Lemma compare_unequal_dicts `{Host} (depth : nat) (buf : DeltaOutput.buffer)
  (options : option Z) (tc : option table) (excluded : list value)
  (self : DeepDelta) (lhs rhs : value) :
  init buf options tc None excluded = Ok self ->
  is_mapping lhs = true -> is_mapping rhs = true ->
  py_eq lhs rhs = false ->
  compare (S depth) buf lhs rhs options tc None excluded
  = compare_dict depth self lhs rhs EmptyString.
Proof.
  intros Hinit Hl Hr Hne.
  destruct (init_ok _ _ _ _ _ _ Hinit) as (_ & _ & Hnamed & _).
  unfold compare. rewrite Hinit, bind_lift_ok.
  cbn [compare_any]. unfold compare_any_body.
  rewrite (get_named_comparator_nothing self _ Hnamed), bind_ret, Hne.
  assert (Hstr : is_str lhs = false) by (destruct lhs; easy).
  now rewrite Hstr, Hl, Hr.
Qed.

Lemma compare_unequal_lists `{Host} (depth : nat) (buf : DeltaOutput.buffer)
  (options : option Z) (tc : option table) (excluded : list value)
  (self : DeepDelta) (xs ys : list value) :
  init buf options tc None excluded = Ok self ->
  py_eq (VList xs) (VList ys) = false ->
  compare (S depth) buf (VList xs) (VList ys) options tc None excluded
  = compare_sequence depth self (VList xs) (VList ys) (Some EmptyString) None [].
Proof.
  intros Hinit Hne.
  destruct (init_ok _ _ _ _ _ _ Hinit) as (_ & _ & Hnamed & _).
  unfold compare. rewrite Hinit, bind_lift_ok.
  cbn [compare_any]. unfold compare_any_body.
  rewrite (get_named_comparator_nothing self _ Hnamed), bind_ret, Hne.
  reflexivity.
Qed.

(** X21.  Two dicts from names to ints, the names being plain (no separator,
    unchanged by case folding and trimming) and pairwise different on each
    side, compared by an engine built on the registry as shipped with the
    default type comparators, nothing named or excluded, the output of
    [OutputDefault] and [MissingAsNone], on a host whose sets are iterated
    element by element. [compare_dict] returns a dict that holds, for each
    name: the pair of the two ints when both sides have the name and the
    ints differ; the int paired with [None] when one side lacks the name and
    the int is not [0] or [NoneUnequalDefault] is set; no entry otherwise.
    [DeepDelta.compare] returns such a dict when the two dicts are not
    equal, and [None] when they are. *)
Theorem compare_dicts_of_ints (h : Host) (depth : nat) (options : option Z)
  (self : DeepDelta) (l r : list (string * Z)) (dict_path : string) :
  iterates_elements h ->
  init DeltaOutput.Output_Buffer options None None [] = Ok self ->
  Z.land (_config self) OutputFormatMask = 0%Z ->
  matches (_config self) MissingAsNone None = true ->
  NoDup (map fst l) -> NoDup (map fst r) ->
  Forall plain (map fst l) -> Forall plain (map fst r) ->
  let reported d :=
    forall s, dict_get d (VStr s)
              = int_delta (matches (_config self) NoneUnequalDefault None)
                  (int_field l s) (int_field r s) in
  (exists d,
     compare_dict (S depth) self (int_dict l) (int_dict r) dict_path = ret (VDict d)
     /\ reported d)
  /\ (py_eq (int_dict l) (int_dict r) = false ->
      exists d,
        compare (S (S depth)) DeltaOutput.Output_Buffer (int_dict l) (int_dict r)
          options None None [] = ret (VDict d)
        /\ reported d)
  /\ (py_eq (int_dict l) (int_dict r) = true ->
      compare (S (S depth)) DeltaOutput.Output_Buffer (int_dict l) (int_dict r)
        options None None [] = ret VNone).
Proof.
  intros Hiter Hinit Hbits Hmissing Hndl Hndr Hpl Hpr reported. subst reported.
  split; [|split].
  - now apply (compare_int_entries depth options).
  - intros Hne.
    rewrite (compare_unequal_dicts (S depth) _ options None [] self
               (int_dict l) (int_dict r) Hinit eq_refl eq_refl Hne).
    now apply (compare_int_entries depth options).
  - intros Heq.
    destruct (init_ok _ _ _ _ _ _ Hinit) as (_ & _ & Hnamed & _).
    unfold compare. rewrite Hinit, bind_lift_ok.
    rewrite (compare_any_equal _ self _ _ None); [|now rewrite
      (get_named_comparator_nothing self _ Hnamed)|exact Heq].
    now rewrite (as_delta_default _ _ _ _ _ _ _ _ Hinit Hbits).
Qed.

Lemma plain_ascii_a : plain (H := AsciiHost.host) "a".
Proof. repeat split. Qed.

Lemma plain_ascii_b : plain (H := AsciiHost.host) "b".
Proof. repeat split. Qed.

Lemma plain_ascii_c : plain (H := AsciiHost.host) "c".
Proof. repeat split. Qed.

Lemma nodup_abc : NoDup ["a"; "b"; "c"].
Proof.
  repeat constructor; cbn; intuition discriminate.
Qed.

Lemma nodup_a : NoDup ["a"].
Proof. repeat constructor. intros []. Qed.

Lemma nodup_ac : NoDup ["a"; "c"].
Proof.
  repeat constructor; cbn; intuition discriminate.
Qed.

(** X21 on [{'a': 1, 'b': 0, 'c': 5}] against [{'a': 2, 'c': 5}] under the
    default configuration: ['a'] is reported with [(1, 2)]; ['b'], whose [0]
    stands against a missing key, and ['c'] are not. *)
Lemma compare_dicts_of_ints_witness :
  exists d,
    compare (H := AsciiHost.host) 2 (DeltaOutput.Output_Buffer (H := AsciiHost.host))
      (int_dict [("a", 1%Z); ("b", 0%Z); ("c", 5%Z)])
      (int_dict [("a", 2%Z); ("c", 5%Z)]) None None None []
    = ret (VDict d)
    /\ dict_get d (VStr "a") = Some (VTuple [VInt 1; VInt 2])
    /\ dict_get d (VStr "b") = None
    /\ dict_get d (VStr "c") = None.
Proof.
  assert (Hhost : iterates_elements AsciiHost.host)
    by (intros xs; apply Permutation_refl).
  assert (Hinit : init (H := AsciiHost.host)
                    (DeltaOutput.Output_Buffer (H := AsciiHost.host))
                    None None None [] = Ok Samples.default_engine)
    by reflexivity.
  destruct (compare_dicts_of_ints AsciiHost.host 0 None Samples.default_engine
              [("a", 1%Z); ("b", 0%Z); ("c", 5%Z)] [("a", 2%Z); ("c", 5%Z)]
              EmptyString Hhost Hinit eq_refl eq_refl nodup_abc nodup_ac
              (Forall_cons _ plain_ascii_a
                 (Forall_cons _ plain_ascii_b
                    (Forall_cons _ plain_ascii_c (Forall_nil _))))
              (Forall_cons _ plain_ascii_a
                 (Forall_cons _ plain_ascii_c (Forall_nil _))))
    as (_ & Hcompare & _).
  destruct (Hcompare eq_refl) as (d & Hd & Hreported).
  exists d. split; [exact Hd|].
  repeat split; rewrite Hreported; reflexivity.
Defined.

(** The output methods of the registry as shipped return normally. *)
Lemma as_delta_shipped `{Host} (options : option Z) (tc : option table)
  (named : option (list (value * named_comparator))) (excluded : list value)
  (self : DeepDelta) (d l r : value) :
  init DeltaOutput.Output_Buffer options tc named excluded = Ok self ->
  exists v, as_delta self d l r = ret v.
Proof.
  intros Hinit. destruct (init_ok _ _ _ _ _ _ Hinit) as (Hout & _).
  unfold as_delta. unfold DeltaOutput.get_output in Hout.
  revert Hout.
  generalize (matches (_config self) OutputKeepAllDetails None) as keep_all.
  generalize (Z.land (_config self) OutputFormatMask) as bits.
  intros bits keep_all.
  cbn [DeltaOutput.buffer_get DeltaOutput.Output_Buffer].
  repeat match goal with
  | |- context [Z.eqb ?a bits] =>
      destruct (Z.eqb a bits);
        [ destruct keep_all; intros [= <-]; eexists; reflexivity | ]
  end.
  discriminate.
Qed.

(** X22.  In the setting of X21 but with an output method of
    [OutputKeepAllDetails] ([OutputAllDetails], [OutputNoneOrDictRaw] or
    [OutputNoneOrStrRaw]): [compare_dict] returns a dict with an entry for
    every name of either dict, the names whose values are equal included. *)
Theorem keep_all_details_reports_every_key (h : Host) (depth : nat)
  (options : option Z) (self : DeepDelta) (l r : list (string * Z))
  (dict_path : string) :
  iterates_elements h ->
  init DeltaOutput.Output_Buffer options None None [] = Ok self ->
  matches (_config self) OutputKeepAllDetails None = true ->
  matches (_config self) MissingAsNone None = true ->
  NoDup (map fst l) -> NoDup (map fst r) ->
  Forall plain (map fst l) -> Forall plain (map fst r) ->
  exists d,
    compare_dict (S depth) self (int_dict l) (int_dict r) dict_path = ret (VDict d)
    /\ forall s, dict_get d (VStr s) <> None
                 <-> In s (map fst l) \/ In s (map fst r).
Proof.
  intros Hiter Hinit Hkeep Hmissing Hndl Hndr Hpl Hpr.
  destruct (init_ok _ _ _ _ _ _ Hinit) as (_ & Htyped & Hnamed & Hex & _).
  assert (Hnone : forall p, result (get_named_comparator self (or_empty (Some p)))
                            = Ok None).
  { intros p. now rewrite (get_named_comparator_nothing self _ Hnamed). }
  set (cmp := fun lv rv p => compare_any (S depth) self lv rv (Some p)).
  assert (Hpure : forall s, exists v,
            entry_of cmp self (int_entries l) (int_entries r) dict_path s = ret v).
  { intros s. unfold entry_of, side_of, cmp. rewrite !int_entries_get, Hmissing.
    destruct (int_field l s) as [a|], (int_field r s) as [b|];
      cbn [option_map py_eq].
    - destruct (Z.eqb a b) eqn:Hab; [now apply (as_delta_shipped options None None [])|].
      rewrite (compare_any_two_ints depth self a b _ Htyped (Hnone _)).
      now apply (as_delta_shipped options None None []).
    - destruct (compare_any_none_value depth self (VInt a)
                  (Some (join_path dict_path (VStr s))) Htyped (Hnone _))
        as [_ ->]; [discriminate|].
      now apply (as_delta_shipped options None None []).
    - destruct (compare_any_none_value depth self (VInt b)
                  (Some (join_path dict_path (VStr s))) Htyped (Hnone _))
        as [-> _]; [discriminate|].
      now apply (as_delta_shipped options None None []).
    - now apply (as_delta_shipped options None None []). }
  set (e := fun s =>
              match result (entry_of cmp self (int_entries l) (int_entries r)
                              dict_path s) with
              | Ok v => v
              | Raise _ => VNone
              end).
  destruct (compare_dict_with_plain cmp self (int_entries l) (int_entries r)
              (map fst l) (map fst r) dict_path e (fun _ => true)
              Hiter Hex Hnamed (int_entries_keys l) (int_entries_keys r)
              Hndl Hndr Hpl Hpr)
    as (order & Hnd & Hin & Hcmp).
  - intros s _. subst e. cbn beta. destruct (Hpure s) as [v ->]. reflexivity.
  - intros s _. unfold delta_to_keep. now rewrite Hkeep.
  - eexists. split; [exact Hcmp|].
    intros s. rewrite dict_get_reported, <- Hin, <- existsb_eqb_in. cbn [andb].
    destruct (existsb (fun k => String.eqb k s) order); split;
      congruence.
Qed.

(** X22 on [{'a': 1, 'c': 5}] against itself with [OutputAllDetails]: the
    two names are reported although nothing differs. *)
Lemma keep_all_details_reports_every_key_witness :
  exists d,
    compare_dict (H := AsciiHost.host) 1
      {| _config := Z.lor DEFAULT_DELTA_CONFIG OutputAllDetails;
         output := DeltaOutput.type_included;
         typed_equal := with_comparators (H := AsciiHost.host) None false;
         named_comparators := [];
         keys_excluded := [] |}
      (int_dict [("a", 1%Z); ("c", 5%Z)]) (int_dict [("a", 1%Z); ("c", 5%Z)])
      EmptyString
    = ret (VDict d)
    /\ dict_get d (VStr "a") <> None /\ dict_get d (VStr "c") <> None.
Proof.
  assert (Hhost : iterates_elements AsciiHost.host)
    by (intros xs; apply Permutation_refl).
  destruct (keep_all_details_reports_every_key AsciiHost.host 0
              (Some (Z.lor DEFAULT_DELTA_CONFIG OutputAllDetails)) _
              [("a", 1%Z); ("c", 5%Z)] [("a", 1%Z); ("c", 5%Z)] EmptyString
              Hhost eq_refl eq_refl eq_refl nodup_ac nodup_ac
              (Forall_cons _ plain_ascii_a
                 (Forall_cons _ plain_ascii_c (Forall_nil _)))
              (Forall_cons _ plain_ascii_a
                 (Forall_cons _ plain_ascii_c (Forall_nil _))))
    as (d & Hd & Hall).
  exists d. split; [exact Hd|]. split; apply Hall; cbn; tauto.
Defined.

(** The entry of a name when a missing key reads as ['MISSING']: an int
    against that text goes to the numeric comparator of int and str, which
    raises what [float('MISSING')] raises. *)
Lemma int_entry_missing `{Host} (depth : nat) (options : option Z)
  (self : DeepDelta) (l r : list (string * Z)) (dict_path s : string) :
  init DeltaOutput.Output_Buffer options None None [] = Ok self ->
  Z.land (_config self) OutputFormatMask = 0%Z ->
  matches (_config self) MissingAsNone None = false ->
  format_float (VStr MISSING) 0 = Raise ValueError ->
  (forall kv, In kv l \/ In kv r -> exists t, format_float (VInt (snd kv)) 0 = Ok t) ->
  entry_of (fun lv rv p => compare_any (S depth) self lv rv (Some p))
    self (int_entries l) (int_entries r) dict_path s
  = match int_field l s, int_field r s with
    | Some a, Some b => ret (if Z.eqb a b then VNone else VTuple [VInt a; VInt b])
    | None, None => ret VNone
    | _, _ => raise ValueError
    end.
Proof.
  intros Hinit Hbits Hmissing Hm Hfmt.
  destruct (init_ok _ _ _ _ _ _ Hinit) as (_ & Htyped & Hnamed & _).
  assert (Hnone : forall p, result (get_named_comparator self (or_empty (Some p)))
                            = Ok None).
  { intros p. now rewrite (get_named_comparator_nothing self _ Hnamed). }
  unfold entry_of, side_of. rewrite !int_entries_get, Hmissing.
  destruct (int_field l s) as [a|] eqn:Hl, (int_field r s) as [b|] eqn:Hr;
    cbn [option_map py_eq].
  - destruct (Z.eqb a b) eqn:Hab.
    + now rewrite (as_delta_default _ _ _ _ _ _ _ _ Hinit Hbits).
    + rewrite (compare_any_two_ints depth self a b _ Htyped (Hnone _)), Hab.
      now rewrite (as_delta_default _ _ _ _ _ _ _ _ Hinit Hbits).
  - destruct (Hfmt (s, a)) as [t Ht]; [left; now apply int_field_in|].
    cbn [snd] in Ht.
    destruct (compare_any_int_str depth self a MISSING
                (Some (join_path dict_path (VStr s))) Htyped (Hnone _)) as [-> _].
    now rewrite Ht, bind_lift_ok, Hm.
  - destruct (Hfmt (s, b)) as [t Ht]; [right; now apply int_field_in|].
    cbn [snd] in Ht.
    destruct (compare_any_int_str depth self b MISSING
                (Some (join_path dict_path (VStr s))) Htyped (Hnone _)) as [_ ->].
    now rewrite Ht, bind_lift_ok, Hm.
  - now rewrite (as_delta_default _ _ _ _ _ _ _ _ Hinit Hbits).
Qed.

Lemma compare_int_entries_missing `{Host} (depth : nat) (options : option Z)
  (self : DeepDelta) (l r : list (string * Z)) (dict_path : string) :
  iterates_elements H ->
  init DeltaOutput.Output_Buffer options None None [] = Ok self ->
  Z.land (_config self) OutputFormatMask = 0%Z ->
  matches (_config self) MissingAsNone None = false ->
  NoDup (map fst l) -> NoDup (map fst r) ->
  Forall plain (map fst l) -> Forall plain (map fst r) ->
  format_float (VStr MISSING) 0 = Raise ValueError ->
  (forall kv, In kv l \/ In kv r -> exists t, format_float (VInt (snd kv)) 0 = Ok t) ->
  (exists s, (int_field l s = None /\ int_field r s <> None)
             \/ (int_field l s <> None /\ int_field r s = None)) ->
  compare_dict (S depth) self (int_dict l) (int_dict r) dict_path = raise ValueError.
Proof.
  intros Hiter Hinit Hbits Hmissing Hndl Hndr Hpl Hpr Hm Hfmt Hone.
  destruct (init_ok _ _ _ _ _ _ Hinit) as (_ & _ & Hnamed & Hex & _).
  destruct (compare_dict_with_plain_loop
              (fun lv rv p => compare_any (S depth) self lv rv (Some p))
              self (int_entries l) (int_entries r) (map fst l) (map fst r) dict_path
              Hiter Hex Hnamed (int_entries_keys l) (int_entries_keys r)
              Hndl Hndr Hpl Hpr)
    as (order & l_keys & r_keys & Hnd & Hin & Hstep & Hcmp).
  unfold compare_dict, int_dict. rewrite Hcmp.
  rewrite (compare_dict_loop_raises _ self _ _ l_keys r_keys dict_path ValueError
             order [] Hex); [reflexivity | |].
  - intros s Hs.
    rewrite (Hstep s Hs),
      (int_entry_missing depth options self l r dict_path s Hinit Hbits Hmissing Hm Hfmt).
    destruct (int_field l s), (int_field r s); eauto.
  - destruct Hone as (s & Hs).
    assert (Hs' : In s order).
    { apply Hin. destruct Hs as [[_ Hr]|[Hl _]];
        [right | left]; now apply int_field_name. }
    exists s. split; [exact Hs'|].
    rewrite (Hstep s Hs'),
      (int_entry_missing depth options self l r dict_path s Hinit Hbits Hmissing Hm Hfmt).
    destruct Hs as [[-> Hr]|[Hl ->]].
    + destruct (int_field r s); [reflexivity | contradiction].
    + destruct (int_field l s); [reflexivity | contradiction].
Qed.

(** X23.  In the setting of X21 but with [MissingAsNone] off, on a host
    where [float('MISSING')] raises [ValueError] and the ints of both dicts
    can be formatted: as soon as one name is on one side only,
    [compare_dict] raises [ValueError], and so does [DeepDelta.compare] on
    the two dicts. The int is compared with the text ['MISSING'] by the
    numeric comparator of int and str. *)
Theorem missing_int_raises_value_error (h : Host) (depth : nat)
  (options : option Z) (self : DeepDelta) (l r : list (string * Z))
  (dict_path : string) :
  iterates_elements h ->
  init DeltaOutput.Output_Buffer options None None [] = Ok self ->
  Z.land (_config self) OutputFormatMask = 0%Z ->
  matches (_config self) MissingAsNone None = false ->
  NoDup (map fst l) -> NoDup (map fst r) ->
  Forall plain (map fst l) -> Forall plain (map fst r) ->
  format_float (VStr MISSING) 0 = Raise ValueError ->
  (forall kv, In kv l \/ In kv r -> exists t, format_float (VInt (snd kv)) 0 = Ok t) ->
  (exists s, (int_field l s = None /\ int_field r s <> None)
             \/ (int_field l s <> None /\ int_field r s = None)) ->
  compare_dict (S depth) self (int_dict l) (int_dict r) dict_path = raise ValueError
  /\ (py_eq (int_dict l) (int_dict r) = false ->
      compare (S (S depth)) DeltaOutput.Output_Buffer (int_dict l) (int_dict r)
        options None None [] = raise ValueError).
Proof.
  intros Hiter Hinit Hbits Hmissing Hndl Hndr Hpl Hpr Hm Hfmt Hone.
  split.
  - now apply (compare_int_entries_missing depth options).
  - intros Hne.
    rewrite (compare_unequal_dicts (S depth) _ options None [] self
               (int_dict l) (int_dict r) Hinit eq_refl eq_refl Hne).
    now apply (compare_int_entries_missing depth options).
Qed.

(** X23 on [{'a': 1}] against [{}] with [MissingAsNone] taken out of the
    default configuration. *)
Lemma missing_int_raises_value_error_witness :
  compare (H := AsciiHost.host) 2 (DeltaOutput.Output_Buffer (H := AsciiHost.host))
    (int_dict [("a", 1%Z)]) (int_dict [])
    (Some (Z.lxor DEFAULT_DELTA_CONFIG MissingAsNone)) None None []
  = raise ValueError.
Proof.
  assert (Hhost : iterates_elements AsciiHost.host)
    by (intros xs; apply Permutation_refl).
  assert (Hinit : init (H := AsciiHost.host)
                    (DeltaOutput.Output_Buffer (H := AsciiHost.host))
                    (Some (Z.lxor DEFAULT_DELTA_CONFIG MissingAsNone))
                    None None [] = Ok Samples.strict_engine)
    by reflexivity.
  assert (Hfmt : forall kv : string * Z,
            In kv [("a", 1%Z)] \/ In kv [] ->
            exists t, format_float (Host := AsciiHost.host) (VInt (snd kv)) 0 = Ok t).
  { intros kv [[<-|[]]|[]]. now exists "1". }
  assert (Hone : exists s,
            (int_field [("a", 1%Z)] s = None /\ int_field [] s <> None)
            \/ (int_field [("a", 1%Z)] s <> None /\ int_field [] s = None)).
  { exists "a". right. split; [discriminate | reflexivity]. }
  exact (proj2 (missing_int_raises_value_error AsciiHost.host 0 _
                  Samples.strict_engine [("a", 1%Z)] [] EmptyString
                  Hhost Hinit eq_refl eq_refl
                  nodup_a (NoDup_nil _)
                  (Forall_cons _ plain_ascii_a (Forall_nil _)) (Forall_nil _)
                  eq_refl Hfmt Hone) eq_refl).
Defined.

(** ** Keys missing on one side, read from the dicts (C6) *)








(** ** Sequences *)

Lemma guess_keys_mixed `{Host} (seq : value) (is_key : option key_predicate)
  (case_ignored : bool) (keys : list value) (first : value) (rest : list value) :
  truthy seq = true ->
  iterate seq = Ok (first :: rest) ->
  forallb (fun item => pytype_eqb (type_of item) (type_of first)) rest = false ->
  guess_keys seq is_key case_ignored keys = ret (VDict []).
Proof.
  intros Htruthy Hitems Hmixed. unfold guess_keys.
  rewrite Htruthy, Hitems, bind_lift_ok. cbn [negb forallb].
  now rewrite Hmixed, andb_false_r.
Qed.

(** X24.  When the items of the left sequence are not all of the type of its
    first item, [guess_keys] returns an empty dict for it, and
    [compare_sequence] raises [AttributeError] as soon as the keys of the
    right sequence are guessed without an exception: a dict has no
    [intersection]. *)
Theorem mixed_left_sequence_attribute_error (h : Host) (depth : nat)
  (self : DeepDelta) (lhs rhs : value) (seq_path : option string)
  (is_key : option key_predicate) (keys : list value)
  (first : value) (rest : list value) (r_keys : value) :
  let case_ignored := matches (_config self) KeyCaseIgnored None in
  let predicate :=
    match is_key with
    | Some p => Some p
    | None => if matches (_config self) IdAsKey None
              then Some key_denoted_by_id else None
    end in
  truthy lhs = true ->
  iterate lhs = Ok (first :: rest) ->
  forallb (fun item => pytype_eqb (type_of item) (type_of first)) rest = false ->
  result (guess_keys rhs predicate case_ignored keys) = Ok r_keys ->
  guess_keys lhs predicate case_ignored keys = ret (VDict [])
  /\ result (compare_sequence depth self lhs rhs seq_path is_key keys)
     = Raise AttributeError.
Proof.
  intros ci predicate Htruthy Hitems Hmixed Hr.
  pose proof (guess_keys_mixed lhs predicate ci keys first rest
                Htruthy Hitems Hmixed) as Hl.
  split; [exact Hl|].
  unfold compare_sequence, compare_sequence_with.
  fold ci. fold predicate.
  rewrite Hl, bind_ret, result_bind, Hr. reflexivity.
Qed.

(** X24 on [[1, 'a']] against [[1, 'b']] under the default configuration. *)
Lemma mixed_left_sequence_attribute_error_witness :
  result (compare_sequence (H := AsciiHost.host) 1 Samples.default_engine
            (VList [VInt 1; VStr "a"]) (VList [VInt 1; VStr "b"]) None None [])
  = Raise AttributeError.
Proof.
  apply (mixed_left_sequence_attribute_error AsciiHost.host 1
           Samples.default_engine (VList [VInt 1; VStr "a"])
           (VList [VInt 1; VStr "b"]) None None [] (VInt 1) [VStr "a"]
           (VDict [])); reflexivity.
Defined.

Lemma index_pairs_numbered (i : nat) (xs : list Z) :
  index_pairs i (map VInt xs) = int_entries (numbered i xs).
Proof.
  revert i. induction xs as [|x xs IH]; intros i; [reflexivity|].
  cbn [map index_pairs numbered int_entries fst snd].
  f_equal. apply IH.
Qed.

Lemma numbered_names (i : nat) (xs : list Z) :
  map fst (numbered i xs)
  = map (fun j => str_of_int (Z.of_nat j)) (seq i (List.length xs)).
Proof.
  revert i. induction xs as [|x xs IH]; intros i; [reflexivity|].
  cbn [numbered map fst List.length seq]. now rewrite IH.
Qed.

Lemma numbered_nodup (i : nat) (xs : list Z) : NoDup (map fst (numbered i xs)).
Proof.
  rewrite numbered_names. apply Finite.Injective_map_NoDup; [|apply seq_NoDup].
  intros a b Hab. apply str_of_int_inj in Hab. lia.
Qed.

Lemma numbered_field (xs : list Z) (j i : nat) :
  int_field (numbered j xs) (str_of_int (Z.of_nat (j + i))) = nth_error xs i.
Proof.
  revert j i. induction xs as [|x xs IH]; intros j i.
  - now destruct i.
  - cbn [numbered int_field]. destruct i as [|i].
    + now rewrite Nat.add_0_r, String.eqb_refl.
    + destruct (String.eqb_spec (str_of_int (Z.of_nat j))
                                (str_of_int (Z.of_nat (j + S i)))) as [Heq|_].
      * apply str_of_int_inj in Heq. lia.
      * cbn [nth_error]. rewrite <- (IH (S j) i). do 3 f_equal. lia.
Qed.

Lemma guess_keys_ints `{Host} (x : Z) (xs : list Z)
  (is_key : option key_predicate) (case_ignored : bool) :
  guess_keys (VList (map VInt (x :: xs))) is_key case_ignored [] = ret (VSet []).
Proof.
  unfold guess_keys. cbn [map truthy List.length Nat.eqb negb iterate].
  rewrite bind_lift_ok.
  assert (Hsame : forallb (fun item => pytype_eqb (type_of item) (type_of (VInt x)))
                          (VInt x :: map VInt xs) = true).
  { apply forallb_forall. intros v [<-|Hv]; [reflexivity|].
    apply in_map_iff in Hv as (n & <- & _). reflexivity. }
  rewrite Hsame. cbn [negb type_of is_mapping_type has_dict obj_vars].
  rewrite bind_ret. unfold get_matched_keys.
  destruct is_key; [|reflexivity]. cbn [set_comp]. now rewrite bind_ret.
Qed.

Lemma set_iter_nil `{Host} : iterates_elements H -> set_iter [] = [].
Proof. intros Hiter. apply Permutation_nil, Permutation_sym, Hiter. Qed.

(** A non-empty list of ints has no keys: it becomes the dict of its
    positions. *)
Lemma sequence_to_dict_ints `{Host} (x : Z) (xs : list Z)
  (is_key : option key_predicate) (case_ignored : bool) :
  iterates_elements H ->
  sequence_to_dict (VList (map VInt (x :: xs))) is_key case_ignored []
  = ret (int_dict (numbered 0 (x :: xs))).
Proof.
  intros Hiter. unfold sequence_to_dict.
  rewrite guess_keys_ints, bind_ret. cbn [iterate].
  rewrite (set_iter_nil Hiter), !bind_lift_ok.
  cbn [map]. change (VInt x :: map VInt xs) with (map VInt (x :: xs)).
  rewrite (dict_fill_index_pairs [] 0) by constructor.
  rewrite bind_lift_ok. cbn [app]. now rewrite index_pairs_numbered.
Qed.

Lemma compare_int_sequences `{Host} (depth : nat) (options : option Z)
  (self : DeepDelta) (xs ys : list Z) (seq_path : option string) :
  iterates_elements H ->
  init DeltaOutput.Output_Buffer options None None [] = Ok self ->
  Z.land (_config self) OutputFormatMask = 0%Z ->
  matches (_config self) MissingAsNone None = true ->
  xs <> [] -> ys <> [] ->
  (forall i, (i < Nat.max (List.length xs) (List.length ys))%nat ->
             plain (str_of_int (Z.of_nat i))) ->
  exists d,
    compare_sequence (S depth) self (VList (map VInt xs)) (VList (map VInt ys))
      seq_path None [] = ret (VDict d)
    /\ forall i, dict_get d (VStr (str_of_int (Z.of_nat i)))
                 = int_delta (matches (_config self) NoneUnequalDefault None)
                     (nth_error xs i) (nth_error ys i).
Proof.
  intros Hiter Hinit Hbits Hmissing Hxs Hys Hplain.
  destruct xs as [|x xs]; [contradiction|]. destruct ys as [|y ys]; [contradiction|].
  assert (Hnames : forall zs, (List.length zs <= Nat.max (List.length (x :: xs))
                                                         (List.length (y :: ys)))%nat ->
                              Forall plain (map fst (numbered 0 zs))).
  { intros zs Hlen. rewrite numbered_names. apply Forall_forall.
    intros s Hs. apply in_map_iff in Hs as (i & <- & Hi).
    apply in_seq in Hi. apply Hplain. lia. }
  destruct (compare_int_entries depth options self
              (numbered 0 (x :: xs)) (numbered 0 (y :: ys)) (or_empty seq_path)
              Hiter Hinit Hbits Hmissing
              (numbered_nodup 0 _) (numbered_nodup 0 _)
              (Hnames _ (Nat.le_max_l _ _)) (Hnames _ (Nat.le_max_r _ _)))
    as (d & Hcmp & Hget).
  exists d. split.
  - unfold compare_sequence, compare_sequence_with.
    rewrite !guess_keys_ints, !bind_ret. cbn [iterate].
    rewrite (set_iter_nil Hiter), bind_lift_ok, bind_ret.
    cbn [set_inter filter]. rewrite (set_iter_nil Hiter).
    rewrite !(sequence_to_dict_ints _ _ _ _ Hiter), !bind_ret.
    exact Hcmp.
  - intros i. rewrite Hget.
    now rewrite <- (numbered_field (x :: xs) 0 i), <- (numbered_field (y :: ys) 0 i).
Qed.

(** X25.  Two non-empty lists of ints, compared by an engine as in X21 on a
    host where the string forms of the positions are plain, are aligned by
    position. [compare_sequence] returns a dict that holds, under the string
    form of each position: the pair of the two ints when both lists reach
    the position and the ints differ; the int paired with [None] when only
    one list reaches it and the int is not [0] or [NoneUnequalDefault] is
    set; no entry otherwise. [DeepDelta.compare] returns such a dict when
    the two lists are not equal, and [convert_to_compare] without a
    comparator returns one whether they are equal or not. *)
Theorem compare_lists_of_ints (h : Host) (depth : nat) (options : option Z)
  (self : DeepDelta) (xs ys : list Z) (seq_path : option string) :
  iterates_elements h ->
  init DeltaOutput.Output_Buffer options None None [] = Ok self ->
  Z.land (_config self) OutputFormatMask = 0%Z ->
  matches (_config self) MissingAsNone None = true ->
  xs <> [] -> ys <> [] ->
  (forall i, (i < Nat.max (List.length xs) (List.length ys))%nat ->
             plain (str_of_int (Z.of_nat i))) ->
  let reported d :=
    forall i, dict_get d (VStr (str_of_int (Z.of_nat i)))
              = int_delta (matches (_config self) NoneUnequalDefault None)
                  (nth_error xs i) (nth_error ys i) in
  (exists d,
     compare_sequence (S depth) self (VList (map VInt xs)) (VList (map VInt ys))
       seq_path None [] = ret (VDict d)
     /\ reported d)
  /\ (py_eq (VList (map VInt xs)) (VList (map VInt ys)) = false ->
      exists d,
        compare (S (S depth)) DeltaOutput.Output_Buffer
          (VList (map VInt xs)) (VList (map VInt ys)) options None None []
        = ret (VDict d)
        /\ reported d)
  /\ (options = None ->
      exists d,
        convert_to_compare (S depth) DeltaOutput.Output_Buffer
          (VList (map VInt xs)) (VList (map VInt ys)) None None []
        = ret (VDict d)
        /\ reported d).
Proof.
  intros Hiter Hinit Hbits Hmissing Hxs Hys Hplain reported. subst reported.
  split; [|split].
  - now apply (compare_int_sequences depth options).
  - intros Hne.
    rewrite (compare_unequal_lists (S depth) _ options None [] self _ _ Hinit Hne).
    now apply (compare_int_sequences depth options).
  - intros ->.
    destruct (compare_int_sequences depth None self xs ys (Some EmptyString)
                Hiter Hinit Hbits Hmissing Hxs Hys Hplain) as (d & Hd & Hrep).
    exists d. split; [|exact Hrep].
    unfold convert_to_compare.
    etransitivity; [|exact Hd].
    unfold DeltaConfig.t. now rewrite Hinit, bind_lift_ok.
Qed.

Lemma plain_positions (i : nat) :
  (i < 4)%nat -> plain (H := AsciiHost.host) (str_of_int (Z.of_nat i)).
Proof.
  intros Hi. do 4 (destruct i as [|i]; [repeat split|]). lia.
Qed.

(** X25 on [[1, 2, 3]] against [[1, 2, 4, 0]] under the default
    configuration: position 2 is reported with [(3, 4)]; position 3, where
    [0] stands against nothing, is not. *)
Lemma compare_lists_of_ints_witness :
  exists d,
    compare (H := AsciiHost.host) 2 (DeltaOutput.Output_Buffer (H := AsciiHost.host))
      (VList [VInt 1; VInt 2; VInt 3]) (VList [VInt 1; VInt 2; VInt 4; VInt 0])
      None None None []
    = ret (VDict d)
    /\ dict_get d (VStr "0") = None
    /\ dict_get d (VStr "2") = Some (VTuple [VInt 3; VInt 4])
    /\ dict_get d (VStr "3") = None.
Proof.
  assert (Hhost : iterates_elements AsciiHost.host)
    by (intros xs; apply Permutation_refl).
  assert (Hinit : init (H := AsciiHost.host)
                    (DeltaOutput.Output_Buffer (H := AsciiHost.host))
                    None None None [] = Ok Samples.default_engine)
    by reflexivity.
  destruct (compare_lists_of_ints AsciiHost.host 0 None Samples.default_engine
              [1; 2; 3]%Z [1; 2; 4; 0]%Z (Some EmptyString)
              Hhost Hinit eq_refl eq_refl
              ltac:(discriminate) ltac:(discriminate) plain_positions)
    as (_ & Hcompare & _).
  destruct (Hcompare eq_refl) as (d & Hd & Hreported).
  exists d. split; [exact Hd|].
  split; [exact (Hreported 0%nat)|]. split; [exact (Hreported 2%nat)|].
  exact (Hreported 3%nat).
Defined.

(* ================================================================== *)
(** * The tests of the repository, on the embedding *)
(* ================================================================== *)

(** The assertions of the test suite that stay within ints, text and
    containers, run on the ASCII host. *)

Module Tests.

Import Samples.

Example test_combined_flags :
  matches (Z.lor KeyCaseIgnored IdAsKey) KeyCaseIgnored None = true
  /\ matches (Z.lor KeyCaseIgnored IdAsKey) IdAsKey None = true.
Proof. split; reflexivity. Qed.

Example test_matches :
  matches CaseIgnored ValueCaseIgnored None = true
  /\ matches CaseIgnored KeyCaseIgnored None = true.
Proof. split; reflexivity. Qed.

Example test_matches_with_mask :
  matches (Z.lor KeySpaceTrimmed IdAsKey) KeySpaceTrimmed (Some SpaceTrimmed) = true
  /\ matches (Z.lor KeySpaceTrimmed IdAsKey) ValueSpaceTrimmed None = false.
Proof. split; reflexivity. Qed.

Example test_key_matches_with_name :
  km "key1" ">key1" false = Ok true
  /\ km "key1" ">Key1" false = Ok false
  /\ km "key1" ">abc>>key1" true = Ok true
  /\ km "key1" ">Key1" true = Ok true.
Proof. repeat split; reflexivity. Qed.

Example test_key_matches_with_full_path :
  km ">key1" ">Key1" false = Ok false
  /\ km ">abc>leaf" ">abc>leaf" false = Ok true
  /\ km ">f>Leaf>more" ">More" false = Ok false
  /\ km ">f>Leaf>more" ">more" false = Ok false
  /\ km ">key1" ">root>key1" true = Ok false
  /\ km ">ABc>LEAF" ">abc>leaf" true = Ok true
  /\ km ">f>Leaf>more" ">f>leaf" true = Ok false.
Proof. repeat split; reflexivity. Qed.

Example test_key_matches_with_end_path :
  km "abc>key1" ">abc>Key1" false = Ok false
  /\ km "abc>key1" ">abc>Key1" true = Ok true
  /\ km ">abc>leaf" ">abc>leaf" false = Ok true
  /\ km "leaf>more" ">f>Leaf>More" false = Ok false
  /\ km "F>more" ">f>Leaf>more" true = Ok true.
Proof. repeat split; reflexivity. Qed.

Example test_get_matched_keys_by_default :
  size (get_matched_keys (H := AsciiHost.host) id_candidates
          (Some (key_denoted_by_id (H := AsciiHost.host))) true []) = Some 5
  /\ size (get_matched_keys (H := AsciiHost.host) id_candidates
             (Some (key_denoted_by_id (H := AsciiHost.host))) false []) = Some 3.
Proof. split; reflexivity. Qed.

Example test_guess_keys_by_default :
  guess_keys (H := AsciiHost.host) dict_list
    (Some (key_denoted_by_id (H := AsciiHost.host))) true []
  = ([], Ok (VSet [VStr "departmentId"; VStr "employeeId"]))
  /\ guess_keys (H := AsciiHost.host) employees
       (Some (key_denoted_by_id (H := AsciiHost.host))) true []
     = ([], Ok (VSet [VStr "departmentId"; VStr "employeeId"])).
Proof. split; reflexivity. Qed.

Example test_guess_keys_with_keys_specified :
  size (guess_keys (H := AsciiHost.host) dict_list None false
          [VStr "name"; VStr "employeeID"]) = Some 1
  /\ size (guess_keys (H := AsciiHost.host) dict_list None true
             [VStr "name"; VStr "employeeID"]) = Some 2.
Proof. split; reflexivity. Qed.

Example test_dicts_to_dict :
  has_key (sequence_to_dict (H := AsciiHost.host) dict_list
             (Some (key_denoted_by_id (H := AsciiHost.host))) true
             [VStr "employeeid"]) (VInt 123) = true
  /\ has_key (sequence_to_dict (H := AsciiHost.host) dict_list
                (Some (key_denoted_by_id (H := AsciiHost.host))) true [])
             (VTuple [VInt 1; VInt 123]) = true
  /\ has_key (sequence_to_dict (H := AsciiHost.host) employees None true
                [VStr "NAME"]) (VStr "Tom") = true.
Proof. repeat split; reflexivity. Qed.

Example test_are_equal :
  result (are_equal (H := AsciiHost.host) (VBool true) (VStr "Positive") None)
  = Ok (VBool true)
  /\ result (are_equal (H := AsciiHost.host) (VStr "Yes") (VBool true) None)
     = Ok (VBool true)
  /\ result (are_equal (H := AsciiHost.host) (VList []) VNone None)
     = Ok (VBool true)
  /\ result (are_equal (H := AsciiHost.host) (VBool true) VNone None)
     = Ok (VBool false)
  /\ result (are_equal (H := AsciiHost.host) (VBool false) VNone None)
     = Ok (VBool true)
  /\ result (are_equal (H := AsciiHost.host) (VStr "None") VNone None)
     = Ok (VBool true)
  /\ result (are_equal (H := AsciiHost.host) VNone (VStr "None") None)
     = Ok (VBool true).
Proof. repeat split; reflexivity. Qed.

Example test_get_value_abbrev :
  DeltaOutput.get_value_abbrev VNone = VNone
  /\ DeltaOutput.get_value_abbrev (VInt 7) = VInt 7
  /\ DeltaOutput.get_value_abbrev (VList []) = VStr "[...]"
  /\ DeltaOutput.get_value_abbrev (VSet []) = VStr "{,,}"
  /\ DeltaOutput.get_value_abbrev (VDict []) = VStr "{...}"
  /\ DeltaOutput.get_value_abbrev (VTuple []) = VStr "(...)".
Proof. repeat split; reflexivity. Qed.

Example test_compare_with_options_case_ignored :
  run dict_list dict_list2 (Some (Z.lor CaseIgnored IdAsKey))
  = ([], Ok (VDict
       [(VTuple [VStr "2"; VStr "235"],
         VDict [(VStr "name", VTuple [VStr "Tom"; VStr "Tommy"])]);
        (VTuple [VStr "3"; VStr "326"], VTuple [VStr "{...}"; VStr "MISSING"]);
        (VTuple [VStr "3"; VStr "327"], VTuple [VStr "MISSING"; VStr "{...}"])])).
Proof. vm_compute. reflexivity. Qed.

Example test_none_unequal_default :
  size (run default_dict none_dict None) = Some 0
  /\ size (run default_dict none_dict (Some NoneUnequalDefault)) = Some 6
  /\ size (run none_dict default_dict (Some NoneUnequalDefault)) = Some 6.
Proof. repeat split; vm_compute; reflexivity. Qed.

Example test_missing_as_none :
  size (run (VDict [(VStr "key1", VInt 123); (VStr "key2", VBool false);
                    (VStr "key3", VNone)])
            (VDict [(VStr "KEY1", VStr "123"); (VStr "KEY2", VNone)]) None)
  = Some 0
  /\ size (run (VDict [(VStr "key1", VInt 123); (VStr "key2", VBool false);
                       (VStr "key3", VNone)])
               (VDict [(VStr "KEY1", VStr "123"); (VStr "KEY2", VNone)])
               (Some (Z.lxor DEFAULT_DELTA_CONFIG MissingAsNone)))
     = Some 1.
Proof. split; vm_compute; reflexivity. Qed.

End Tests.
